(** * The digit-image slot cache of the CST watch face (src/cst.c)

    A shallow embedding of the part of [cst.c] that owns the four on-screen
    digit slots: [load_digit_image_into_slot], [unload_digit_image_from_slot],
    [display_value], [get_display_hour], [display_time] and the slot loop of
    [app_destroy].

    The C code keeps its state in file-scope globals and calls the Pebble SDK
    for every bitmap and layer.  The embedding threads one [state] record
    through a small state-and-fault monad: the globals of the slot cache, and
    beside them the part of the SDK the cache talks to (which bitmaps and
    layers are allocated, and the calls made so far).

    The module [Face] embeds the rest of the file around the cache: the
    date line, the power and bluetooth indicators, the settings callback
    with the persistent store, [app_init] and [app_destroy]. *)

From stdpp Require Import base list gmap strings pretty.
From Stdlib Require Import ZArith Lia.

Local Open Scope Z_scope.
#[local] Set Warnings "-clear-no-such-hyp".

(** ** Constants *)

Definition TOTAL_IMAGE_SLOTS : Z := 4.
Definition NUMBER_OF_IMAGES : Z := 10.
Definition EMPTY_SLOT : Z := -1.

(** Pointers are abstract allocation identifiers: [NULL] is 0, and the SDK
    hands out a new identifier at each allocation, never one it has handed
    out before.  A pointer kept by the program after its object was destroyed
    (as [images[i]] is after an unload) therefore stays distinguishable from
    every object allocated later. *)
Definition NULL : Z := 0.

(** ** The Pebble SDK as seen from the slot cache *)

(** The SDK calls of the slot cache, in the order they are made. *)
Inductive sdk_call : Type :=
| CallGBitmapCreate (resource_id result : Z)
| CallBitmapLayerCreate (origin_x origin_y result : Z)
| CallBitmapLayerSetBitmap (layer bitmap : Z)
| CallLayerAddChild (layer : Z)
| CallLayerRemoveFromParent (layer : Z)
| CallBitmapLayerDestroy (layer : Z)
| CallGBitmapDestroy (bitmap : Z).

(** What the build and the device decide, not [cst.c]: the resource
    identifiers behind [IMAGE_RESOURCE_IDS] (generated by the SDK's resource
    compiler) and whether [gbitmap_create_with_resource] finds the memory
    and the resource, given everything the SDK was asked before. *)
Class Pebble : Type := {
  IMAGE_RESOURCE_IDS : Z -> Z;
  gbitmap_available : list sdk_call -> Z -> bool
}.

(** ** Program state *)

Record state : Type := mkState {
  (* globals of cst.c *)
  image_slot_state : list Z;
  images : list Z;
  image_layers : list Z;
  zero_prefix : bool;
  (* the SDK's side *)
  live_bitmaps : list Z;
  live_layers : list Z;
  next_ptr : Z;
  sdk_log : list sdk_call
}.

(** The globals as the C initialisers leave them: every slot [EMPTY_SLOT],
    the pointer arrays zeroed, [zero_prefix] false; nothing allocated. *)
Definition initial_state : state :=
  {| image_slot_state := [EMPTY_SLOT; EMPTY_SLOT; EMPTY_SLOT; EMPTY_SLOT];
     images := [NULL; NULL; NULL; NULL];
     image_layers := [NULL; NULL; NULL; NULL];
     zero_prefix := false;
     live_bitmaps := [];
     live_layers := [];
     next_ptr := 1;
     sdk_log := [] |}.

Definition set_image_slot_state (v : list Z) (st : state) : state :=
  mkState v (images st) (image_layers st) (zero_prefix st)
          (live_bitmaps st) (live_layers st) (next_ptr st) (sdk_log st).
Definition set_images (v : list Z) (st : state) : state :=
  mkState (image_slot_state st) v (image_layers st) (zero_prefix st)
          (live_bitmaps st) (live_layers st) (next_ptr st) (sdk_log st).
Definition set_image_layers (v : list Z) (st : state) : state :=
  mkState (image_slot_state st) (images st) v (zero_prefix st)
          (live_bitmaps st) (live_layers st) (next_ptr st) (sdk_log st).
Definition set_zero_prefix (v : bool) (st : state) : state :=
  mkState (image_slot_state st) (images st) (image_layers st) v
          (live_bitmaps st) (live_layers st) (next_ptr st) (sdk_log st).
Definition set_live_bitmaps (v : list Z) (st : state) : state :=
  mkState (image_slot_state st) (images st) (image_layers st) (zero_prefix st)
          v (live_layers st) (next_ptr st) (sdk_log st).
Definition set_live_layers (v : list Z) (st : state) : state :=
  mkState (image_slot_state st) (images st) (image_layers st) (zero_prefix st)
          (live_bitmaps st) v (next_ptr st) (sdk_log st).
Definition set_next_ptr (v : Z) (st : state) : state :=
  mkState (image_slot_state st) (images st) (image_layers st) (zero_prefix st)
          (live_bitmaps st) (live_layers st) v (sdk_log st).
Definition log_call (c : sdk_call) (st : state) : state :=
  mkState (image_slot_state st) (images st) (image_layers st) (zero_prefix st)
          (live_bitmaps st) (live_layers st) (next_ptr st) (sdk_log st ++ [c]).

(** ** The monad: state passing, with [Fault] for undefined behaviour

    [Fault] stands for what C leaves undefined and the watch answers with an
    application crash: a null or dangling pointer dereferenced, an object
    destroyed twice, an array indexed out of its bounds. *)

Inductive outcome (A : Type) : Type :=
| Done (a : A) (st : state)
| Fault.
Arguments Done {A} a st.
Arguments Fault {A}.

Definition M (A : Type) : Type := state -> outcome A.

Definition ret {A} (a : A) : M A := fun st => Done a st.
Definition bind {A B} (m : M A) (k : A -> M B) : M B :=
  fun st => match m st with
            | Done a st' => k a st'
            | Fault => Fault
            end.
Definition gets {A} (f : state -> A) : M A := fun st => Done (f st) st.
Definition modify (f : state -> state) : M unit := fun st => Done tt (f st).

Declare Scope cst_scope.
Delimit Scope cst_scope with cst.
Notation "x <- m ;; k" := (bind m (fun x => k))
  (at level 100, m at next level, right associativity) : cst_scope.
Notation "m ;; k" := (bind m (fun _ => k))
  (at level 100, right associativity) : cst_scope.
Local Open Scope cst_scope.

(** C array accesses.  An index outside the array is undefined behaviour. *)
Definition array_get (arr : state -> list Z) (i : Z) : M Z :=
  fun st => match (if 0 <=? i then arr st !! Z.to_nat i else None) with
            | Some v => Done v st
            | None => Fault
            end.
Definition array_set (arr : state -> list Z) (upd : list Z -> state -> state)
           (i v : Z) : M unit :=
  fun st => if (0 <=? i) && (i <? Z.of_nat (length (arr st)))
            then Done tt (upd (<[Z.to_nat i := v]> (arr st)) st)
            else Fault.

(** C integer conversions and operators used by the cache.  [%] and [/] on
    [int] truncate towards zero. *)
Definition to_ushort (z : Z) : Z := z mod 65536.
Definition c_mod (a b : Z) : Z := Z.rem a b.
Definition c_div (a b : Z) : Z := Z.quot a b.

Section Cache.
Context `{Pebble}.

(** ** SDK calls *)

(** [gbitmap_create_with_resource]: a new bitmap, or [NULL] when the
    resource cannot be loaded. *)
Definition gbitmap_create_with_resource (resource_id : Z) : M Z :=
  fun st =>
    if gbitmap_available (sdk_log st) resource_id then
      let p := next_ptr st in
      Done p (log_call (CallGBitmapCreate resource_id p)
                (set_next_ptr (p + 1) (set_live_bitmaps (p :: live_bitmaps st) st)))
    else Done NULL (log_call (CallGBitmapCreate resource_id NULL) st).

(** [bitmap->bounds.size]: reading through the pointer.  The size itself is
    the image's own and plays no part in the cache. *)
Definition gbitmap_bounds_size (bitmap : Z) : M unit :=
  fun st => if bool_decide (bitmap ∈ live_bitmaps st) then Done tt st else Fault.

(** [bitmap_layer_create]: a new layer.  Layer allocation is taken to
    succeed; the failures of the cache's store are those of the bitmaps. *)
Definition bitmap_layer_create (origin_x origin_y : Z) : M Z :=
  fun st =>
    let p := next_ptr st in
    Done p (log_call (CallBitmapLayerCreate origin_x origin_y p)
              (set_next_ptr (p + 1) (set_live_layers (p :: live_layers st) st))).

Definition bitmap_layer_set_bitmap (layer bitmap : Z) : M unit :=
  fun st =>
    if bool_decide (layer ∈ live_layers st) && bool_decide (bitmap ∈ live_bitmaps st)
    then Done tt (log_call (CallBitmapLayerSetBitmap layer bitmap) st)
    else Fault.

(** [layer_add_child(window_get_root_layer(window), bitmap_layer_get_layer(layer))] *)
Definition layer_add_child (layer : Z) : M unit :=
  fun st =>
    if bool_decide (layer ∈ live_layers st)
    then Done tt (log_call (CallLayerAddChild layer) st)
    else Fault.

(** [layer_remove_from_parent(bitmap_layer_get_layer(layer))] *)
Definition layer_remove_from_parent (layer : Z) : M unit :=
  fun st =>
    if bool_decide (layer ∈ live_layers st)
    then Done tt (log_call (CallLayerRemoveFromParent layer) st)
    else Fault.

Definition bitmap_layer_destroy (layer : Z) : M unit :=
  fun st =>
    if bool_decide (layer ∈ live_layers st)
    then Done tt (log_call (CallBitmapLayerDestroy layer)
                    (set_live_layers (filter (λ q, q ≠ layer) (live_layers st)) st))
    else Fault.

Definition gbitmap_destroy (bitmap : Z) : M unit :=
  fun st =>
    if bool_decide (bitmap ∈ live_bitmaps st)
    then Done tt (log_call (CallGBitmapDestroy bitmap)
                    (set_live_bitmaps (filter (λ q, q ≠ bitmap) (live_bitmaps st)) st))
    else Fault.

(** ** The slot cache (cst.c, lines 113-145) *)

Definition load_digit_image_into_slot (slot_number digit_value : Z) : M unit :=
  if (0 <=? slot_number) && (slot_number <? TOTAL_IMAGE_SLOTS) then
    if (0 <=? digit_value) && (digit_value <=? 9) then
      s <- array_get image_slot_state slot_number ;;
      if s =? EMPTY_SLOT then
        bitmap <- gbitmap_create_with_resource (IMAGE_RESOURCE_IDS digit_value) ;;
        array_set images set_images slot_number bitmap ;;
        image <- array_get images slot_number ;;
        gbitmap_bounds_size image ;;
        layer <- bitmap_layer_create (c_mod slot_number 2 * 72) (c_div slot_number 2 * 74) ;;
        array_set image_layers set_image_layers slot_number layer ;;
        layer <- array_get image_layers slot_number ;;
        image <- array_get images slot_number ;;
        bitmap_layer_set_bitmap layer image ;;
        layer <- array_get image_layers slot_number ;;
        layer_add_child layer ;;
        array_set image_slot_state set_image_slot_state slot_number digit_value
      else ret tt
    else ret tt
  else ret tt.

Definition unload_digit_image_from_slot (slot_number : Z) : M unit :=
  s <- array_get image_slot_state slot_number ;;
  if negb (s =? EMPTY_SLOT) then
    layer <- array_get image_layers slot_number ;;
    layer_remove_from_parent layer ;;
    layer <- array_get image_layers slot_number ;;
    bitmap_layer_destroy layer ;;
    image <- array_get images slot_number ;;
    gbitmap_destroy image ;;
    array_set image_slot_state set_image_slot_state slot_number EMPTY_SLOT
  else ret tt.

(** ** The two-digit row (cst.c, lines 157-173) *)

(** One pass of the loop body, for column [col_number] and the current
    [value].  [changed || ...] reads the slot only when [changed] is false. *)
Definition display_column (row_number : Z) (changed : bool)
           (col_number value : Z) : M unit :=
  let slot_number := row_number * 2 + col_number in
  let digit := c_mod value 10 in
  refresh <- (if changed then ret true
              else s <- array_get image_slot_state slot_number ;;
                   ret (negb (digit =? s))) ;;
  if refresh : bool then
    unload_digit_image_from_slot slot_number ;;
    zp <- gets zero_prefix ;;
    if zp || negb (digit =? 0) || negb (slot_number =? 0)
    then load_digit_image_into_slot slot_number digit
    else ret tt
  else ret tt.

(** [for (col_number = n - 1; col_number >= 0; col_number--)], with
    [value /= 10] after each pass. *)
Fixpoint display_columns (n : nat) (row_number : Z) (changed : bool)
         (value : Z) : M unit :=
  match n with
  | O => ret tt
  | S col_number =>
      display_column row_number changed (Z.of_nat col_number) value ;;
      display_columns col_number row_number changed (c_div value 10)
  end.

(** Both parameters are [unsigned short]; [value %= 100] comes first. *)
Definition display_value (value row_number : Z) (changed : bool) : M unit :=
  let value := to_ushort value in
  let row_number := to_ushort row_number in
  let value := c_mod value 100 in
  display_columns 2 row_number changed value.

(** ** Hours, the time, and the slot loop of [app_destroy]
    (cst.c, lines 175-188, 463-465) *)

(** [clock_is_24h_style()] is the watch's setting, read at each call. *)
Definition get_display_hour (clock_is_24h_style : bool) (hour : Z) : Z :=
  let hour := to_ushort hour in
  if clock_is_24h_style then hour
  else
    let display_hour := c_mod hour 12 in
    if negb (display_hour =? 0) then display_hour else 12.

Definition display_time (tm_hour tm_min : Z) (clock_is_24h_style changed : bool)
  : M unit :=
  display_value (get_display_hour clock_is_24h_style tm_hour) 0 changed ;;
  display_value tm_min 1 changed.

(** [for (i = first; i < first + n; i++) unload_digit_image_from_slot(i)] *)
Fixpoint unload_slots (n : nat) (i : Z) : M unit :=
  match n with
  | O => ret tt
  | S n' => unload_digit_image_from_slot i ;; unload_slots n' (i + 1)
  end.

(** The slot loop of [app_destroy]; the statements around it release the
    text layer, the window and the day names. *)
Definition app_destroy : M unit :=
  unload_slots (Z.to_nat TOTAL_IMAGE_SLOTS) 0.

(** ** Sequences of calls on the cache *)

Inductive cache_call : Type :=
| LoadDigit (slot_number digit_value : Z)
| UnloadDigit (slot_number : Z)
| DisplayValue (value row_number : Z) (changed : bool)
| DisplayTime (tm_hour tm_min : Z) (clock_is_24h_style changed : bool)
| SetZeroPrefix (value : bool)
| AppDestroy.

Definition run_call (c : cache_call) : M unit :=
  match c with
  | LoadDigit s d => load_digit_image_into_slot s d
  | UnloadDigit s => unload_digit_image_from_slot s
  | DisplayValue v r ch => display_value v r ch
  | DisplayTime h m c24 ch => display_time h m c24 ch
  | SetZeroPrefix b => modify (set_zero_prefix b)
  | AppDestroy => app_destroy
  end.

Fixpoint run_calls (cs : list cache_call) : M unit :=
  match cs with
  | [] => ret tt
  | c :: cs' => run_call c ;; run_calls cs'
  end.

End Cache.

(** Two stores for concrete runs: one that always delivers, one that never
    does.  Digit [d] is resource [100 + d] in both. *)
Definition store_ok : Pebble :=
  {| IMAGE_RESOURCE_IDS := fun d => 100 + d;
     gbitmap_available := fun _ _ => true |}.
Definition store_empty : Pebble :=
  {| IMAGE_RESOURCE_IDS := fun d => 100 + d;
     gbitmap_available := fun _ _ => false |}.

(** ** What the claims speak about *)

(** The digit a slot shows, as the C code reads it: [image_slot_state[i]]. *)
Definition slot_digit (st : state) (i : Z) : option Z :=
  if 0 <=? i then image_slot_state st !! Z.to_nat i else None.

(** A slot holds a loaded bitmap (layer): the pointer stored for it is that
    of an object the SDK has created and not destroyed since. *)
Definition holds_bitmap (st : state) (i : Z) : Prop :=
  ∃ p, images st !! Z.to_nat i = Some p ∧ p ∈ live_bitmaps st.
Definition holds_layer (st : state) (i : Z) : Prop :=
  ∃ p, image_layers st !! Z.to_nat i = Some p ∧ p ∈ live_layers st.
Definition occupied (states : list Z) (i : nat) : Prop :=
  ∃ s, states !! i = Some s ∧ s ≠ EMPTY_SLOT.

(** Bitmaps handed out and bitmaps handed back, read off the SDK log.  A
    [gbitmap_create_with_resource] that returned [NULL] acquired nothing. *)
Definition bitmap_acquired (c : sdk_call) : option Z :=
  match c with
  | CallGBitmapCreate _ p => if p =? NULL then None else Some p
  | _ => None
  end.
Definition bitmap_released (c : sdk_call) : option Z :=
  match c with
  | CallGBitmapDestroy p => Some p
  | _ => None
  end.
Definition layer_acquired (c : sdk_call) : option Z :=
  match c with
  | CallBitmapLayerCreate _ _ p => Some p
  | _ => None
  end.
Definition layer_released (c : sdk_call) : option Z :=
  match c with
  | CallBitmapLayerDestroy p => Some p
  | _ => None
  end.
Definition acquired_bitmaps (log : list sdk_call) : list Z := omap bitmap_acquired log.
Definition released_bitmaps (log : list sdk_call) : list Z := omap bitmap_released log.
Definition acquired_layers (log : list sdk_call) : list Z := omap layer_acquired log.
Definition released_layers (log : list sdk_call) : list Z := omap layer_released log.

(** The state a successful load of [digit] into the empty slot [slot]
    leaves, and the SDK calls it makes: bitmap [p], layer [p + 1]. *)
Definition load_calls `{Pebble} (slot digit p : Z) : list sdk_call :=
  [CallGBitmapCreate (IMAGE_RESOURCE_IDS digit) p;
   CallBitmapLayerCreate (c_mod slot 2 * 72) (c_div slot 2 * 74) (p + 1);
   CallBitmapLayerSetBitmap (p + 1) p;
   CallLayerAddChild (p + 1)].
Definition loaded `{Pebble} (slot digit : Z) (st : state) : state :=
  let p := next_ptr st in
  {| image_slot_state := <[Z.to_nat slot := digit]> (image_slot_state st);
     images := <[Z.to_nat slot := p]> (images st);
     image_layers := <[Z.to_nat slot := p + 1]> (image_layers st);
     zero_prefix := zero_prefix st;
     live_bitmaps := p :: live_bitmaps st;
     live_layers := (p + 1) :: live_layers st;
     next_ptr := p + 2;
     sdk_log := sdk_log st ++ load_calls slot digit p |}.

(** The state an unload of the occupied slot [slot] leaves, and its SDK
    calls, for the slot's layer [l] and bitmap [b].  The pointers stay in
    the arrays. *)
Definition unload_calls (l b : Z) : list sdk_call :=
  [CallLayerRemoveFromParent l; CallBitmapLayerDestroy l; CallGBitmapDestroy b].
Definition unloaded (slot l b : Z) (st : state) : state :=
  {| image_slot_state := <[Z.to_nat slot := EMPTY_SLOT]> (image_slot_state st);
     images := images st;
     image_layers := image_layers st;
     zero_prefix := zero_prefix st;
     live_bitmaps := filter (λ q, q ≠ b) (live_bitmaps st);
     live_layers := filter (λ q, q ≠ l) (live_layers st);
     next_ptr := next_ptr st;
     sdk_log := sdk_log st ++ unload_calls l b |}.

(** The SDK calls the teardown makes for slot [i], read off the state it
    starts in: the three calls of an unload, on the slot's own layer and
    bitmap, when the slot is occupied; none when it is empty. *)
Definition slot_teardown_calls (st : state) (i : nat) : list sdk_call :=
  match image_slot_state st !! i, image_layers st !! i, images st !! i with
  | Some s, Some l, Some b => if s =? EMPTY_SLOT then [] else unload_calls l b
  | _, _, _ => []
  end.
Definition teardown_calls (st : state) : list sdk_call :=
  slot_teardown_calls st 0 ++ slot_teardown_calls st 1
  ++ slot_teardown_calls st 2 ++ slot_teardown_calls st 3.

(** ** The invariant of the cache *)

(** The slots [states] own the live objects [live] through the pointers
    [arr]: a slot is occupied exactly when its pointer is live, two occupied
    slots never share a pointer, and every live object belongs to a slot. *)
Record owns (states arr live : list Z) : Prop := {
  owns_live : ∀ i s p, states !! i = Some s → arr !! i = Some p →
                       (s ≠ EMPTY_SLOT ↔ p ∈ live);
  owns_apart : ∀ i j p, i ≠ j → occupied states i → occupied states j →
                        arr !! i = Some p → arr !! j ≠ Some p;
  owns_all : ∀ p, p ∈ live → ∃ i, occupied states i ∧ arr !! i = Some p
}.

(** The books of one kind of object: what was acquired is what was released
    together with what is live, nothing was handed out twice, and nothing
    handed out is [NULL] or at or beyond the next identifier. *)
Record accounted (acq rel live : list Z) (next : Z) : Prop := {
  acc_perm : acq ≡ₚ rel ++ live;
  acc_nodup : NoDup acq;
  acc_bound : ∀ p, p ∈ acq → 0 < p < next
}.

Record cache_inv (st : state) : Prop := {
  inv_len_state : length (image_slot_state st) = 4%nat;
  inv_len_images : length (images st) = 4%nat;
  inv_len_layers : length (image_layers st) = 4%nat;
  inv_next : 0 < next_ptr st;
  inv_images_old : ∀ p, p ∈ images st → p < next_ptr st;
  inv_layers_old : ∀ p, p ∈ image_layers st → p < next_ptr st;
  inv_bitmaps : owns (image_slot_state st) (images st) (live_bitmaps st);
  inv_layers : owns (image_slot_state st) (image_layers st) (live_layers st);
  inv_bitmap_books : accounted (acquired_bitmaps (sdk_log st))
                               (released_bitmaps (sdk_log st))
                               (live_bitmaps st) (next_ptr st);
  inv_layer_books : accounted (acquired_layers (sdk_log st))
                              (released_layers (sdk_log st))
                              (live_layers st) (next_ptr st)
}.

(** A command keeps a property of the state whenever it returns. *)
Definition preserves {A} (P : state → Prop) (m : M A) : Prop :=
  ∀ st a st', P st → m st = Done a st' → P st'.

(** ** What a row update amounts to *)

(** Slot [slot] shows [digit] already. *)
Definition shows (st : state) (slot digit : Z) : bool :=
  bool_decide (slot_digit st slot = Some digit).

(** Whether the digit written at [slot] is blanked: the first digit of the
    first row, when it is 0 and [zero_prefix] is off. *)
Definition blanked (zp : bool) (slot digit : Z) : bool :=
  negb (zp || negb (digit =? 0) || negb (slot =? 0)).

(** The calls one column of [display_value] makes when [changed] is false,
    decided on the state [st0] in which [display_value] was entered. *)
Definition column_update `{Pebble} (st0 : state) (slot digit : Z) : M unit :=
  if shows st0 slot digit then ret tt
  else
    unload_digit_image_from_slot slot ;;
    if blanked (zero_prefix st0) slot digit then ret tt
    else load_digit_image_into_slot slot digit.

(** What a column's slot holds once the row is displayed. *)
Definition column_result (st0 : state) (changed : bool) (slot digit : Z) : Z :=
  if (changed || negb (shows st0 slot digit)) && blanked (zero_prefix st0) slot digit
  then EMPTY_SLOT else digit.

(** Two states agree on [zero_prefix] and on every slot but [slot]. *)
Definition same_elsewhere (slot : Z) (st st' : state) : Prop :=
  zero_prefix st' = zero_prefix st
  ∧ ∀ j : nat, j ≠ Z.to_nat slot →
      image_slot_state st' !! j = image_slot_state st !! j
      ∧ images st' !! j = images st !! j
      ∧ image_layers st' !! j = image_layers st !! j.

(** The store delivers every bitmap it is asked for. *)
Definition store_delivers `{Pebble} : Prop :=
  ∀ log resource_id, gbitmap_available log resource_id = true.

(** The state a sequence of calls leaves when run from the initial state. *)
Definition state_after `{Pebble} (cs : list cache_call) : state :=
  match run_calls cs initial_state with
  | Done _ st => st
  | Fault => initial_state
  end.

(** Slot [slot] is exactly as it was: its state and both its pointers. *)
Definition untouched (slot : Z) (st st' : state) : Prop :=
  image_slot_state st' !! Z.to_nat slot = image_slot_state st !! Z.to_nat slot
  ∧ images st' !! Z.to_nat slot = images st !! Z.to_nat slot
  ∧ image_layers st' !! Z.to_nat slot = image_layers st !! Z.to_nat slot.

(** With [zero_prefix] off, slot 0 does not show a 0. *)
Definition no_leading_zero (st : state) : Prop :=
  zero_prefix st = false → slot_digit st 0 ≠ Some 0.

(** What the four slots hold when [tm_hour]:[tm_min] is on screen: the two
    digits of the displayed hour, the first one blank when it is 0 and
    [zero_prefix] is off, then the two digits of the minute. *)
Definition time_digits (zp clock_is_24h_style : bool) (tm_hour tm_min : Z) : list Z :=
  let hh := get_display_hour clock_is_24h_style tm_hour in
  [if (hh / 10 =? 0) && negb zp then EMPTY_SLOT else hh / 10;
   hh mod 10;
   tm_min / 10;
   tm_min mod 10].

(** Call sequences used for concrete runs. *)
Definition two_ticks_and_a_load : list cache_call :=
  [DisplayTime 14 5 false true; DisplayTime 15 59 false false; LoadDigit 0 7].

Definition slot_1_shows_3 : list cache_call := [LoadDigit 1 3].
Definition twelve_o_clock : list cache_call := [DisplayValue 12 0 true].
Definition minutes_00 : list cache_call := [DisplayValue 0 1 true].

(** * The rest of the watch face

    The indicators, the date line, the settings and their persistence
    (cst.c, lines 190-472).  The slot cache above is one component of the
    state; bitmaps and layers of the indicators come from the same SDK and
    live in the same lists. *)

Module Face.

(** ** Settings keys, tuples, battery state, broken-down time *)

Definition ZERO_PREFIX : Z := 0.
Definition SHOW_POWER : Z := 1.
Definition SHOW_BTOOTH : Z := 2.
Definition MONTH_FIRST : Z := 3.
Definition SUN_TEXT : Z := 4.
Definition MON_TEXT : Z := 5.
Definition TUE_TEXT : Z := 6.
Definition WED_TEXT : Z := 7.
Definition THU_TEXT : Z := 8.
Definition FRI_TEXT : Z := 9.
Definition SAT_TEXT : Z := 10.

Definition NUMBER_OF_POWER_IMAGES : Z := 6.

(** Size of the [date] buffer, terminator included. *)
Definition DATE_SIZE : Z := 16.

Inductive TupleType : Type :=
| TUPLE_BYTE_ARRAY
| TUPLE_CSTRING
| TUPLE_UINT
| TUPLE_INT.

(** A [Tuple] as the code reads it: its type, its length, and its value
    through each of the three members of the union that the code uses.
    Which member is meaningful depends on the type; the others hold
    whatever the same bytes happen to spell. *)
Record Tuple : Type := mkTuple {
  tuple_type : TupleType;
  tuple_length : Z;
  value_cstring : string;
  value_int32 : Z;
  value_uint32 : Z
}.

Record BatteryChargeState : Type := mkBattery {
  charge_percent : Z;
  is_charging : bool
}.

Record tm : Type := mkTm {
  tm_min : Z;
  tm_hour : Z;
  tm_mday : Z;
  tm_mon : Z;
  tm_wday : Z
}.

(** What the watch answers when asked: [localtime(time(NULL))],
    [clock_is_24h_style()], [battery_state_service_peek()] and
    [bluetooth_connection_service_peek()]. *)
Record env : Type := mkEnv {
  now : tm;
  clock_is_24h_style : bool;
  battery : BatteryChargeState;
  connected : bool
}.

(** ** Persistent storage

    A store of flags and strings by key.  The code keeps flags under keys
    0..3 and strings under keys 4..10 and never reads one as the other; a
    store in which something else did reads as [false] and as the empty
    string. *)
Inductive persisted : Type :=
| PBool (b : bool)
| PString (s : string).

Definition persist_exists (store : gmap Z persisted) (key : Z) : bool :=
  bool_decide (is_Some (store !! key)).
Definition persist_read_bool (store : gmap Z persisted) (key : Z) : bool :=
  match store !! key with
  | Some (PBool b) => b
  | _ => false
  end.
Definition persist_read_string (store : gmap Z persisted) (key : Z) : string :=
  match store !! key with
  | Some (PString s) => s
  | _ => ""
  end.

(** Power and bluetooth images, whose resource identifiers the build
    assigns. *)
Class Resources : Type := {
  POWER_IMAGE_RESOURCE_IDS : Z -> Z;
  RESOURCE_ID_IMAGE_BLUETOOTH : Z
}.

(** ** State *)

Record face : Type := mkFace {
  cache : state;
  bluetooth_image : Z;
  bluetooth_layer : Z;
  power_image : Z;
  power_layer : Z;
  text_layer : Z;
  live_text_layers : list Z;
  text_layer_shows_date : bool;
  prev_bluetooth : bool;
  prev_power : Z;
  prev_day : Z;
  date : string;
  show_power : bool;
  show_bluetooth : bool;
  month_first : bool;
  day_text : list string;
  persist : gmap Z persisted
}.

(** The globals as the C initialisers leave them, over a given store.
    The day names are null pointers until [app_init] fills them in. *)
Definition initial_face (store : gmap Z persisted) : face :=
  {| cache := initial_state;
     bluetooth_image := NULL;
     bluetooth_layer := NULL;
     power_image := NULL;
     power_layer := NULL;
     text_layer := NULL;
     live_text_layers := [];
     text_layer_shows_date := false;
     prev_bluetooth := false;
     prev_power := -1;
     prev_day := -1;
     date := "";
     show_power := true;
     show_bluetooth := true;
     month_first := true;
     day_text := replicate 7 "";
     persist := store |}.

Definition set_cache (v : state) (a : face) : face :=
  mkFace v (bluetooth_image a) (bluetooth_layer a) (power_image a)
    (power_layer a) (text_layer a) (live_text_layers a)
    (text_layer_shows_date a) (prev_bluetooth a) (prev_power a) (prev_day a)
    (date a) (show_power a) (show_bluetooth a) (month_first a) (day_text a)
    (persist a).
Definition set_bluetooth_image (v : Z) (a : face) : face :=
  mkFace (cache a) v (bluetooth_layer a) (power_image a) (power_layer a)
    (text_layer a) (live_text_layers a) (text_layer_shows_date a)
    (prev_bluetooth a) (prev_power a) (prev_day a) (date a) (show_power a)
    (show_bluetooth a) (month_first a) (day_text a) (persist a).
Definition set_bluetooth_layer (v : Z) (a : face) : face :=
  mkFace (cache a) (bluetooth_image a) v (power_image a) (power_layer a)
    (text_layer a) (live_text_layers a) (text_layer_shows_date a)
    (prev_bluetooth a) (prev_power a) (prev_day a) (date a) (show_power a)
    (show_bluetooth a) (month_first a) (day_text a) (persist a).
Definition set_power_image (v : Z) (a : face) : face :=
  mkFace (cache a) (bluetooth_image a) (bluetooth_layer a) v (power_layer a)
    (text_layer a) (live_text_layers a) (text_layer_shows_date a)
    (prev_bluetooth a) (prev_power a) (prev_day a) (date a) (show_power a)
    (show_bluetooth a) (month_first a) (day_text a) (persist a).
Definition set_power_layer (v : Z) (a : face) : face :=
  mkFace (cache a) (bluetooth_image a) (bluetooth_layer a) (power_image a) v
    (text_layer a) (live_text_layers a) (text_layer_shows_date a)
    (prev_bluetooth a) (prev_power a) (prev_day a) (date a) (show_power a)
    (show_bluetooth a) (month_first a) (day_text a) (persist a).
Definition set_text_layer (v : Z) (a : face) : face :=
  mkFace (cache a) (bluetooth_image a) (bluetooth_layer a) (power_image a)
    (power_layer a) v (live_text_layers a) (text_layer_shows_date a)
    (prev_bluetooth a) (prev_power a) (prev_day a) (date a) (show_power a)
    (show_bluetooth a) (month_first a) (day_text a) (persist a).
Definition set_live_text_layers (v : list Z) (a : face) : face :=
  mkFace (cache a) (bluetooth_image a) (bluetooth_layer a) (power_image a)
    (power_layer a) (text_layer a) v (text_layer_shows_date a)
    (prev_bluetooth a) (prev_power a) (prev_day a) (date a) (show_power a)
    (show_bluetooth a) (month_first a) (day_text a) (persist a).
Definition set_text_layer_shows_date (v : bool) (a : face) : face :=
  mkFace (cache a) (bluetooth_image a) (bluetooth_layer a) (power_image a)
    (power_layer a) (text_layer a) (live_text_layers a) v (prev_bluetooth a)
    (prev_power a) (prev_day a) (date a) (show_power a) (show_bluetooth a)
    (month_first a) (day_text a) (persist a).
Definition set_prev_bluetooth (v : bool) (a : face) : face :=
  mkFace (cache a) (bluetooth_image a) (bluetooth_layer a) (power_image a)
    (power_layer a) (text_layer a) (live_text_layers a)
    (text_layer_shows_date a) v (prev_power a) (prev_day a) (date a)
    (show_power a) (show_bluetooth a) (month_first a) (day_text a) (persist a).
Definition set_prev_power (v : Z) (a : face) : face :=
  mkFace (cache a) (bluetooth_image a) (bluetooth_layer a) (power_image a)
    (power_layer a) (text_layer a) (live_text_layers a)
    (text_layer_shows_date a) (prev_bluetooth a) v (prev_day a) (date a)
    (show_power a) (show_bluetooth a) (month_first a) (day_text a) (persist a).
Definition set_prev_day (v : Z) (a : face) : face :=
  mkFace (cache a) (bluetooth_image a) (bluetooth_layer a) (power_image a)
    (power_layer a) (text_layer a) (live_text_layers a)
    (text_layer_shows_date a) (prev_bluetooth a) (prev_power a) v (date a)
    (show_power a) (show_bluetooth a) (month_first a) (day_text a) (persist a).
Definition set_date (v : string) (a : face) : face :=
  mkFace (cache a) (bluetooth_image a) (bluetooth_layer a) (power_image a)
    (power_layer a) (text_layer a) (live_text_layers a)
    (text_layer_shows_date a) (prev_bluetooth a) (prev_power a) (prev_day a) v
    (show_power a) (show_bluetooth a) (month_first a) (day_text a) (persist a).
Definition set_show_power (v : bool) (a : face) : face :=
  mkFace (cache a) (bluetooth_image a) (bluetooth_layer a) (power_image a)
    (power_layer a) (text_layer a) (live_text_layers a)
    (text_layer_shows_date a) (prev_bluetooth a) (prev_power a) (prev_day a)
    (date a) v (show_bluetooth a) (month_first a) (day_text a) (persist a).
Definition set_show_bluetooth (v : bool) (a : face) : face :=
  mkFace (cache a) (bluetooth_image a) (bluetooth_layer a) (power_image a)
    (power_layer a) (text_layer a) (live_text_layers a)
    (text_layer_shows_date a) (prev_bluetooth a) (prev_power a) (prev_day a)
    (date a) (show_power a) v (month_first a) (day_text a) (persist a).
Definition set_month_first (v : bool) (a : face) : face :=
  mkFace (cache a) (bluetooth_image a) (bluetooth_layer a) (power_image a)
    (power_layer a) (text_layer a) (live_text_layers a)
    (text_layer_shows_date a) (prev_bluetooth a) (prev_power a) (prev_day a)
    (date a) (show_power a) (show_bluetooth a) v (day_text a) (persist a).
Definition set_day_text (v : list string) (a : face) : face :=
  mkFace (cache a) (bluetooth_image a) (bluetooth_layer a) (power_image a)
    (power_layer a) (text_layer a) (live_text_layers a)
    (text_layer_shows_date a) (prev_bluetooth a) (prev_power a) (prev_day a)
    (date a) (show_power a) (show_bluetooth a) (month_first a) v (persist a).
Definition set_persist (v : gmap Z persisted) (a : face) : face :=
  mkFace (cache a) (bluetooth_image a) (bluetooth_layer a) (power_image a)
    (power_layer a) (text_layer a) (live_text_layers a)
    (text_layer_shows_date a) (prev_bluetooth a) (prev_power a) (prev_day a)
    (date a) (show_power a) (show_bluetooth a) (month_first a) (day_text a) v.

(** ** The monad over the whole state *)

Inductive result (A : Type) : Type :=
| Ok (x : A) (a : face)
| Crash.
Arguments Ok {A} x a.
Arguments Crash {A}.

Definition F (A : Type) : Type := face -> result A.

Definition fret {A} (x : A) : F A := fun a => Ok x a.
Definition fbind {A B} (m : F A) (k : A -> F B) : F B :=
  fun a => match m a with
           | Ok x a' => k x a'
           | Crash => Crash
           end.
Definition crash {A} : F A := fun _ => Crash.
Definition fgets {A} (f : face -> A) : F A := fun a => Ok (f a) a.
Definition fmodify (f : face -> face) : F unit := fun a => Ok tt (f a).

(** A command of the slot cache or an SDK call, run on the [cache]
    component. *)
Definition lift {A} (m : M A) : F A :=
  fun a => match m (cache a) with
           | Done x st => Ok x (set_cache st a)
           | Fault => Crash
           end.

Declare Scope face_scope.
Delimit Scope face_scope with face.
Notation "x <- m ;; k" := (fbind m (fun x => k))
  (at level 100, m at next level, right associativity) : face_scope.
Notation "m ;; k" := (fbind m (fun _ => k))
  (at level 100, right associativity) : face_scope.
Local Open Scope face_scope.

Section Face.
Context `{Pebble} `{Resources}.

(** ** SDK calls on the text layer *)

Definition text_layer_create : F Z :=
  fun a =>
    let p := next_ptr (cache a) in
    Ok p (set_live_text_layers (p :: live_text_layers a)
            (set_cache (set_next_ptr (p + 1) (cache a)) a)).

(** The layer shows the buffer it is given, here always [date]. *)
Definition text_layer_set_text (layer : Z) : F unit :=
  fun a =>
    if bool_decide (layer ∈ live_text_layers a)
    then Ok tt (set_text_layer_shows_date true a)
    else Crash.

Definition text_layer_destroy (layer : Z) : F unit :=
  fun a =>
    if bool_decide (layer ∈ live_text_layers a)
    then Ok tt (set_live_text_layers
                  (filter (λ q, q ≠ layer) (live_text_layers a)) a)
    else Crash.

(** ** The date line (cst.c, lines 190-215) *)

(** [sprintf(date, ...)]: the text must fit the buffer with its
    terminator. *)
Definition sprintf_date (text : string) : F unit :=
  fun a =>
    if Z.of_nat (String.length text) <? DATE_SIZE
    then Ok tt (set_date text a)
    else Crash.

Definition display_date (tick_time : tm) : F unit :=
  mf <- fgets month_first ;;
  let date1 := if mf : bool then tm_mon tick_time else tm_mday tick_time in
  mf <- fgets month_first ;;
  let date2 := if mf : bool then tm_mday tick_time else tm_mon tick_time in
  day <- (fun a =>
            match (if 0 <=? tm_wday tick_time
                   then day_text a !! Z.to_nat (tm_wday tick_time) else None) with
            | Some s => Ok s a
            | None => Crash
            end) ;;
  sprintf_date (day +:+ " " +:+ pretty date1 +:+ "/" +:+ pretty date2) ;;
  layer <- fgets text_layer ;;
  text_layer_set_text layer.

Definition handle_minute_tick (tick_time : tm) (c24 : bool) : F unit :=
  lift (display_time (tm_hour tick_time) (tm_min tick_time) c24 false) ;;
  pd <- fgets prev_day ;;
  if negb (pd =? tm_wday tick_time) then
    display_date tick_time ;;
    fmodify (set_prev_day (tm_wday tick_time))
  else fret tt.

Definition update_time (e : env) : F unit :=
  lift (display_time (tm_hour (now e)) (tm_min (now e)) (clock_is_24h_style e) true).

Definition update_date (e : env) : F unit := display_date (now e).

(** ** The power indicator (cst.c, lines 217-250) *)

Definition handle_power_level (charge_state : BatteryChargeState) : F unit :=
  sp <- fgets show_power ;;
  if sp : bool then
    let power_level :=
      if is_charging charge_state then 5
      else c_div (charge_percent charge_state - 1) 20 in
    pp <- fgets prev_power ;;
    if negb (power_level =? pp) then
      resource_id <- (if (0 <=? power_level) && (power_level <? NUMBER_OF_POWER_IMAGES)
                      then fret (POWER_IMAGE_RESOURCE_IDS power_level)
                      else crash) ;;
      image <- lift (gbitmap_create_with_resource resource_id) ;;
      fmodify (set_power_image image) ;;
      image <- fgets power_image ;;
      lift (gbitmap_bounds_size image) ;;
      layer <- fgets power_layer ;;
      (if layer =? NULL then
         layer <- lift (bitmap_layer_create 2 150) ;;
         fmodify (set_power_layer layer)
       else fret tt) ;;
      layer <- fgets power_layer ;;
      image <- fgets power_image ;;
      lift (bitmap_layer_set_bitmap layer image) ;;
      layer <- fgets power_layer ;;
      lift (layer_add_child layer) ;;
      fmodify (set_prev_power power_level)
    else fret tt
  else
    image <- fgets power_image ;;
    if negb (image =? NULL) then
      layer <- fgets power_layer ;;
      lift (layer_remove_from_parent layer) ;;
      layer <- fgets power_layer ;;
      lift (bitmap_layer_destroy layer) ;;
      fmodify (set_power_layer NULL) ;;
      image <- fgets power_image ;;
      lift (gbitmap_destroy image) ;;
      fmodify (set_power_image NULL) ;;
      fmodify (set_prev_power (-1))
    else fret tt.

(** ** The bluetooth indicator (cst.c, lines 252-293) *)

Definition hide_bluetooth : F unit :=
  layer <- fgets bluetooth_layer ;;
  lift (layer_remove_from_parent layer) ;;
  layer <- fgets bluetooth_layer ;;
  lift (bitmap_layer_destroy layer) ;;
  fmodify (set_bluetooth_layer NULL) ;;
  image <- fgets bluetooth_image ;;
  lift (gbitmap_destroy image) ;;
  fmodify (set_bluetooth_image NULL).

Definition handle_connection (is_connected : bool) : F unit :=
  sb <- fgets show_bluetooth ;;
  if sb : bool then
    pb <- fgets prev_bluetooth ;;
    if negb (eqb is_connected pb) then
      (if is_connected then
         image <- fgets bluetooth_image ;;
         if image =? NULL then
           image <- lift (gbitmap_create_with_resource RESOURCE_ID_IMAGE_BLUETOOTH) ;;
           fmodify (set_bluetooth_image image) ;;
           image <- fgets bluetooth_image ;;
           lift (gbitmap_bounds_size image) ;;
           layer <- fgets bluetooth_layer ;;
           (if layer =? NULL then
              layer <- lift (bitmap_layer_create 132 150) ;;
              fmodify (set_bluetooth_layer layer)
            else fret tt) ;;
           layer <- fgets bluetooth_layer ;;
           image <- fgets bluetooth_image ;;
           lift (bitmap_layer_set_bitmap layer image) ;;
           layer <- fgets bluetooth_layer ;;
           lift (layer_add_child layer)
         else fret tt
       else
         image <- fgets bluetooth_image ;;
         if negb (image =? NULL) then hide_bluetooth else fret tt) ;;
      fmodify (set_prev_bluetooth is_connected)
    else fret tt
  else
    image <- fgets bluetooth_image ;;
    if negb (image =? NULL) then
      hide_bluetooth ;;
      fmodify (set_prev_bluetooth false)
    else fret tt.

(** ** Settings (cst.c, lines 295-377, 390-401) *)

Definition get_tuple_bool_value (tuple : Tuple) : bool :=
  match tuple_type tuple with
  | TUPLE_CSTRING => tuple_length tuple =? 5
  | TUPLE_INT => negb (value_int32 tuple =? 0)
  | TUPLE_UINT => negb (value_uint32 tuple =? 0)
  | _ => false
  end.

Definition persist_write_bool (key : Z) (value : bool) : F unit :=
  fmodify (fun a => set_persist (<[key := PBool value]> (persist a)) a).
Definition persist_write_string (key : Z) (value : string) : F unit :=
  fmodify (fun a => set_persist (<[key := PString value]> (persist a)) a).

(** [free]; [malloc(tuple->length)]; [strcpy]: the string and its
    terminator must fit the block.  [day] is one of the constants 0..6. *)
Definition sync_day_text (tuple : Tuple) (key day : Z) (e : env) : F unit :=
  (fun a =>
     if Z.of_nat (String.length (value_cstring tuple)) <? tuple_length tuple
     then Ok tt (set_day_text (<[Z.to_nat day := value_cstring tuple]> (day_text a)) a)
     else Crash) ;;
  pd <- fgets prev_day ;;
  (if pd =? day then update_date e else fret tt) ;;
  text <- (fun a =>
             match day_text a !! Z.to_nat day with
             | Some s => Ok s a
             | None => Crash
             end) ;;
  persist_write_string key text.

Definition sync_tuple_changed_callback (key : Z) (new_tuple : Tuple) (e : env)
  : F unit :=
  if key =? ZERO_PREFIX then
    lift (modify (set_zero_prefix (get_tuple_bool_value new_tuple))) ;;
    update_time e ;;
    zp <- fgets (fun a => zero_prefix (cache a)) ;;
    persist_write_bool ZERO_PREFIX zp
  else if key =? SHOW_POWER then
    fmodify (set_show_power (get_tuple_bool_value new_tuple)) ;;
    handle_power_level (battery e) ;;
    sp <- fgets show_power ;;
    persist_write_bool SHOW_POWER sp
  else if key =? SHOW_BTOOTH then
    fmodify (set_show_bluetooth (get_tuple_bool_value new_tuple)) ;;
    handle_connection (connected e) ;;
    sb <- fgets show_bluetooth ;;
    persist_write_bool SHOW_POWER sb
  else if key =? MONTH_FIRST then
    fmodify (set_month_first (get_tuple_bool_value new_tuple)) ;;
    update_date e ;;
    mf <- fgets month_first ;;
    persist_write_bool MONTH_FIRST mf
  else if key =? SUN_TEXT then sync_day_text new_tuple SUN_TEXT 0 e
  else if key =? MON_TEXT then sync_day_text new_tuple MON_TEXT 1 e
  else if key =? TUE_TEXT then sync_day_text new_tuple TUE_TEXT 2 e
  else if key =? WED_TEXT then sync_day_text new_tuple WED_TEXT 3 e
  else if key =? THU_TEXT then sync_day_text new_tuple THU_TEXT 4 e
  else if key =? FRI_TEXT then sync_day_text new_tuple FRI_TEXT 5 e
  else if key =? SAT_TEXT then sync_day_text new_tuple SAT_TEXT 6 e
  else fret tt.

Definition persist_get_string (key : Z) (def : string) : F string :=
  store <- fgets persist ;;
  if persist_exists store key then fret (persist_read_string store key)
  else fret def.

(** ** Start and end (cst.c, lines 403-472)

    [app_init] up to the point where it hands the settings to AppSync;
    what AppSync then delivers reaches the program as calls of
    [sync_tuple_changed_callback]. *)

Definition retrieve_bool (key : Z) (def : bool) : F bool :=
  store <- fgets persist ;;
  fret (if persist_exists store key then persist_read_bool store key else def).

Definition retrieve_day (key day : Z) (def : string) : F unit :=
  text <- persist_get_string key def ;;
  fmodify (fun a => set_day_text (<[Z.to_nat day := text]> (day_text a)) a).

Definition app_init (e : env) : F unit :=
  zp <- retrieve_bool ZERO_PREFIX false ;;
  lift (modify (set_zero_prefix zp)) ;;
  sp <- retrieve_bool SHOW_POWER true ;;
  fmodify (set_show_power sp) ;;
  sb <- retrieve_bool SHOW_BTOOTH true ;;
  fmodify (set_show_bluetooth sb) ;;
  mf <- retrieve_bool MONTH_FIRST true ;;
  fmodify (set_month_first mf) ;;
  retrieve_day SUN_TEXT 0 "Su" ;;
  retrieve_day MON_TEXT 1 "Mo" ;;
  retrieve_day TUE_TEXT 2 "Tu" ;;
  retrieve_day WED_TEXT 3 "We" ;;
  retrieve_day THU_TEXT 4 "Th" ;;
  retrieve_day FRI_TEXT 5 "Fr" ;;
  retrieve_day SAT_TEXT 6 "Sa" ;;
  lift (display_time (tm_hour (now e)) (tm_min (now e)) (clock_is_24h_style e) true) ;;
  handle_power_level (battery e) ;;
  handle_connection (connected e) ;;
  layer <- text_layer_create ;;
  fmodify (set_text_layer layer) ;;
  display_date (now e) ;;
  fmodify (set_prev_day (tm_wday (now e))).

(** The slot loop, then the text layer.  Window, subscriptions and the
    day names' memory are not part of the state. *)
Definition app_destroy : F unit :=
  lift app_destroy ;;
  layer <- fgets text_layer ;;
  text_layer_destroy layer.

(** ** The watch face as it runs *)

Inductive event : Type :=
| Tick (tick_time : tm) (c24 : bool)
| Battery (charge_state : BatteryChargeState)
| Connection (is_connected : bool)
| Sync (key : Z) (new_tuple : Tuple) (e : env).

Definition handle (ev : event) : F unit :=
  match ev with
  | Tick t c24 => handle_minute_tick t c24
  | Battery c => handle_power_level c
  | Connection b => handle_connection b
  | Sync key t e => sync_tuple_changed_callback key t e
  end.

Fixpoint handle_all (evs : list event) : F unit :=
  match evs with
  | [] => fret tt
  | ev :: evs' => handle ev ;; handle_all evs'
  end.

(** The state after the whole of a run: [app_init], then the events. *)
Definition run (e : env) (evs : list event) : F unit :=
  app_init e ;; handle_all evs.

(** ** The indicators, step by step

    What showing and hiding an indicator does to the heap and to the log:
    a new bitmap [p], with a new layer [p + 1] at [(x, y)] or on the layer
    there is; and the layer and bitmap of an indicator gone. *)

Definition shown_on_new_layer (resource_id x y : Z) (st : state) : state :=
  let p := next_ptr st in
  {| image_slot_state := image_slot_state st;
     images := images st;
     image_layers := image_layers st;
     zero_prefix := zero_prefix st;
     live_bitmaps := p :: live_bitmaps st;
     live_layers := (p + 1) :: live_layers st;
     next_ptr := p + 2;
     sdk_log := sdk_log st
                ++ [CallGBitmapCreate resource_id p;
                    CallBitmapLayerCreate x y (p + 1);
                    CallBitmapLayerSetBitmap (p + 1) p;
                    CallLayerAddChild (p + 1)] |}.

Definition shown_on_layer (resource_id layer : Z) (st : state) : state :=
  let p := next_ptr st in
  {| image_slot_state := image_slot_state st;
     images := images st;
     image_layers := image_layers st;
     zero_prefix := zero_prefix st;
     live_bitmaps := p :: live_bitmaps st;
     live_layers := live_layers st;
     next_ptr := p + 1;
     sdk_log := sdk_log st
                ++ [CallGBitmapCreate resource_id p;
                    CallBitmapLayerSetBitmap layer p;
                    CallLayerAddChild layer] |}.

Definition hidden (layer image : Z) (st : state) : state :=
  {| image_slot_state := image_slot_state st;
     images := images st;
     image_layers := image_layers st;
     zero_prefix := zero_prefix st;
     live_bitmaps := filter (λ q, q ≠ image) (live_bitmaps st);
     live_layers := filter (λ q, q ≠ layer) (live_layers st);
     next_ptr := next_ptr st;
     sdk_log := sdk_log st ++ unload_calls layer image |}.

Definition bluetooth_shown (a : face) : face :=
  let p := next_ptr (cache a) in
  set_prev_bluetooth true
    (set_bluetooth_layer (p + 1)
       (set_bluetooth_image p
          (set_cache (shown_on_new_layer RESOURCE_ID_IMAGE_BLUETOOTH 132 150 (cache a)) a))).

Definition bluetooth_hidden (a : face) : face :=
  set_prev_bluetooth false
    (set_bluetooth_image NULL
       (set_bluetooth_layer NULL
          (set_cache (hidden (bluetooth_layer a) (bluetooth_image a) (cache a)) a))).

(** What [handle_connection] leaves. *)
Definition connection_handled (is_connected : bool) (a : face) : face :=
  if show_bluetooth a then
    if eqb is_connected (prev_bluetooth a) then a
    else if is_connected then bluetooth_shown a else bluetooth_hidden a
  else if bluetooth_image a =? NULL then a else bluetooth_hidden a.

Definition power_level_of (charge_state : BatteryChargeState) : Z :=
  if is_charging charge_state then 5
  else c_div (charge_percent charge_state - 1) 20.

Definition power_shown (level : Z) (a : face) : face :=
  let p := next_ptr (cache a) in
  if power_layer a =? NULL then
    set_prev_power level
      (set_power_layer (p + 1)
         (set_power_image p
            (set_cache (shown_on_new_layer (POWER_IMAGE_RESOURCE_IDS level) 2 150 (cache a)) a)))
  else
    set_prev_power level
      (set_power_image p
         (set_cache (shown_on_layer (POWER_IMAGE_RESOURCE_IDS level) (power_layer a) (cache a)) a)).

Definition power_hidden (a : face) : face :=
  set_prev_power (-1)
    (set_power_image NULL
       (set_power_layer NULL
          (set_cache (hidden (power_layer a) (power_image a) (cache a)) a))).

(** What [handle_power_level] leaves. *)
Definition power_handled (charge_state : BatteryChargeState) (a : face) : face :=
  if show_power a then
    if power_level_of charge_state =? prev_power a then a
    else power_shown (power_level_of charge_state) a
  else if power_image a =? NULL then a else power_hidden a.

(** The text [display_date] prints, and the state it leaves. *)
Definition date_text (tick_time : tm) (a : face) : string :=
  default "" (day_text a !! Z.to_nat (tm_wday tick_time))
  +:+ " "
  +:+ pretty (if month_first a then tm_mon tick_time else tm_mday tick_time)
  +:+ "/"
  +:+ pretty (if month_first a then tm_mday tick_time else tm_mon tick_time).

Definition date_displayed (tick_time : tm) (a : face) : face :=
  set_text_layer_shows_date true (set_date (date_text tick_time a) a).

(** What [handle_minute_tick] leaves, given the cache that [display_time]
    leaves: the date line is printed anew when the day of the week is
    not the one last printed. *)
Definition tick_handled (tick_time : tm) (st : state) (a : face) : face :=
  if prev_day a =? tm_wday tick_time then set_cache st a
  else set_prev_day (tm_wday tick_time)
         (date_displayed tick_time (set_cache st a)).

(** The settings as [app_init] finds them in the store. *)
Definition retrieved_bool (store : gmap Z persisted) (key : Z) (def : bool) : bool :=
  if persist_exists store key then persist_read_bool store key else def.
Definition retrieved_string (store : gmap Z persisted) (key : Z) (def : string)
  : string :=
  if persist_exists store key then persist_read_string store key else def.
Definition retrieved_days (store : gmap Z persisted) : list string :=
  [retrieved_string store SUN_TEXT "Su";
   retrieved_string store MON_TEXT "Mo";
   retrieved_string store TUE_TEXT "Tu";
   retrieved_string store WED_TEXT "We";
   retrieved_string store THU_TEXT "Th";
   retrieved_string store FRI_TEXT "Fr";
   retrieved_string store SAT_TEXT "Sa"].

(** The state once [app_init] has read the settings. *)
Definition settings_retrieved (store : gmap Z persisted) : face :=
  set_day_text (retrieved_days store)
    (set_month_first (retrieved_bool store MONTH_FIRST true)
       (set_show_bluetooth (retrieved_bool store SHOW_BTOOTH true)
          (set_show_power (retrieved_bool store SHOW_POWER true)
             (set_cache
                (set_zero_prefix (retrieved_bool store ZERO_PREFIX false)
                                 initial_state)
                (initial_face store))))).

(** What [text_layer_create] and the assignment of its result leave. *)
Definition text_layer_created (a : face) : face :=
  let p := next_ptr (cache a) in
  set_text_layer p
    (set_live_text_layers (p :: live_text_layers a)
       (set_cache (set_next_ptr (p + 1) (cache a)) a)).

(** What [sync_tuple_changed_callback] leaves in the store. *)
Definition saved (key : Z) (new_tuple : Tuple) (store : gmap Z persisted)
  : gmap Z persisted :=
  if key =? ZERO_PREFIX then
    <[ZERO_PREFIX := PBool (get_tuple_bool_value new_tuple)]> store
  else if (key =? SHOW_POWER) || (key =? SHOW_BTOOTH) then
    <[SHOW_POWER := PBool (get_tuple_bool_value new_tuple)]> store
  else if key =? MONTH_FIRST then
    <[MONTH_FIRST := PBool (get_tuple_bool_value new_tuple)]> store
  else if (SUN_TEXT <=? key) && (key <=? SAT_TEXT) then
    <[key := PString (value_cstring new_tuple)]> store
  else store.

(** The store after an event, and after a list of events. *)
Definition saved_by (ev : event) (store : gmap Z persisted) : gmap Z persisted :=
  match ev with
  | Sync key new_tuple _ => saved key new_tuple store
  | _ => store
  end.
Definition saved_by_all (evs : list event) (store : gmap Z persisted)
  : gmap Z persisted :=
  foldl (λ s ev, saved_by ev s) store evs.

(** The state a run leaves. *)
Definition face_after (store : gmap Z persisted) (e : env) (evs : list event)
  : face :=
  match run e evs (initial_face store) with
  | Ok _ a => a
  | Crash => initial_face store
  end.

(** ** What the environment may be trusted with *)

Definition tm_ok (t : tm) : Prop :=
  0 ≤ tm_wday t ≤ 6 ∧ 0 ≤ tm_mon t ≤ 11 ∧ 1 ≤ tm_mday t ≤ 31.

Definition battery_ok (c : BatteryChargeState) : Prop :=
  0 ≤ charge_percent c ≤ 100.

Definition env_ok (e : env) : Prop := tm_ok (now e) ∧ battery_ok (battery e).

(** A day name sent by the phone: a string that fits its tuple, of at
    most nine characters. *)
Definition tuple_ok (key : Z) (t : Tuple) : Prop :=
  SUN_TEXT ≤ key ≤ SAT_TEXT →
  Z.of_nat (String.length (value_cstring t)) < tuple_length t
  ∧ (String.length (value_cstring t) ≤ 9)%nat.

Definition event_ok (ev : event) : Prop :=
  match ev with
  | Tick t _ => tm_ok t
  | Battery c => battery_ok c
  | Connection _ => True
  | Sync key t e => env_ok e ∧ tuple_ok key t
  end.

(** The day names in the store have at most nine characters. *)
Definition store_short (store : gmap Z persisted) : Prop :=
  ∀ key s, store !! key = Some (PString s) → (String.length s ≤ 9)%nat.

(** ** The invariant of the whole state *)

(** The pointers of the occupied slots. *)
Definition occ (states arr : list Z) : list Z :=
  omap (λ sp : Z * Z, if decide (sp.1 = EMPTY_SLOT) then None else Some sp.2)
       (zip states arr).

Definition some_ptr (p : Z) : list Z := if decide (p = NULL) then [] else [p].

(** The bitmaps and layers the program still points to. *)
Definition owned_bitmaps (a : face) : list Z :=
  occ (image_slot_state (cache a)) (images (cache a))
  ++ some_ptr (bluetooth_image a) ++ some_ptr (power_image a).
Definition owned_layers (a : face) : list Z :=
  occ (image_slot_state (cache a)) (image_layers (cache a))
  ++ some_ptr (bluetooth_layer a) ++ some_ptr (power_layer a).

Record face_inv (a : face) : Prop := {
  fi_len_state : length (image_slot_state (cache a)) = 4%nat;
  fi_len_images : length (images (cache a)) = 4%nat;
  fi_len_layers : length (image_layers (cache a)) = 4%nat;
  fi_len_days : length (day_text a) = 7%nat;
  fi_days : ∀ s, s ∈ day_text a → (String.length s ≤ 9)%nat;
  fi_next : 0 < next_ptr (cache a);
  fi_live_b : ∀ p, p ∈ live_bitmaps (cache a) → 0 < p < next_ptr (cache a);
  fi_live_l : ∀ p, p ∈ live_layers (cache a) → 0 < p < next_ptr (cache a);
  fi_live_t : ∀ p, p ∈ live_text_layers a → 0 < p < next_ptr (cache a);
  fi_owned_b : NoDup (owned_bitmaps a);
  fi_owned_b_live : ∀ p, p ∈ owned_bitmaps a → p ∈ live_bitmaps (cache a);
  fi_owned_l : NoDup (owned_layers a);
  fi_owned_l_live : ∀ p, p ∈ owned_layers a → p ∈ live_layers (cache a);
  fi_bt_pair : bluetooth_image a = NULL ↔ bluetooth_layer a = NULL;
  fi_bt_prev : bluetooth_image a ≠ NULL ↔ prev_bluetooth a = true;
  fi_pw_pair : power_image a = NULL ↔ power_layer a = NULL;
  fi_pw_prev : power_image a ≠ NULL ↔ prev_power a ≠ -1
}.

(** The invariant once [app_init] is through: the text layer exists, and
    slot 0 shows no zero that should be blank. *)
Definition face_ok (a : face) : Prop :=
  face_inv a
  ∧ no_leading_zero (cache a)
  ∧ text_layer a ∈ live_text_layers a.

(** ** The state apart from the day names

    The bitmaps, the layers and the slots do not depend on the day names;
    a handler that neither reads nor writes them runs the same whatever
    they are. *)

Definition on_face {A} (f : face → face) (r : result A) : result A :=
  match r with
  | Ok x a => Ok x (f a)
  | Crash => Crash
  end.

Definition ignores_day_text {A} (m : F A) : Prop :=
  ∀ days a, m (set_day_text days a) = on_face (set_day_text days) (m a).

Definition without_day_names (a : face) : face :=
  set_day_text (replicate 7 EmptyString) a.

(** The invariant of the whole state, but for the length of the day
    names: it holds after every run that returns, whatever the phone and
    the store hold. *)
Definition heap_inv (a : face) : Prop := face_inv (without_day_names a).

End Face.

(** ** A build and two days, for concrete runs *)

(** Power level [l] is resource [200 + l], the bluetooth icon resource
    300. *)
Definition icons : Resources :=
  {| POWER_IMAGE_RESOURCE_IDS := fun level => 200 + level;
     RESOURCE_ID_IMAGE_BLUETOOTH := 300 |}.

(** Monday 3 January, 14:05, twelve-hour clock, battery at 80 percent,
    phone connected; and Tuesday 4 January, 9:30, battery at 35 percent,
    phone away. *)
Definition monday_afternoon : env :=
  {| now := {| tm_min := 5; tm_hour := 14; tm_mday := 3; tm_mon := 0; tm_wday := 1 |};
     clock_is_24h_style := false;
     battery := {| charge_percent := 80; is_charging := false |};
     connected := true |}.
Definition tuesday_morning : env :=
  {| now := {| tm_min := 30; tm_hour := 9; tm_mday := 4; tm_mon := 0; tm_wday := 2 |};
     clock_is_24h_style := false;
     battery := {| charge_percent := 35; is_charging := false |};
     connected := false |}.

(** Tuples as the phone sends them: a flag as an unsigned integer of one
    byte, a day name as a C string with its terminator counted. *)
Definition flag_off : Tuple :=
  {| tuple_type := TUPLE_UINT; tuple_length := 1;
     value_cstring := EmptyString; value_int32 := 0; value_uint32 := 0 |}.
Definition flag_on : Tuple :=
  {| tuple_type := TUPLE_UINT; tuple_length := 1;
     value_cstring := String (Ascii.ascii_of_nat 1) EmptyString;
     value_int32 := 1; value_uint32 := 1 |}.
Definition sunday_name : Tuple :=
  {| tuple_type := TUPLE_CSTRING; tuple_length := 7;
     value_cstring := "Sunday"; value_int32 := 1684960595;
     value_uint32 := 1684960595 |}.
Definition long_name : Tuple :=
  {| tuple_type := TUPLE_CSTRING; tuple_length := 14;
     value_cstring := "Mittwochabend"; value_int32 := 1953786189;
     value_uint32 := 1953786189 |}.

(** A tick, a battery report, the phone going away, the bluetooth
    indicator switched off, a new name for Sunday, and the tick of
    midnight. *)
Definition a_day : list event :=
  [Tick {| tm_min := 6; tm_hour := 14; tm_mday := 3; tm_mon := 0; tm_wday := 1 |} false;
   Battery {| charge_percent := 50; is_charging := false |};
   Connection false;
   Sync SHOW_BTOOTH flag_off monday_afternoon;
   Sync SUN_TEXT sunday_name monday_afternoon;
   Tick {| tm_min := 0; tm_hour := 0; tm_mday := 4; tm_mon := 0; tm_wday := 2 |} false].

(** The state that day leaves, started on an empty store. *)
Definition after_a_day : face :=
  @face_after store_ok icons ∅ monday_afternoon a_day.

(** A Monday on which the phone sends a name of thirteen characters for
    Wednesday and switches the leading zero on, and the first tick of
    Tuesday. *)
Definition a_long_name : list event :=
  [Sync WED_TEXT long_name monday_afternoon;
   Sync ZERO_PREFIX flag_on monday_afternoon;
   Tick (now tuesday_morning) false].
Definition after_a_long_name : face :=
  @face_after store_ok icons ∅ monday_afternoon a_long_name.

End Face.

(** * Proofs *)

(** Arithmetic goals over the C operators: bounds of [%] and [/]. *)
Ltac c_arith :=
  unfold to_ushort, c_mod, c_div, TOTAL_IMAGE_SLOTS, EMPTY_SLOT, NULL in *;
  Z.to_euclidean_division_equations; lia.

(** ** Lists of pointers *)

Lemma filter_out_perm (live : list Z) (p : Z) :
  NoDup live → p ∈ live → live ≡ₚ p :: filter (λ q, q ≠ p) live.
Proof.
  intros Hnd Hp. apply NoDup_Permutation; [done | | ].
  - constructor; [ | by apply NoDup_filter].
    rewrite list_elem_of_filter. naive_solver.
  - intros x. rewrite elem_of_cons, list_elem_of_filter.
    destruct (decide (x = p)); naive_solver.
Qed.

Lemma occupied_insert_ne (states : list Z) (k i : nat) (v : Z) :
  i ≠ k → occupied (<[k:=v]> states) i ↔ occupied states i.
Proof.
  intros Hne. unfold occupied. by rewrite list_lookup_insert_ne.
Qed.

Lemma occupied_insert_empty (states : list Z) (k i : nat) :
  occupied (<[k:=EMPTY_SLOT]> states) i → i ≠ k ∧ occupied states i.
Proof.
  intros Hocc. destruct (decide (i = k)) as [-> | Hne].
  - destruct Hocc as (s & Hs & Hne). exfalso.
    destruct (decide (k < length states)%nat) as [Hlt | Hge].
    + rewrite list_lookup_insert_eq in Hs by done. congruence.
    + rewrite list_insert_ge in Hs by lia.
      apply lookup_lt_Some in Hs. lia.
  - split; [done | by apply occupied_insert_ne in Hocc].
Qed.

(** ** Ownership and the books under a load and an unload *)

Lemma owns_load (states arr live : list Z) (k : nat) (d p : Z) :
  owns states arr live →
  states !! k = Some EMPTY_SLOT →
  d ≠ EMPTY_SLOT →
  (∀ q, q ∈ arr → q ≠ p) →
  p ∉ live →
  (k < length arr)%nat →
  owns (<[k:=d]> states) (<[k:=p]> arr) (p :: live).
Proof.
  intros [Hlive Hapart Hall] Hk Hd Hfresh Hp Hlen.
  assert (k < length states)%nat as Hlen' by (by eapply lookup_lt_Some).
  split.
  - intros i s q Hs Hq. destruct (decide (i = k)) as [-> | Hne].
    + rewrite list_lookup_insert_eq in Hs, Hq by done.
      simplify_eq. split; [intros _; left | done].
    + rewrite list_lookup_insert_ne in Hs, Hq by done.
      rewrite elem_of_cons, (Hlive i s q Hs Hq).
      assert (q ≠ p) by (eapply Hfresh, list_elem_of_lookup_2; done).
      naive_solver.
  - intros i j q Hij Hi Hj Hq Hq'.
    destruct (decide (i = k)) as [-> | Hik]; [ | destruct (decide (j = k)) as [-> | Hjk]].
    + rewrite list_lookup_insert_eq in Hq by done.
      rewrite list_lookup_insert_ne in Hq' by done. simplify_eq.
      by eapply Hfresh; [eapply list_elem_of_lookup_2 | ].
    + rewrite list_lookup_insert_eq in Hq' by done.
      rewrite list_lookup_insert_ne in Hq by done. simplify_eq.
      by eapply Hfresh; [eapply list_elem_of_lookup_2 | ].
    + rewrite list_lookup_insert_ne in Hq, Hq' by done.
      apply occupied_insert_ne in Hi, Hj; try done.
      by eapply (Hapart i j q).
  - intros q [-> | Hq]%elem_of_cons.
    + exists k. split; [ | by rewrite list_lookup_insert_eq].
      exists d. by rewrite list_lookup_insert_eq.
    + destruct (Hall q Hq) as (i & (s & Hs & Hne) & Hi).
      assert (i ≠ k) by (intros ->; congruence).
      exists i. split; [ | by rewrite list_lookup_insert_ne].
      exists s. by rewrite list_lookup_insert_ne.
Qed.

Lemma owns_unload (states arr live : list Z) (k : nat) (s p : Z) :
  owns states arr live →
  states !! k = Some s → s ≠ EMPTY_SLOT →
  arr !! k = Some p →
  owns (<[k:=EMPTY_SLOT]> states) arr (filter (λ q, q ≠ p) live).
Proof.
  intros [Hlive Hapart Hall] Hk Hs Hp.
  assert (k < length states)%nat as Hlen by (by eapply lookup_lt_Some).
  assert (occupied states k) as Hocc by (by exists s).
  split.
  - intros i s' q Hs' Hq. rewrite list_elem_of_filter.
    destruct (decide (i = k)) as [-> | Hne].
    + rewrite list_lookup_insert_eq in Hs' by done. simplify_eq. naive_solver.
    + rewrite list_lookup_insert_ne in Hs' by done.
      rewrite <- (Hlive i s' q Hs' Hq). split; [ | naive_solver].
      intros Hs''. split; [ | done]. intros ->.
      by eapply (Hapart i k p); [ | exists s' | | | ].
  - intros i j q Hij [Hik Hi]%occupied_insert_empty [Hjk Hj]%occupied_insert_empty.
    by apply Hapart.
  - intros q [Hqp Hq]%list_elem_of_filter.
    destruct (Hall q Hq) as (i & (s' & Hs' & Hne) & Hi).
    assert (i ≠ k) by (intros ->; congruence).
    exists i. split; [ | done]. exists s'. by rewrite list_lookup_insert_ne.
Qed.

Lemma accounted_live (acq rel live : list Z) (next p : Z) :
  accounted acq rel live next → p ∈ live → 0 < p < next.
Proof.
  intros [Hperm _ Hbound] Hp. apply Hbound. rewrite Hperm. apply elem_of_app. by right.
Qed.

Lemma accounted_live_nodup (acq rel live : list Z) (next : Z) :
  accounted acq rel live next → NoDup live.
Proof.
  intros [Hperm Hnd _]. rewrite Hperm in Hnd. by apply NoDup_app in Hnd as (_ & _ & ?).
Qed.

Lemma accounted_acquire (acq rel live : list Z) (next next' p : Z) :
  accounted acq rel live next →
  0 < next → next ≤ p < next' →
  accounted (acq ++ [p]) rel (p :: live) next'.
Proof.
  intros [Hperm Hnd Hbound] Hnext Hp. split.
  - rewrite Hperm, <- app_assoc. apply Permutation_app_head.
    symmetry. apply Permutation_cons_append.
  - apply NoDup_app. split_and!; [done | | apply NoDup_singleton].
    intros x Hx%Hbound ->%list_elem_of_singleton. lia.
  - intros x [Hx%Hbound | ->%list_elem_of_singleton]%elem_of_app; lia.
Qed.

Lemma accounted_release (acq rel live : list Z) (next p : Z) :
  accounted acq rel live next →
  p ∈ live →
  accounted acq (rel ++ [p]) (filter (λ q, q ≠ p) live) next.
Proof.
  intros Hacc Hp. pose proof (accounted_live_nodup _ _ _ _ Hacc) as Hnd.
  destruct Hacc as [Hperm Hnd' Hbound]. split; [ | done | done].
  rewrite Hperm, <- app_assoc. apply Permutation_app_head. simpl.
  by apply filter_out_perm.
Qed.

Lemma accounted_later (acq rel live : list Z) (next next' : Z) :
  accounted acq rel live next → next ≤ next' → accounted acq rel live next'.
Proof.
  intros [Hperm Hnd Hbound] Hle. split; [done | done | ].
  intros p Hp%Hbound. lia.
Qed.

(** ** The monad *)

Lemma bind_Done {A B} (m : M A) (k : A → M B) (st st' : state) (a : A) :
  m st = Done a st' → bind m k st = k a st'.
Proof. intros Hm. unfold bind. by rewrite Hm. Qed.

Lemma bind_Fault {A B} (m : M A) (k : A → M B) (st : state) :
  m st = Fault → bind m k st = Fault.
Proof. intros Hm. unfold bind. by rewrite Hm. Qed.

Lemma bind_ext {A B} (m : M A) (k k' : A → M B) (st : state) :
  (∀ a st', k a st' = k' a st') → bind m k st = bind m k' st.
Proof. intros Hk. unfold bind. by destruct (m st). Qed.

Lemma bind_inv {A B} (m : M A) (k : A → M B) (st st' : state) (b : B) :
  bind m k st = Done b st' → ∃ a st1, m st = Done a st1 ∧ k a st1 = Done b st'.
Proof. unfold bind. destruct (m st) as [a st1 | ]; [eauto | done]. Qed.

Lemma preserves_ret {A} (P : state → Prop) (a : A) : preserves P (ret a).
Proof. intros st a' st' HP [= _ <-]. done. Qed.

Lemma preserves_bind {A B} (P : state → Prop) (m : M A) (k : A → M B) :
  preserves P m → (∀ a, preserves P (k a)) → preserves P (bind m k).
Proof.
  intros Hm Hk st b st' HP (a & st1 & H1 & H2)%bind_inv.
  eapply Hk; [ | done]. by eapply Hm.
Qed.

Lemma preserves_gets {A} (P : state → Prop) (f : state → A) : preserves P (gets f).
Proof. intros st a st' HP [= _ <-]. done. Qed.

Lemma preserves_array_get (P : state → Prop) (arr : state → list Z) (i : Z) :
  preserves P (array_get arr i).
Proof.
  intros st a st' HP. unfold array_get.
  destruct (if 0 <=? i then arr st !! Z.to_nat i else None); [ | done].
  by intros [= _ <-].
Qed.

Lemma array_get_Done (arr : state → list Z) (i v : Z) (st : state) :
  0 ≤ i → arr st !! Z.to_nat i = Some v → array_get arr i st = Done v st.
Proof.
  intros Hi Hv. unfold array_get.
  destruct (Z.leb_spec 0 i); [ | lia]. by rewrite Hv.
Qed.

Lemma array_set_Done (arr : state → list Z) (upd : list Z → state → state)
      (i v : Z) (st : state) :
  0 ≤ i → (Z.to_nat i < length (arr st))%nat →
  array_set arr upd i v st = Done tt (upd (<[Z.to_nat i := v]> (arr st)) st).
Proof.
  intros Hi Hlen. unfold array_set.
  destruct (Z.leb_spec 0 i); [ | lia].
  destruct (Z.ltb_spec i (Z.of_nat (length (arr st)))); [done | lia].
Qed.

Section CacheProofs.
Context `{Pebble}.

(** ** What a load and an unload do *)

Lemma load_invalid (slot digit : Z) (st : state) :
  ¬ (0 ≤ slot < TOTAL_IMAGE_SLOTS ∧ 0 ≤ digit ≤ 9) →
  load_digit_image_into_slot slot digit st = Done tt st.
Proof.
  intros Hbad. unfold load_digit_image_into_slot, TOTAL_IMAGE_SLOTS in *.
  destruct (Z.leb_spec 0 slot), (Z.ltb_spec slot 4),
    (Z.leb_spec 0 digit), (Z.leb_spec digit 9); simpl; try done.
  lia.
Qed.

Lemma load_occupied (slot digit s : Z) (st : state) :
  image_slot_state st !! Z.to_nat slot = Some s → s ≠ EMPTY_SLOT →
  load_digit_image_into_slot slot digit st = Done tt st.
Proof.
  intros Hs Hne. unfold load_digit_image_into_slot.
  destruct (Z.leb_spec 0 slot); simpl; [ | done].
  destruct (_ <? _); [ | done].
  destruct (_ && _); [ | done].
  erewrite bind_Done by (by apply array_get_Done).
  destruct (Z.eqb_spec s EMPTY_SLOT); done.
Qed.

Lemma load_empty_ok (slot digit : Z) (st : state) :
  0 ≤ slot < TOTAL_IMAGE_SLOTS → 0 ≤ digit ≤ 9 →
  image_slot_state st !! Z.to_nat slot = Some EMPTY_SLOT →
  (Z.to_nat slot < length (images st))%nat →
  (Z.to_nat slot < length (image_layers st))%nat →
  gbitmap_available (sdk_log st) (IMAGE_RESOURCE_IDS digit) = true →
  load_digit_image_into_slot slot digit st = Done tt (loaded slot digit st).
Proof.
  intros Hslot Hdigit Hs Hli Hll Hav.
  assert (Z.to_nat slot < length (image_slot_state st))%nat as Hls
    by (by eapply lookup_lt_Some).
  unfold load_digit_image_into_slot, TOTAL_IMAGE_SLOTS in *.
  destruct (Z.leb_spec 0 slot); [ | lia].
  destruct (Z.ltb_spec slot 4); [ | lia].
  destruct (Z.leb_spec 0 digit); [ | lia].
  destruct (Z.leb_spec digit 9); [ | lia]. simpl.
  erewrite bind_Done by (by apply array_get_Done).
  rewrite Z.eqb_refl.
  unfold bind at 1, gbitmap_create_with_resource. rewrite Hav.
  erewrite bind_Done by (by apply array_set_Done).
  erewrite bind_Done
    by (apply array_get_Done; [done | by apply list_lookup_insert_eq]).
  unfold bind at 1, gbitmap_bounds_size. simpl.
  rewrite bool_decide_eq_true_2 by left.
  unfold bind at 1, bitmap_layer_create. simpl.
  erewrite bind_Done by (by apply array_set_Done).
  erewrite bind_Done
    by (apply array_get_Done; [done | by apply list_lookup_insert_eq]).
  erewrite bind_Done
    by (apply array_get_Done; [done | by apply list_lookup_insert_eq]).
  unfold bind at 1, bitmap_layer_set_bitmap. simpl.
  rewrite !bool_decide_eq_true_2 by left. simpl.
  erewrite bind_Done
    by (apply array_get_Done; [done | by apply list_lookup_insert_eq]).
  unfold bind at 1, layer_add_child. simpl.
  rewrite !bool_decide_eq_true_2 by left.
  rewrite array_set_Done by done.
  unfold loaded, load_calls, set_image_slot_state, log_call; simpl.
  rewrite <- !app_assoc. simpl. do 2 f_equal. lia.
Qed.

Lemma load_empty_fail (slot digit : Z) (st : state) :
  0 ≤ slot < TOTAL_IMAGE_SLOTS → 0 ≤ digit ≤ 9 →
  image_slot_state st !! Z.to_nat slot = Some EMPTY_SLOT →
  (Z.to_nat slot < length (images st))%nat →
  NULL ∉ live_bitmaps st →
  gbitmap_available (sdk_log st) (IMAGE_RESOURCE_IDS digit) = false →
  load_digit_image_into_slot slot digit st = Fault.
Proof.
  intros Hslot Hdigit Hs Hli Hnull Hav.
  unfold load_digit_image_into_slot, TOTAL_IMAGE_SLOTS in *.
  destruct (Z.leb_spec 0 slot); [ | lia].
  destruct (Z.ltb_spec slot 4); [ | lia].
  destruct (Z.leb_spec 0 digit); [ | lia].
  destruct (Z.leb_spec digit 9); [ | lia]. simpl.
  erewrite bind_Done by (by apply array_get_Done).
  rewrite Z.eqb_refl.
  unfold bind at 1, gbitmap_create_with_resource. rewrite Hav.
  erewrite bind_Done by (by apply array_set_Done).
  erewrite bind_Done
    by (apply array_get_Done; [done | by apply list_lookup_insert_eq]).
  apply bind_Fault. unfold gbitmap_bounds_size. simpl.
  by rewrite bool_decide_eq_false_2.
Qed.

Lemma unload_empty (slot : Z) (st : state) :
  0 ≤ slot → image_slot_state st !! Z.to_nat slot = Some EMPTY_SLOT →
  unload_digit_image_from_slot slot st = Done tt st.
Proof.
  intros Hslot Hs. unfold unload_digit_image_from_slot.
  erewrite bind_Done by (by apply array_get_Done). done.
Qed.

Lemma unload_occupied (slot s l b : Z) (st : state) :
  0 ≤ slot →
  image_slot_state st !! Z.to_nat slot = Some s → s ≠ EMPTY_SLOT →
  image_layers st !! Z.to_nat slot = Some l → l ∈ live_layers st →
  images st !! Z.to_nat slot = Some b → b ∈ live_bitmaps st →
  unload_digit_image_from_slot slot st = Done tt (unloaded slot l b st).
Proof.
  intros Hslot Hs Hne Hl Hlive Hb Hbive.
  assert (Z.to_nat slot < length (image_slot_state st))%nat as Hls
    by (by eapply lookup_lt_Some).
  unfold unload_digit_image_from_slot.
  erewrite bind_Done by (by apply array_get_Done).
  destruct (Z.eqb_spec s EMPTY_SLOT); [done | ]. simpl.
  erewrite bind_Done by (by apply array_get_Done).
  unfold bind at 1, layer_remove_from_parent.
  rewrite bool_decide_eq_true_2 by done.
  erewrite bind_Done by (by apply array_get_Done).
  unfold bind at 1, bitmap_layer_destroy. simpl.
  rewrite bool_decide_eq_true_2 by done.
  erewrite bind_Done by (by apply array_get_Done).
  unfold bind at 1, gbitmap_destroy. simpl.
  rewrite bool_decide_eq_true_2 by done.
  rewrite array_set_Done by done.
  unfold unloaded, unload_calls, set_image_slot_state, log_call; simpl.
  by rewrite <- !app_assoc.
Qed.

Lemma unload_out_of_bounds (slot : Z) (st : state) :
  slot_digit st slot = None → unload_digit_image_from_slot slot st = Fault.
Proof.
  intros Hs. apply bind_Fault. unfold array_get. unfold slot_digit in Hs.
  by rewrite Hs.
Qed.

(** ** The invariant holds initially and is kept *)

Lemma owns_nothing (n : nat) (arr : list Z) :
  owns (replicate n EMPTY_SLOT) arr [].
Proof.
  split.
  - intros i s p [-> _]%lookup_replicate _. split; [done | ].
    by intros ?%elem_of_nil.
  - intros i j p _ (s & [-> _]%lookup_replicate & Hne). done.
  - by intros p ?%elem_of_nil.
Qed.

Lemma accounted_nothing (next : Z) : accounted [] [] [] next.
Proof.
  split; [done | apply NoDup_nil_2 | ]. by intros p ?%elem_of_nil.
Qed.

Lemma cache_inv_initial : cache_inv initial_state.
Proof.
  split; simpl; try done.
  - intros p [-> _]%(elem_of_replicate 4). done.
  - intros p [-> _]%(elem_of_replicate 4). done.
  - apply (owns_nothing 4).
  - apply (owns_nothing 4).
  - apply accounted_nothing.
  - apply accounted_nothing.
Qed.

Lemma elem_of_insert_inv (l : list Z) (k : nat) (x y : Z) :
  y ∈ <[k:=x]> l → y = x ∨ y ∈ l.
Proof.
  intros (i & [(_ & -> & _) | (_ & Hy)]%list_lookup_insert_Some)%list_elem_of_lookup_1.
  - by left.
  - right. by eapply list_elem_of_lookup_2.
Qed.

Lemma log_after_load (slot digit p : Z) (log : list sdk_call) :
  p ≠ NULL →
  acquired_bitmaps (log ++ load_calls slot digit p) = acquired_bitmaps log ++ [p]
  ∧ released_bitmaps (log ++ load_calls slot digit p) = released_bitmaps log
  ∧ acquired_layers (log ++ load_calls slot digit p) = acquired_layers log ++ [p + 1]
  ∧ released_layers (log ++ load_calls slot digit p) = released_layers log.
Proof.
  intros Hp. unfold acquired_bitmaps, released_bitmaps, acquired_layers,
    released_layers. rewrite !omap_app. simpl.
  destruct (Z.eqb_spec p NULL); [done | ]. by rewrite !app_nil_r.
Qed.

Lemma log_after_unload (l b : Z) (log : list sdk_call) :
  acquired_bitmaps (log ++ unload_calls l b) = acquired_bitmaps log
  ∧ released_bitmaps (log ++ unload_calls l b) = released_bitmaps log ++ [b]
  ∧ acquired_layers (log ++ unload_calls l b) = acquired_layers log
  ∧ released_layers (log ++ unload_calls l b) = released_layers log ++ [l].
Proof.
  unfold acquired_bitmaps, released_bitmaps, acquired_layers,
    released_layers. rewrite !omap_app. simpl. by rewrite !app_nil_r.
Qed.

Lemma cache_inv_loaded (slot digit : Z) (st : state) :
  cache_inv st →
  image_slot_state st !! Z.to_nat slot = Some EMPTY_SLOT →
  digit ≠ EMPTY_SLOT →
  cache_inv (loaded slot digit st).
Proof.
  intros [Hls Hli Hll Hnext Hio Hlo Hob Hol Hbb Hlb] Hs Hd.
  assert (Z.to_nat slot < 4)%nat as Hk
    by (rewrite <- Hls; by eapply lookup_lt_Some).
  assert (next_ptr st ≠ NULL) as Hnn by (unfold NULL; lia).
  destruct (log_after_load slot digit (next_ptr st) (sdk_log st) Hnn)
    as (Hab & Hrb & Hal & Hrl).
  split; simpl.
  - by rewrite length_insert.
  - by rewrite length_insert.
  - by rewrite length_insert.
  - lia.
  - intros p [-> | Hp%Hio]%elem_of_insert_inv; lia.
  - intros p [-> | Hp%Hlo]%elem_of_insert_inv; lia.
  - apply owns_load; [done | done | done | | | lia].
    + intros q Hq%Hio. lia.
    + intros Hp. pose proof (accounted_live _ _ _ _ _ Hbb Hp). lia.
  - apply owns_load; [done | done | done | | | lia].
    + intros q Hq%Hlo. lia.
    + intros Hp. pose proof (accounted_live _ _ _ _ _ Hlb Hp). lia.
  - rewrite Hab, Hrb. eapply accounted_acquire; [done | done | lia].
  - rewrite Hal, Hrl. eapply accounted_acquire; [ | | split; [reflexivity | lia]].
    + eapply accounted_later; [done | lia].
    + lia.
Qed.

Lemma cache_inv_unloaded (slot s l b : Z) (st : state) :
  cache_inv st →
  image_slot_state st !! Z.to_nat slot = Some s → s ≠ EMPTY_SLOT →
  image_layers st !! Z.to_nat slot = Some l →
  images st !! Z.to_nat slot = Some b →
  cache_inv (unloaded slot l b st).
Proof.
  intros [Hls Hli Hll Hnext Hio Hlo Hob Hol Hbb Hlb] Hs Hne Hl Hb.
  destruct (log_after_unload l b (sdk_log st)) as (Hab & Hrb & Hal & Hrl).
  split; simpl; try done.
  - by rewrite length_insert.
  - by eapply owns_unload.
  - by eapply owns_unload.
  - rewrite Hab, Hrb. apply accounted_release; [done | ].
    by apply (owns_live _ _ _ Hob _ _ _ Hs Hb).
  - rewrite Hal, Hrl. apply accounted_release; [done | ].
    by apply (owns_live _ _ _ Hol _ _ _ Hs Hl).
Qed.

(** The slot's pointers, when the invariant holds and the slot is in range. *)
Lemma cache_inv_lookup (slot : Z) (st : state) :
  cache_inv st → 0 ≤ slot < TOTAL_IMAGE_SLOTS →
  ∃ s l b, image_slot_state st !! Z.to_nat slot = Some s
           ∧ image_layers st !! Z.to_nat slot = Some l
           ∧ images st !! Z.to_nat slot = Some b.
Proof.
  intros Hinv Hslot. unfold TOTAL_IMAGE_SLOTS in Hslot.
  destruct (lookup_lt_is_Some_2 (image_slot_state st) (Z.to_nat slot)) as [s Hs];
    [rewrite (inv_len_state _ Hinv); lia | ].
  destruct (lookup_lt_is_Some_2 (image_layers st) (Z.to_nat slot)) as [l Hl];
    [rewrite (inv_len_layers _ Hinv); lia | ].
  destruct (lookup_lt_is_Some_2 (images st) (Z.to_nat slot)) as [b Hb];
    [rewrite (inv_len_images _ Hinv); lia | ].
  by exists s, l, b.
Qed.

Lemma cache_inv_null (st : state) : cache_inv st → NULL ∉ live_bitmaps st.
Proof.
  intros Hinv Hn.
  pose proof (accounted_live _ _ _ _ _ (inv_bitmap_books _ Hinv) Hn).
  unfold NULL in *. lia.
Qed.

(** Every way a load and an unload can return. *)
Lemma load_cases (slot digit : Z) (st st' : state) (a : unit) :
  cache_inv st →
  load_digit_image_into_slot slot digit st = Done a st' →
  st' = st
  ∨ (0 ≤ slot < TOTAL_IMAGE_SLOTS ∧ 0 ≤ digit ≤ 9
     ∧ image_slot_state st !! Z.to_nat slot = Some EMPTY_SLOT
     ∧ gbitmap_available (sdk_log st) (IMAGE_RESOURCE_IDS digit) = true
     ∧ st' = loaded slot digit st).
Proof.
  intros Hinv Hrun.
  destruct (decide (0 ≤ slot < TOTAL_IMAGE_SLOTS ∧ 0 ≤ digit ≤ 9)) as [[Hs Hd] | Hbad];
    [ | rewrite load_invalid in Hrun by done; left; by simplify_eq].
  destruct (cache_inv_lookup slot st Hinv Hs) as (s & l & b & Hs' & Hl & Hb).
  destruct (decide (s = EMPTY_SLOT)) as [-> | Hne];
    [ | erewrite load_occupied in Hrun by done; left; by simplify_eq].
  apply lookup_lt_Some in Hl, Hb.
  destruct (gbitmap_available (sdk_log st) (IMAGE_RESOURCE_IDS digit)) eqn:Hav.
  - rewrite load_empty_ok in Hrun by done. right. by simplify_eq.
  - rewrite load_empty_fail in Hrun; [done.. | by apply cache_inv_null | done].
Qed.

Lemma unload_cases (slot : Z) (st st' : state) (a : unit) :
  cache_inv st →
  unload_digit_image_from_slot slot st = Done a st' →
  0 ≤ slot < TOTAL_IMAGE_SLOTS
  ∧ ((image_slot_state st !! Z.to_nat slot = Some EMPTY_SLOT ∧ st' = st)
     ∨ ∃ s l b, image_slot_state st !! Z.to_nat slot = Some s ∧ s ≠ EMPTY_SLOT
                ∧ image_layers st !! Z.to_nat slot = Some l ∧ l ∈ live_layers st
                ∧ images st !! Z.to_nat slot = Some b ∧ b ∈ live_bitmaps st
                ∧ st' = unloaded slot l b st).
Proof.
  intros Hinv Hrun.
  destruct (slot_digit st slot) as [s | ] eqn:Hs;
    [ | by rewrite unload_out_of_bounds in Hrun].
  unfold slot_digit in Hs. destruct (Z.leb_spec 0 slot); [ | done].
  assert (0 ≤ slot < TOTAL_IMAGE_SLOTS) as Hslot.
  { apply lookup_lt_Some in Hs. rewrite (inv_len_state _ Hinv) in Hs.
    unfold TOTAL_IMAGE_SLOTS. lia. }
  split; [done | ].
  destruct (decide (s = EMPTY_SLOT)) as [-> | Hne];
    [rewrite unload_empty in Hrun by done; left; by simplify_eq | ].
  destruct (cache_inv_lookup slot st Hinv Hslot) as (s' & l & b & Hs' & Hl & Hb).
  assert (l ∈ live_layers st) as Hll
    by (by apply (owns_live _ _ _ (inv_layers _ Hinv) _ _ _ Hs Hl)).
  assert (b ∈ live_bitmaps st) as Hlb
    by (by apply (owns_live _ _ _ (inv_bitmaps _ Hinv) _ _ _ Hs Hb)).
  rewrite (unload_occupied slot s l b st) in Hrun by done.
  right. exists s, l, b. by simplify_eq.
Qed.

Lemma load_preserves (slot digit : Z) :
  preserves cache_inv (load_digit_image_into_slot slot digit).
Proof.
  intros st a st' Hinv Hrun.
  destruct (load_cases _ _ _ _ _ Hinv Hrun) as [-> | (_ & Hd & Hs & _ & ->)];
    [done | ].
  apply cache_inv_loaded; [done | done | unfold EMPTY_SLOT; lia].
Qed.

Lemma unload_preserves (slot : Z) :
  preserves cache_inv (unload_digit_image_from_slot slot).
Proof.
  intros st a st' Hinv Hrun.
  destruct (unload_cases _ _ _ _ Hinv Hrun)
    as [_ [[_ ->] | (s & l & b & Hs & Hne & Hl & _ & Hb & _ & ->)]]; [done | ].
  by eapply cache_inv_unloaded.
Qed.

Lemma cache_inv_set_zero_prefix (b : bool) (st : state) :
  cache_inv st → cache_inv (set_zero_prefix b st).
Proof. intros []. by split. Qed.

Lemma display_column_preserves (row : Z) (changed : bool) (col value : Z) :
  preserves cache_inv (display_column row changed col value).
Proof.
  unfold display_column. apply preserves_bind.
  - destruct changed; [apply preserves_ret | ].
    apply preserves_bind; [apply preserves_array_get | intros; apply preserves_ret].
  - intros [ | ]; [ | apply preserves_ret].
    apply preserves_bind; [apply unload_preserves | intros _].
    apply preserves_bind; [apply preserves_gets | intros zp].
    destruct (_ || _ || _); [apply load_preserves | apply preserves_ret].
Qed.

Lemma display_columns_preserves (n : nat) (row : Z) (changed : bool) (value : Z) :
  preserves cache_inv (display_columns n row changed value).
Proof.
  revert value. induction n as [ | n IH]; intros value; simpl.
  - apply preserves_ret.
  - apply preserves_bind; [apply display_column_preserves | intros _; apply IH].
Qed.

Lemma display_value_preserves (value row : Z) (changed : bool) :
  preserves cache_inv (display_value value row changed).
Proof. apply display_columns_preserves. Qed.

Lemma display_time_preserves (tm_hour tm_min : Z) (c24 changed : bool) :
  preserves cache_inv (display_time tm_hour tm_min c24 changed).
Proof.
  apply preserves_bind; [ | intros _]; apply display_value_preserves.
Qed.

Lemma unload_slots_preserves (n : nat) (i : Z) :
  preserves cache_inv (unload_slots n i).
Proof.
  revert i. induction n as [ | n IH]; intros i; simpl.
  - apply preserves_ret.
  - apply preserves_bind; [apply unload_preserves | intros _; apply IH].
Qed.

Lemma run_call_preserves (c : cache_call) : preserves cache_inv (run_call c).
Proof.
  destruct c; simpl.
  - apply load_preserves.
  - apply unload_preserves.
  - apply display_value_preserves.
  - apply display_time_preserves.
  - intros st a st' Hinv [= _ <-]. by apply cache_inv_set_zero_prefix.
  - apply unload_slots_preserves.
Qed.

Lemma run_calls_preserves (cs : list cache_call) : preserves cache_inv (run_calls cs).
Proof.
  induction cs as [ | c cs IH]; simpl.
  - apply preserves_ret.
  - apply preserves_bind; [apply run_call_preserves | intros _; apply IH].
Qed.

(** Every state a sequence of calls reaches from the initial one. *)
Lemma reachable_inv (cs : list cache_call) (st : state) :
  run_calls cs initial_state = Done tt st → cache_inv st.
Proof.
  intros Hrun. eapply run_calls_preserves; [apply cache_inv_initial | done].
Qed.

(** ** One slot at a time *)

Lemma same_elsewhere_refl (slot : Z) (st : state) : same_elsewhere slot st st.
Proof. by split. Qed.

Lemma same_elsewhere_trans (slot : Z) (st1 st2 st3 : state) :
  same_elsewhere slot st1 st2 → same_elsewhere slot st2 st3 →
  same_elsewhere slot st1 st3.
Proof.
  intros [Hz1 H1] [Hz2 H2]. split; [congruence | ].
  intros j Hj. destruct (H1 j Hj) as (? & ? & ?), (H2 j Hj) as (? & ? & ?).
  split_and!; congruence.
Qed.

Lemma same_elsewhere_loaded (slot digit : Z) (st : state) :
  same_elsewhere slot st (loaded slot digit st).
Proof.
  split; [done | ]. intros j Hj. simpl.
  by rewrite !list_lookup_insert_ne.
Qed.

Lemma same_elsewhere_unloaded (slot l b : Z) (st : state) :
  same_elsewhere slot st (unloaded slot l b st).
Proof.
  split; [done | ]. intros j Hj. simpl.
  by rewrite !list_lookup_insert_ne.
Qed.

Lemma same_elsewhere_slot_digit (slot j : Z) (st st' : state) :
  same_elsewhere slot st st' → 0 ≤ slot → 0 ≤ j → j ≠ slot →
  slot_digit st' j = slot_digit st j.
Proof.
  intros [_ Hsame] Hslot Hj Hne. unfold slot_digit.
  destruct (Z.leb_spec 0 j); [ | done]. apply Hsame. lia.
Qed.

Lemma slot_digit_Some (slot s : Z) (st : state) :
  slot_digit st slot = Some s ↔
  0 ≤ slot ∧ image_slot_state st !! Z.to_nat slot = Some s.
Proof.
  unfold slot_digit. destruct (Z.leb_spec 0 slot); [naive_solver | ].
  split; [done | lia].
Qed.

Lemma slot_digit_loaded (slot digit : Z) (st : state) :
  0 ≤ slot → (Z.to_nat slot < length (image_slot_state st))%nat →
  slot_digit (loaded slot digit st) slot = Some digit.
Proof.
  intros Hslot Hlen. apply slot_digit_Some. split; [done | ]. simpl.
  by apply list_lookup_insert_eq.
Qed.

Lemma slot_digit_unloaded (slot l b : Z) (st : state) :
  0 ≤ slot → (Z.to_nat slot < length (image_slot_state st))%nat →
  slot_digit (unloaded slot l b st) slot = Some EMPTY_SLOT.
Proof.
  intros Hslot Hlen. apply slot_digit_Some. split; [done | ]. simpl.
  by apply list_lookup_insert_eq.
Qed.

(** An unload of a slot in range always returns, and leaves the slot empty. *)
Lemma unload_ok (slot : Z) (st : state) :
  cache_inv st → 0 ≤ slot < TOTAL_IMAGE_SLOTS →
  ∃ st', unload_digit_image_from_slot slot st = Done tt st'
         ∧ cache_inv st'
         ∧ slot_digit st' slot = Some EMPTY_SLOT
         ∧ same_elsewhere slot st st'.
Proof.
  intros Hinv Hslot.
  destruct (cache_inv_lookup slot st Hinv Hslot) as (s & l & b & Hs & Hl & Hb).
  destruct (decide (s = EMPTY_SLOT)) as [-> | Hne].
  - exists st. rewrite unload_empty by (done || lia).
    split_and!; [done | done | | apply same_elsewhere_refl].
    apply slot_digit_Some. split; [lia | done].
  - assert (l ∈ live_layers st) as Hll
      by (by apply (owns_live _ _ _ (inv_layers _ Hinv) _ _ _ Hs Hl)).
    assert (b ∈ live_bitmaps st) as Hlb
      by (by apply (owns_live _ _ _ (inv_bitmaps _ Hinv) _ _ _ Hs Hb)).
    exists (unloaded slot l b st).
    rewrite (unload_occupied slot s l b st) by (done || lia).
    split_and!; [done | by eapply cache_inv_unloaded | | apply same_elsewhere_unloaded].
    apply slot_digit_unloaded; [lia | by eapply lookup_lt_Some].
Qed.

(** A load into an empty slot in range returns when the store delivers. *)
Lemma load_ok (slot digit : Z) (st : state) :
  cache_inv st → 0 ≤ slot < TOTAL_IMAGE_SLOTS → 0 ≤ digit ≤ 9 →
  slot_digit st slot = Some EMPTY_SLOT →
  gbitmap_available (sdk_log st) (IMAGE_RESOURCE_IDS digit) = true →
  load_digit_image_into_slot slot digit st = Done tt (loaded slot digit st)
  ∧ cache_inv (loaded slot digit st)
  ∧ slot_digit (loaded slot digit st) slot = Some digit
  ∧ same_elsewhere slot st (loaded slot digit st).
Proof.
  intros Hinv Hslot Hdigit [_ Hs]%slot_digit_Some Hav.
  destruct (cache_inv_lookup slot st Hinv Hslot) as (s & l & b & Hs' & Hl & Hb).
  apply lookup_lt_Some in Hl, Hb, Hs'.
  split_and!.
  - by apply load_empty_ok.
  - apply cache_inv_loaded; [done | done | unfold EMPTY_SLOT; lia].
  - apply slot_digit_loaded; [lia | done].
  - apply same_elsewhere_loaded.
Qed.

(** ** One column, one row *)

Lemma shows_spec (st : state) (slot digit : Z) :
  shows st slot digit = true ↔ slot_digit st slot = Some digit.
Proof. unfold shows. apply bool_decide_eq_true. Qed.

Lemma refresh_eq (slot digit : Z) (st : state) :
  cache_inv st →
  (unload_digit_image_from_slot slot ;;
   zp <- gets zero_prefix ;;
   if zp || negb (digit =? 0) || negb (slot =? 0)
   then load_digit_image_into_slot slot digit
   else ret tt) st
  = (unload_digit_image_from_slot slot ;;
     if blanked (zero_prefix st) slot digit then ret tt
     else load_digit_image_into_slot slot digit) st.
Proof.
  intros Hinv. unfold bind at 1 3.
  destruct (unload_digit_image_from_slot slot st) as [a st1 | ] eqn:Hu; [ | done].
  assert (zero_prefix st1 = zero_prefix st) as Hzp.
  { destruct (unload_cases _ _ _ _ Hinv Hu)
      as [_ [[_ ->] | (s & l & b & _ & _ & _ & _ & _ & _ & ->)]]; done. }
  unfold bind, gets, blanked. rewrite Hzp.
  by destruct (zero_prefix st || negb (digit =? 0) || negb (slot =? 0)).
Qed.

(** The loop body as the calls it makes, decided on the state it starts in. *)
Lemma display_column_eq (row : Z) (changed : bool) (col value : Z) (st : state) :
  cache_inv st →
  display_column row changed col value st
  = (if changed || negb (shows st (row * 2 + col) (c_mod value 10))
     then unload_digit_image_from_slot (row * 2 + col) ;;
          if blanked (zero_prefix st) (row * 2 + col) (c_mod value 10) then ret tt
          else load_digit_image_into_slot (row * 2 + col) (c_mod value 10)
     else ret tt) st.
Proof.
  intros Hinv. unfold display_column. destruct changed; simpl.
  - unfold bind at 1, ret at 1. by apply refresh_eq.
  - unfold bind at 1 2.
    destruct (slot_digit st (row * 2 + col)) as [s | ] eqn:Hs.
    + pose proof Hs as [Hslot Hs']%slot_digit_Some.
      rewrite (array_get_Done image_slot_state _ s) by done.
      unfold ret at 1. unfold shows. rewrite Hs.
      destruct (Z.eqb_spec (c_mod value 10) s) as [-> | Hne]; simpl.
      * by rewrite bool_decide_eq_true_2.
      * rewrite bool_decide_eq_false_2 by congruence. by apply refresh_eq.
    + unfold shows. rewrite Hs. rewrite bool_decide_eq_false_2 by done. simpl.
      rewrite bind_Fault by (by apply unload_out_of_bounds).
      unfold array_get. unfold slot_digit in Hs. by rewrite Hs.
Qed.

Lemma display_column_ok (row : Z) (changed : bool) (col value : Z) (st : state) :
  cache_inv st → store_delivers →
  0 ≤ row * 2 + col < TOTAL_IMAGE_SLOTS → 0 ≤ c_mod value 10 ≤ 9 →
  ∃ st', display_column row changed col value st = Done tt st'
         ∧ cache_inv st'
         ∧ slot_digit st' (row * 2 + col)
           = Some (column_result st changed (row * 2 + col) (c_mod value 10))
         ∧ same_elsewhere (row * 2 + col) st st'.
Proof.
  intros Hinv Hstore Hslot Hdigit. rewrite display_column_eq by done.
  unfold column_result.
  set (slot := row * 2 + col) in *. set (digit := c_mod value 10) in *.
  destruct (changed || negb (shows st slot digit)) eqn:Hrefresh; simpl.
  - destruct (unload_ok slot st Hinv Hslot) as (st1 & Hu & Hinv1 & Hs1 & Hsame1).
    rewrite (bind_Done _ _ _ _ _ Hu).
    destruct Hsame1 as [Hzp Hsame1]. 
    destruct (blanked (zero_prefix st) slot digit).
    + exists st1. by split_and!.
    + destruct (load_ok slot digit st1 Hinv1 Hslot Hdigit Hs1 (Hstore _ _))
        as (Hl & Hinv2 & Hs2 & Hsame2).
      exists (loaded slot digit st1). split_and!; [done | done | done | ].
      by eapply same_elsewhere_trans.
  - exists st. split_and!; [done | done | | apply same_elsewhere_refl].
    apply orb_false_iff in Hrefresh as [_ Hshows].
    apply negb_false_iff in Hshows. by apply shows_spec.
Qed.

Lemma column_result_same (slot j digit : Z) (changed : bool) (st st' : state) :
  same_elsewhere slot st st' → 0 ≤ slot → 0 ≤ j → j ≠ slot →
  column_result st' changed j digit = column_result st changed j digit.
Proof.
  intros Hsame Hslot Hj Hne. unfold column_result, shows.
  rewrite (same_elsewhere_slot_digit slot j st st') by done.
  by destruct Hsame as [-> _].
Qed.

Lemma display_value_unfold (value row : Z) (changed : bool) (st : state) :
  display_value value row changed st
  = (display_column (to_ushort row) changed 1 (c_mod (to_ushort value) 100) ;;
     display_column (to_ushort row) changed 0
       (c_div (c_mod (to_ushort value) 100) 10)) st.
Proof.
  unfold display_value. cbn [display_columns].
  change (Z.of_nat 1) with 1. change (Z.of_nat 0) with 0. unfold bind.
  destruct (display_column _ _ 1 _ st) as [a st1 | ]; [ | done].
  by destruct (display_column _ _ _ _ st1) as [[] st2 | ].
Qed.

(** A row in range is displayed whenever the store delivers: what its two
    slots show afterwards, and that nothing else moved. *)
Lemma display_value_ok (value row : Z) (changed : bool) (st : state) :
  cache_inv st → store_delivers → 0 ≤ row ≤ 1 →
  ∃ st', display_value value row changed st = Done tt st'
         ∧ cache_inv st'
         ∧ slot_digit st' (row * 2 + 1)
           = Some (c_mod (c_mod (to_ushort value) 100) 10)
         ∧ slot_digit st' (row * 2)
           = Some (column_result st changed (row * 2)
                     (c_div (c_mod (to_ushort value) 100) 10))
         ∧ zero_prefix st' = zero_prefix st
         ∧ ∀ j, 0 ≤ j → j ≠ row * 2 → j ≠ row * 2 + 1 →
                slot_digit st' j = slot_digit st j.
Proof.
  intros Hinv Hstore Hrow. rewrite display_value_unfold.
  assert (to_ushort row = row) as -> by c_arith.
  set (v := c_mod (to_ushort value) 100).
  assert (0 ≤ v < 100) as Hv by (unfold v; c_arith).
  assert (c_mod (c_div v 10) 10 = c_div v 10) as Htens by c_arith.
  destruct (display_column_ok row changed 1 v st Hinv Hstore)
    as (st1 & H1 & Hinv1 & Hs1 & Hsame1).
  { c_arith. }
  { c_arith. }
  destruct (display_column_ok row changed 0 (c_div v 10) st1 Hinv1 Hstore)
    as (st2 & H2 & Hinv2 & Hs2 & Hsame2).
  { c_arith. }
  { c_arith. }
  rewrite Z.add_0_r in *. rewrite Htens in Hs2.
  exists st2. rewrite (bind_Done _ _ _ _ _ H1). split_and!; [done | done | | | | ].
  - rewrite (same_elsewhere_slot_digit (row * 2) _ st1 st2) by (done || lia).
    rewrite Hs1. f_equal. unfold column_result, blanked.
    destruct (Z.eqb_spec (row * 2 + 1) 0); [lia | ].
    by rewrite !orb_true_r, andb_false_r.
  - rewrite Hs2. f_equal.
    apply (column_result_same (row * 2 + 1)); [done | lia..].
  - destruct Hsame1 as [Hz1 _], Hsame2 as [Hz2 _]. congruence.
  - intros j Hj Hj0 Hj1.
    rewrite (same_elsewhere_slot_digit (row * 2) _ st1 st2) by (done || lia).
    by rewrite (same_elsewhere_slot_digit (row * 2 + 1) _ st st1) by (done || lia).
Qed.

(** ** Frames: a call on one slot leaves the others alone *)

Lemma unload_frame (slot : Z) (st st' : state) (a : unit) :
  cache_inv st → unload_digit_image_from_slot slot st = Done a st' →
  same_elsewhere slot st st'.
Proof.
  intros Hinv Hrun.
  destruct (unload_cases _ _ _ _ Hinv Hrun)
    as [_ [[_ ->] | (s & l & b & _ & _ & _ & _ & _ & _ & ->)]].
  - apply same_elsewhere_refl.
  - apply same_elsewhere_unloaded.
Qed.

Lemma load_frame (slot digit : Z) (st st' : state) (a : unit) :
  cache_inv st → load_digit_image_into_slot slot digit st = Done a st' →
  same_elsewhere slot st st'.
Proof.
  intros Hinv Hrun.
  destruct (load_cases _ _ _ _ _ Hinv Hrun) as [-> | (_ & _ & _ & _ & ->)].
  - apply same_elsewhere_refl.
  - apply same_elsewhere_loaded.
Qed.

Lemma column_update_eq (row col value : Z) (st : state) :
  cache_inv st →
  display_column row false col value st
  = column_update st (row * 2 + col) (c_mod value 10) st.
Proof.
  intros Hinv. rewrite display_column_eq by done. unfold column_update. simpl.
  by destruct (shows st (row * 2 + col) (c_mod value 10)).
Qed.

Lemma column_update_preserves (st0 : state) (slot digit : Z) :
  preserves cache_inv (column_update st0 slot digit).
Proof.
  unfold column_update. destruct (shows st0 slot digit); [apply preserves_ret | ].
  apply preserves_bind; [apply unload_preserves | intros _].
  destruct (blanked _ _ _); [apply preserves_ret | apply load_preserves].
Qed.

Lemma column_update_frame (st0 : state) (slot digit : Z) (st st' : state) (a : unit) :
  cache_inv st → column_update st0 slot digit st = Done a st' →
  same_elsewhere slot st st'.
Proof.
  intros Hinv. unfold column_update.
  destruct (shows st0 slot digit).
  { intros [= _ <-]. apply same_elsewhere_refl. }
  intros (a1 & st1 & Hu & Hrest)%bind_inv.
  pose proof (unload_frame _ _ _ _ Hinv Hu) as Hsame1.
  pose proof (unload_preserves _ _ _ _ Hinv Hu) as Hinv1.
  destruct (blanked _ _ _).
  - by injection Hrest as _ <-.
  - eapply same_elsewhere_trans; [done | by eapply load_frame].
Qed.

Lemma column_update_same (slot j digit : Z) (st0 st1 st : state) :
  same_elsewhere slot st0 st1 → 0 ≤ slot → 0 ≤ j → j ≠ slot →
  column_update st1 j digit st = column_update st0 j digit st.
Proof.
  intros Hsame Hslot Hj Hne. unfold column_update, shows.
  rewrite (same_elsewhere_slot_digit slot j st0 st1) by done.
  by destruct Hsame as [-> _].
Qed.

(** ** Tearing down *)

Lemma bind_ret_tt (m : M unit) (st : state) : (m ;; ret tt) st = m st.
Proof. unfold bind, ret. by destruct (m st) as [[] st' | ]. Qed.

Lemma app_destroy_unfold (st : state) :
  app_destroy st
  = (unload_digit_image_from_slot 0 ;; unload_digit_image_from_slot 1 ;;
     unload_digit_image_from_slot 2 ;; unload_digit_image_from_slot 3) st.
Proof.
  unfold app_destroy. change (Z.to_nat TOTAL_IMAGE_SLOTS) with 4%nat.
  cbn [unload_slots]. change (0 + 1) with 1. change (1 + 1) with 2.
  change (2 + 1) with 3.
  apply bind_ext; intros _ st1. apply bind_ext; intros _ st2.
  apply bind_ext; intros _ st3. apply bind_ret_tt.
Qed.

(** One unload of the teardown: what it adds to the log and what it
    leaves of the globals. *)
Lemma unload_step (slot : Z) (st : state) :
  cache_inv st → 0 ≤ slot < TOTAL_IMAGE_SLOTS →
  ∃ st', unload_digit_image_from_slot slot st = Done tt st'
         ∧ cache_inv st'
         ∧ sdk_log st' = sdk_log st ++ slot_teardown_calls st (Z.to_nat slot)
         ∧ image_slot_state st'
           = <[Z.to_nat slot := EMPTY_SLOT]> (image_slot_state st)
         ∧ images st' = images st
         ∧ image_layers st' = image_layers st
         ∧ zero_prefix st' = zero_prefix st
         ∧ next_ptr st' = next_ptr st.
Proof.
  intros Hinv Hslot.
  destruct (cache_inv_lookup slot st Hinv Hslot) as (s & l & b & Hs & Hl & Hb).
  unfold slot_teardown_calls. rewrite Hs, Hl, Hb.
  destruct (Z.eqb_spec s EMPTY_SLOT) as [-> | Hne].
  - exists st. rewrite unload_empty by (done || lia).
    rewrite app_nil_r, list_insert_id by done. done.
  - assert (l ∈ live_layers st) as Hll
      by (by apply (owns_live _ _ _ (inv_layers _ Hinv) _ _ _ Hs Hl)).
    assert (b ∈ live_bitmaps st) as Hlb
      by (by apply (owns_live _ _ _ (inv_bitmaps _ Hinv) _ _ _ Hs Hb)).
    exists (unloaded slot l b st).
    rewrite (unload_occupied slot s l b st) by (done || lia).
    split_and!; try done. by eapply cache_inv_unloaded.
Qed.

Lemma slot_teardown_calls_same (st st' : state) (j : nat) :
  image_slot_state st' !! j = image_slot_state st !! j →
  images st' = images st → image_layers st' = image_layers st →
  slot_teardown_calls st' j = slot_teardown_calls st j.
Proof. unfold slot_teardown_calls. by intros -> -> ->. Qed.

Lemma teardown_calls_acquire_nothing (st : state) :
  acquired_bitmaps (teardown_calls st) = []
  ∧ acquired_layers (teardown_calls st) = [].
Proof.
  assert (∀ i, acquired_bitmaps (slot_teardown_calls st i) = []
               ∧ acquired_layers (slot_teardown_calls st i) = []) as Hslot.
  { intros i. unfold slot_teardown_calls.
    destruct (image_slot_state st !! i) as [s | ]; [ | done].
    destruct (image_layers st !! i) as [l | ]; [ | done].
    destruct (images st !! i) as [b | ]; [ | done].
    by destruct (s =? EMPTY_SLOT). }
  unfold teardown_calls, acquired_bitmaps, acquired_layers in *.
  rewrite !omap_app.
  destruct (Hslot 0%nat) as [-> ->]. destruct (Hslot 1%nat) as [-> ->].
  destruct (Hslot 2%nat) as [-> ->]. destruct (Hslot 3%nat) as [-> ->]. done.
Qed.

(** The teardown as a whole, tied to the state it starts in. *)
Lemma app_destroy_log (st : state) :
  cache_inv st →
  ∃ st', app_destroy st = Done tt st'
         ∧ cache_inv st'
         ∧ sdk_log st' = sdk_log st ++ teardown_calls st
         ∧ image_slot_state st' = replicate 4 EMPTY_SLOT
         ∧ images st' = images st
         ∧ image_layers st' = image_layers st
         ∧ zero_prefix st' = zero_prefix st
         ∧ next_ptr st' = next_ptr st.
Proof.
  intros Hinv. rewrite app_destroy_unfold.
  destruct (unload_step 0 st Hinv)
    as (st1 & Hu1 & Hinv1 & Hlog1 & Hs1 & Hi1 & Hl1 & Hz1 & Hn1); [c_arith | ].
  destruct (unload_step 1 st1 Hinv1)
    as (st2 & Hu2 & Hinv2 & Hlog2 & Hs2 & Hi2 & Hl2 & Hz2 & Hn2); [c_arith | ].
  destruct (unload_step 2 st2 Hinv2)
    as (st3 & Hu3 & Hinv3 & Hlog3 & Hs3 & Hi3 & Hl3 & Hz3 & Hn3); [c_arith | ].
  destruct (unload_step 3 st3 Hinv3)
    as (st4 & Hu4 & Hinv4 & Hlog4 & Hs4 & Hi4 & Hl4 & Hz4 & Hn4); [c_arith | ].
  exists st4.
  rewrite (bind_Done _ _ _ _ _ Hu1), (bind_Done _ _ _ _ _ Hu2), (bind_Done _ _ _ _ _ Hu3).
  change (Z.to_nat 0) with 0%nat in *. change (Z.to_nat 1) with 1%nat in *.
  change (Z.to_nat 2) with 2%nat in *. change (Z.to_nat 3) with 3%nat in *.
  split_and!; [done | done | | | congruence | congruence | congruence | congruence].
  - rewrite Hlog4, Hlog3, Hlog2, Hlog1. unfold teardown_calls.
    rewrite (slot_teardown_calls_same st st1 1)
      by (rewrite ?Hs1; by rewrite ?list_lookup_insert_ne by done).
    rewrite (slot_teardown_calls_same st st2 2)
      by (rewrite ?Hs2, ?Hs1; try congruence;
          by rewrite !list_lookup_insert_ne by done).
    rewrite (slot_teardown_calls_same st st3 3)
      by (rewrite ?Hs3, ?Hs2, ?Hs1; try congruence;
          by rewrite !list_lookup_insert_ne by done).
    by rewrite <- !app_assoc.
  - rewrite Hs4, Hs3, Hs2, Hs1.
    pose proof (inv_len_state _ Hinv) as Hlen.
    destruct (image_slot_state st) as [ | a [ | b [ | c [ | d [ | ? ?]]]]];
      simpl in Hlen; try lia. done.
Qed.

Lemma all_empty_nothing_live (states arr live : list Z) :
  owns states arr live →
  (∀ i s, states !! i = Some s → s = EMPTY_SLOT) →
  live = [].
Proof.
  intros [_ _ Hall] Hempty. destruct live as [ | p live]; [done | ].
  destruct (Hall p) as (i & (s & Hs & Hne) & _); [left | ].
  by apply Hempty in Hs.
Qed.

Lemma occupied_holds (slot s : Z) (st : state) :
  cache_inv st → slot_digit st slot = Some s → s ≠ EMPTY_SLOT →
  holds_bitmap st slot ∧ holds_layer st slot.
Proof.
  intros Hinv [Hslot Hs]%slot_digit_Some Hne.
  assert (0 ≤ slot < TOTAL_IMAGE_SLOTS) as Hrange.
  { apply lookup_lt_Some in Hs. rewrite (inv_len_state _ Hinv) in Hs. c_arith. }
  destruct (cache_inv_lookup slot st Hinv Hrange) as (s' & l & b & _ & Hl & Hb).
  split.
  - exists b. split; [done | ].
    by apply (owns_live _ _ _ (inv_bitmaps _ Hinv) _ _ _ Hs Hb).
  - exists l. split; [done | ].
    by apply (owns_live _ _ _ (inv_layers _ Hinv) _ _ _ Hs Hl).
Qed.

Lemma same_elsewhere_untouched (slot j : Z) (st st' : state) :
  same_elsewhere slot st st' → 0 ≤ slot → 0 ≤ j → j ≠ slot →
  untouched j st st'.
Proof. intros [_ Hsame] Hslot Hj Hne. apply Hsame. lia. Qed.

Lemma untouched_slot_digit (slot : Z) (st st' : state) :
  untouched slot st st' → slot_digit st' slot = slot_digit st slot.
Proof. intros (Hs & _). unfold slot_digit. by rewrite Hs. Qed.

(** The row with [changed] false, as the calls it makes. *)
Lemma display_value_eq (value row : Z) (st : state) :
  cache_inv st → 0 ≤ row ≤ 1 →
  display_value value row false st
  = (column_update st (row * 2 + 1) (c_mod (c_mod (to_ushort value) 100) 10) ;;
     column_update st (row * 2) (c_div (c_mod (to_ushort value) 100) 10)) st.
Proof.
  intros Hinv Hrow. rewrite display_value_unfold.
  assert (to_ushort row = row) as -> by c_arith.
  set (v := c_mod (to_ushort value) 100).
  assert (c_mod (c_div v 10) 10 = c_div v 10) as Htens by (unfold v; c_arith).
  unfold bind. rewrite column_update_eq by done.
  destruct (column_update st (row * 2 + 1) (c_mod v 10) st) as [a st1 | ] eqn:H1;
    [ | done].
  pose proof (column_update_preserves _ _ _ _ _ _ Hinv H1) as Hinv1.
  pose proof (column_update_frame _ _ _ _ _ _ Hinv H1) as Hsame1.
  rewrite column_update_eq by done. rewrite Z.add_0_r, Htens.
  apply (column_update_same (row * 2 + 1)); [done | lia..].
Qed.

(** * The claims *)

(** C1.  At every observable point -- after the initialisation and after
    each call of [load_digit_image_into_slot], [unload_digit_image_from_slot],
    [display_value], [display_time] or [app_destroy] that returns -- every
    slot [i] has [image_slot_state[i] != EMPTY_SLOT] exactly when
    [images[i]] is a loaded bitmap, and exactly when [image_layers[i]] is a
    layer in existence: a slot is never partially populated. *)
Theorem slot_state_matches_assets (cs : list cache_call) (st : state) (i : Z) :
  run_calls cs initial_state = Done tt st →
  0 ≤ i < TOTAL_IMAGE_SLOTS →
  ∃ s, slot_digit st i = Some s
       ∧ (s ≠ EMPTY_SLOT ↔ holds_bitmap st i)
       ∧ (s ≠ EMPTY_SLOT ↔ holds_layer st i).
Proof.
  intros Hinv%reachable_inv Hi.
  destruct (cache_inv_lookup i st Hinv Hi) as (s & l & b & Hs & Hl & Hb).
  exists s. split_and!.
  - apply slot_digit_Some. split; [lia | done].
  - rewrite (owns_live _ _ _ (inv_bitmaps _ Hinv) _ _ _ Hs Hb).
    unfold holds_bitmap. rewrite Hb. naive_solver.
  - rewrite (owns_live _ _ _ (inv_layers _ Hinv) _ _ _ Hs Hl).
    unfold holds_layer. rewrite Hl. naive_solver.
Qed.

(** C2.  When the store cannot deliver the bitmap of a valid digit for an
    empty valid slot, [load_digit_image_into_slot] does not return: it reads
    [bounds.size] through the null pointer it was given.  The row being
    displayed is lost with it: [display_value] faults at the units column,
    before the tens column is looked at. *)
Theorem load_faults_when_store_fails (cs : list cache_call) (st : state)
        (slot digit : Z) :
  run_calls cs initial_state = Done tt st →
  0 ≤ slot < TOTAL_IMAGE_SLOTS → 0 ≤ digit ≤ 9 →
  slot_digit st slot = Some EMPTY_SLOT →
  gbitmap_available (sdk_log st) (IMAGE_RESOURCE_IDS digit) = false →
  load_digit_image_into_slot slot digit st = Fault
  ∧ ∀ value row changed,
      0 ≤ row ≤ 1 → slot = row * 2 + 1 →
      c_mod (c_mod (to_ushort value) 100) 10 = digit →
      display_value value row changed st = Fault.
Proof.
  intros Hinv%reachable_inv Hslot Hdigit Hs Hav.
  pose proof Hs as [_ Hs']%slot_digit_Some.
  destruct (cache_inv_lookup slot st Hinv Hslot) as (s & l & b & _ & _ & Hb).
  apply lookup_lt_Some in Hb.
  assert (load_digit_image_into_slot slot digit st = Fault) as Hload
    by (apply load_empty_fail; [done.. | by apply cache_inv_null | done]).
  split; [done | ].
  intros value row changed Hrow -> Hd. rewrite display_value_unfold.
  assert (to_ushort row = row) as -> by c_arith.
  apply bind_Fault. rewrite display_column_eq by done. rewrite Hd.
  assert (shows st (row * 2 + 1) digit = false) as ->.
  { apply bool_decide_eq_false_2. rewrite Hs. intros [= Hx]. c_arith. }
  rewrite orb_true_r.
  erewrite bind_Done by (apply unload_empty; [lia | done]).
  unfold blanked. destruct (Z.eqb_spec (row * 2 + 1) 0); [lia | ].
  by rewrite !orb_true_r.
Qed.

(** C4.  A slot number outside 0..3 or a digit outside 0..9 makes
    [load_digit_image_into_slot] return normally with the state as it was:
    no SDK call, no log entry, nothing the caller could tell from a load
    that had nothing to do. *)
Theorem load_ignores_invalid_arguments (slot digit : Z) (st : state) :
  ¬ (0 ≤ slot < TOTAL_IMAGE_SLOTS) ∨ ¬ (0 ≤ digit ≤ 9) →
  load_digit_image_into_slot slot digit st = Done tt st.
Proof. intros Hbad. apply load_invalid. tauto. Qed.

(** C7.  [get_display_hour] is a function of the hour and the clock style
    alone.  For every hour in 0..23: in 24-hour style the result is the
    hour; in 12-hour style it is [hour % 12], with 0 shown as 12, so it lies
    in 1..12; hour 0 gives 12 and hour 13 gives 1. *)
Theorem get_display_hour_spec (hour : Z) :
  0 ≤ hour ≤ 23 →
  get_display_hour true hour = hour
  ∧ get_display_hour false hour = (if hour mod 12 =? 0 then 12 else hour mod 12)
  ∧ 1 ≤ get_display_hour false hour ≤ 12
  ∧ get_display_hour false 0 = 12
  ∧ get_display_hour false 13 = 1.
Proof.
  intros Hhour. unfold get_display_hour.
  assert (to_ushort hour = hour) as -> by c_arith.
  assert (c_mod hour 12 = hour mod 12) as -> by c_arith.
  repeat apply conj; try reflexivity.
  - by destruct (Z.eqb_spec (hour mod 12) 0).
  - destruct (Z.eqb_spec (hour mod 12) 0); simpl; c_arith.
  - destruct (Z.eqb_spec (hour mod 12) 0); simpl; c_arith.
Qed.
(** C9.  [app_destroy] unloads each of the four slots.  After any sequence
    of calls on the cache that returned, it returns too, and then no slot
    is occupied and no bitmap and no layer is left allocated.  It adds to
    the log, after everything that was logged before, the unload calls of
    the slots that were occupied, in slot order, and nothing else: it
    acquires nothing, and what it releases is what was allocated when it
    was called.  So the bitmaps released over the whole run are the
    bitmaps acquired over the whole run, each released once: as many
    [gbitmap_destroy] calls as successful [gbitmap_create_with_resource]
    calls; and likewise for layers. *)
Theorem app_destroy_releases_everything (cs : list cache_call) (st : state) :
  run_calls cs initial_state = Done tt st →
  app_destroy st
  = (unload_digit_image_from_slot 0 ;; unload_digit_image_from_slot 1 ;;
     unload_digit_image_from_slot 2 ;; unload_digit_image_from_slot 3) st
  ∧ ∃ st', app_destroy st = Done tt st'
           ∧ (∀ i, 0 ≤ i < TOTAL_IMAGE_SLOTS → slot_digit st' i = Some EMPTY_SLOT)
           ∧ live_bitmaps st' = [] ∧ live_layers st' = []
           ∧ released_bitmaps (sdk_log st') ≡ₚ acquired_bitmaps (sdk_log st')
           ∧ NoDup (released_bitmaps (sdk_log st'))
           ∧ length (released_bitmaps (sdk_log st'))
             = length (acquired_bitmaps (sdk_log st'))
           ∧ sdk_log st' = sdk_log st ++ teardown_calls st
           ∧ acquired_bitmaps (sdk_log st') = acquired_bitmaps (sdk_log st)
           ∧ acquired_layers (sdk_log st') = acquired_layers (sdk_log st)
           ∧ released_bitmaps (sdk_log st')
             ≡ₚ released_bitmaps (sdk_log st) ++ live_bitmaps st
           ∧ released_layers (sdk_log st')
             ≡ₚ released_layers (sdk_log st) ++ live_layers st
           ∧ released_layers (sdk_log st') ≡ₚ acquired_layers (sdk_log st')
           ∧ NoDup (released_layers (sdk_log st'))
           ∧ images st' = images st
           ∧ image_layers st' = image_layers st
           ∧ zero_prefix st' = zero_prefix st
           ∧ next_ptr st' = next_ptr st.
Proof.
  intros Hinv%reachable_inv. split; [apply app_destroy_unfold | ].
  destruct (app_destroy_log st Hinv)
    as (st' & Hrun & Hinv' & Hlog & Hstates & Himages & Hlayers & Hzp & Hnext).
  exists st'.
  assert (∀ (i : nat) s, image_slot_state st' !! i = Some s → s = EMPTY_SLOT)
    as Hall.
  { intros i s. rewrite Hstates. by intros [-> _]%lookup_replicate. }
  pose proof (all_empty_nothing_live _ _ _ (inv_bitmaps _ Hinv') Hall) as Hb.
  pose proof (all_empty_nothing_live _ _ _ (inv_layers _ Hinv') Hall) as Hl.
  destruct (inv_bitmap_books _ Hinv') as [Hperm Hnd _].
  destruct (inv_layer_books _ Hinv') as [Hperml Hndl _].
  destruct (inv_bitmap_books _ Hinv) as [Hperm0 _ _].
  destruct (inv_layer_books _ Hinv) as [Hperml0 _ _].
  rewrite Hb, app_nil_r in Hperm. rewrite Hl, app_nil_r in Hperml.
  destruct (teardown_calls_acquire_nothing st) as [Hab Hal].
  assert (acquired_bitmaps (sdk_log st') = acquired_bitmaps (sdk_log st)) as Hacqb
    by (rewrite Hlog; unfold acquired_bitmaps in *;
        by rewrite omap_app, Hab, app_nil_r).
  assert (acquired_layers (sdk_log st') = acquired_layers (sdk_log st)) as Hacql
    by (rewrite Hlog; unfold acquired_layers in *;
        by rewrite omap_app, Hal, app_nil_r).
  split; [done | ]. split.
  { intros i Hi. apply slot_digit_Some. split; [lia | ].
    rewrite Hstates. apply lookup_replicate. split; [done | ].
    unfold TOTAL_IMAGE_SLOTS in Hi. lia. }
  split_and!; try done.
  - by rewrite <- Hperm.
  - by rewrite Hperm.
  - by rewrite <- Hperm, Hacqb.
  - by rewrite <- Hperml, Hacql.
  - by rewrite <- Hperml.
Qed.

(** C8, as the code has it.  Two calls of [load_digit_image_into_slot] in a
    row with the same valid slot and digit: when the slot is empty and the
    store delivers, the first call acquires one bitmap and releases none,
    and the second changes nothing; when the slot is occupied -- by that
    digit or by any other -- the first call already changes nothing.  In
    every case a call that follows one that returned is a no-op. *)
Theorem load_twice_same_digit (cs : list cache_call) (st : state) (slot digit : Z) :
  run_calls cs initial_state = Done tt st →
  0 ≤ slot < TOTAL_IMAGE_SLOTS → 0 ≤ digit ≤ 9 →
  (slot_digit st slot = Some EMPTY_SLOT →
   gbitmap_available (sdk_log st) (IMAGE_RESOURCE_IDS digit) = true →
   ∃ st1, load_digit_image_into_slot slot digit st = Done tt st1
          ∧ load_digit_image_into_slot slot digit st1 = Done tt st1
          ∧ slot_digit st1 slot = Some digit
          ∧ acquired_bitmaps (sdk_log st1)
            = acquired_bitmaps (sdk_log st) ++ [next_ptr st]
          ∧ released_bitmaps (sdk_log st1) = released_bitmaps (sdk_log st))
  ∧ (slot_digit st slot ≠ Some EMPTY_SLOT →
     load_digit_image_into_slot slot digit st = Done tt st)
  ∧ (∀ st1, load_digit_image_into_slot slot digit st = Done tt st1 →
            load_digit_image_into_slot slot digit st1 = Done tt st1).
Proof.
  intros Hinv%reachable_inv Hslot Hdigit.
  destruct (cache_inv_lookup slot st Hinv Hslot) as (s & l & b & Hs & Hl & Hb).
  assert (∀ st0 : state, slot_digit st0 slot = Some digit →
            load_digit_image_into_slot slot digit st0 = Done tt st0) as Hagain.
  { intros st0 [_ Hs0]%slot_digit_Some.
    eapply load_occupied; [done | c_arith]. }
  split_and!.
  - intros Hempty Hav.
    destruct (load_ok slot digit st Hinv Hslot Hdigit Hempty Hav)
      as (Hload & Hinv1 & Hs1 & _).
    exists (loaded slot digit st). split_and!; [done | by apply Hagain | done | | ].
    + simpl. apply log_after_load. pose proof (inv_next _ Hinv). c_arith.
    + simpl. apply log_after_load. pose proof (inv_next _ Hinv). c_arith.
  - intros Hocc. eapply load_occupied; [done | ].
    intros ->. apply Hocc. apply slot_digit_Some. split; [lia | done].
  - intros st1 Hload.
    destruct (load_cases _ _ _ _ _ Hinv Hload) as [-> | (_ & _ & Hempty & _ & ->)].
    + destruct (decide (s = EMPTY_SLOT)) as [-> | Hne].
      * exfalso. destruct (gbitmap_available (sdk_log st) (IMAGE_RESOURCE_IDS digit)) eqn:Hav.
        -- rewrite load_empty_ok in Hload
             by (done || by eapply lookup_lt_Some).
           injection Hload as Hload. apply (f_equal next_ptr) in Hload.
           simpl in Hload. lia.
        -- rewrite load_empty_fail in Hload;
             [done.. | by eapply lookup_lt_Some | by apply cache_inv_null | done].
      * by eapply load_occupied.
    + apply Hagain. apply slot_digit_loaded; [lia | by eapply lookup_lt_Some].
Qed.

(** C3, as the code has it.  On a valid slot occupied by another digit,
    [load_digit_image_into_slot] alone changes nothing.  The replacement is
    [display_value]'s: its loop body calls [unload_digit_image_from_slot]
    and then [load_digit_image_into_slot], which, when the store delivers,
    first detaches and destroys the slot's layer and bitmap and then creates
    and installs those of the new digit, so that the slot shows it. *)
Theorem replacement_is_unload_then_load (cs : list cache_call) (st : state)
        (slot digit old : Z) :
  run_calls cs initial_state = Done tt st → store_delivers →
  0 ≤ slot < TOTAL_IMAGE_SLOTS → 0 ≤ digit ≤ 9 →
  slot_digit st slot = Some old → old ≠ EMPTY_SLOT → old ≠ digit →
  load_digit_image_into_slot slot digit st = Done tt st
  ∧ ∃ l b,
      image_layers st !! Z.to_nat slot = Some l ∧ l ∈ live_layers st
      ∧ images st !! Z.to_nat slot = Some b ∧ b ∈ live_bitmaps st
      ∧ (unload_digit_image_from_slot slot ;;
         load_digit_image_into_slot slot digit) st
        = Done tt (loaded slot digit (unloaded slot l b st))
      ∧ sdk_log (loaded slot digit (unloaded slot l b st))
        = sdk_log st ++ unload_calls l b ++ load_calls slot digit (next_ptr st)
      ∧ slot_digit (loaded slot digit (unloaded slot l b st)) slot = Some digit
      ∧ (b ∉ live_bitmaps (loaded slot digit (unloaded slot l b st)))
      ∧ (l ∉ live_layers (loaded slot digit (unloaded slot l b st)))
      ∧ ∀ row col value changed,
          row * 2 + col = slot → c_mod value 10 = digit →
          blanked (zero_prefix st) slot digit = false →
          display_column row changed col value st
          = Done tt (loaded slot digit (unloaded slot l b st)).
Proof.
  intros Hinv%reachable_inv Hstore Hslot Hdigit Hold Hne Hdiff.
  pose proof Hold as [_ Hs]%slot_digit_Some.
  destruct (cache_inv_lookup slot st Hinv Hslot) as (s & l & b & _ & Hl & Hb).
  assert (l ∈ live_layers st) as Hll
    by (by apply (owns_live _ _ _ (inv_layers _ Hinv) _ _ _ Hs Hl)).
  assert (b ∈ live_bitmaps st) as Hlb
    by (by apply (owns_live _ _ _ (inv_bitmaps _ Hinv) _ _ _ Hs Hb)).
  split; [by eapply load_occupied | ].
  exists l, b.
  pose proof (unload_occupied slot old l b st ltac:(lia) Hs Hne Hl Hll Hb Hlb) as Hu.
  pose proof (cache_inv_unloaded slot old l b st Hinv Hs Hne Hl Hb) as Hinv1.
  destruct (load_ok slot digit (unloaded slot l b st) Hinv1 Hslot Hdigit)
    as (Hload & Hinv2 & Hs2 & _).
  { apply slot_digit_unloaded; [lia | by eapply lookup_lt_Some]. }
  { apply Hstore. }
  assert ((unload_digit_image_from_slot slot ;;
           load_digit_image_into_slot slot digit) st
          = Done tt (loaded slot digit (unloaded slot l b st))) as Hpair
    by (by rewrite (bind_Done _ _ _ _ _ Hu)).
  split_and!; try done.
  - simpl. by rewrite <- app_assoc.
  - simpl. rewrite not_elem_of_cons, list_elem_of_filter. split; [ | naive_solver].
    pose proof (accounted_live _ _ _ _ _ (inv_bitmap_books _ Hinv) Hlb). lia.
  - simpl. rewrite not_elem_of_cons, list_elem_of_filter. split; [ | naive_solver].
    pose proof (accounted_live _ _ _ _ _ (inv_layer_books _ Hinv) Hll). lia.
  - intros row col value changed <- Hd Hblank.
    rewrite display_column_eq by done. rewrite Hd, Hblank.
    assert (shows st (row * 2 + col) digit = false) as ->
      by (apply bool_decide_eq_false_2; congruence).
    by rewrite orb_true_r.
Qed.

(** C5, as the code has it.  With [changed] false, [display_value] on a
    row in range makes, for the units column and then for the tens column,
    these calls and no others: none when the slot already shows the
    column's digit; otherwise one [unload_digit_image_from_slot] followed
    by one [load_digit_image_into_slot] -- except that for slot 0, digit 0
    and [zero_prefix] off the unload is all there is.  A column whose digit
    is already shown keeps its state, its bitmap and its layer. *)
Theorem display_value_incremental (cs : list cache_call) (st : state)
        (value row : Z) :
  run_calls cs initial_state = Done tt st → 0 ≤ row ≤ 1 →
  display_value value row false st
  = (column_update st (row * 2 + 1) (c_mod (c_mod (to_ushort value) 100) 10) ;;
     column_update st (row * 2) (c_div (c_mod (to_ushort value) 100) 10)) st
  ∧ ∀ st', display_value value row false st = Done tt st' →
      (shows st (row * 2 + 1) (c_mod (c_mod (to_ushort value) 100) 10) = true →
       untouched (row * 2 + 1) st st'
       ∧ holds_bitmap st' (row * 2 + 1) ∧ holds_layer st' (row * 2 + 1))
      ∧ (shows st (row * 2) (c_div (c_mod (to_ushort value) 100) 10) = true →
         untouched (row * 2) st st'
         ∧ holds_bitmap st' (row * 2) ∧ holds_layer st' (row * 2)).
Proof.
  intros Hinv%reachable_inv Hrow.
  pose proof (display_value_eq value row st Hinv Hrow) as Heq.
  split; [done | ].
  intros st' Hrun.
  pose proof (display_value_preserves _ _ _ _ _ _ Hinv Hrun) as Hinv'.
  rewrite Heq in Hrun. clear Heq.
  set (v := c_mod (to_ushort value) 100) in *.
  assert (0 ≤ c_mod v 10 ≤ 9 ∧ 0 ≤ c_div v 10 ≤ 9) as [Hd1 Hd0]
    by (unfold v; c_arith).
  apply bind_inv in Hrun as (a & st1 & H1 & H0).
  pose proof (column_update_preserves _ _ _ _ _ _ Hinv H1) as Hinv1.
  pose proof (column_update_frame _ _ _ _ _ _ Hinv H1) as Hsame1.
  pose proof (column_update_frame _ _ _ _ _ _ Hinv1 H0) as Hsame0.
  split.
  - intros Hshows. unfold column_update in H1. rewrite Hshows in H1.
    injection H1 as _ <-.
    assert (untouched (row * 2 + 1) st st') as Hun
      by (apply (same_elsewhere_untouched (row * 2)); [done | lia..]).
    split; [done | ].
    apply (occupied_holds _ (c_mod v 10)); [done | | c_arith].
    rewrite (untouched_slot_digit _ _ _ Hun). by apply shows_spec.
  - intros Hshows. unfold column_update in H0. rewrite Hshows in H0.
    injection H0 as <-.
    assert (untouched (row * 2) st st1) as Hun
      by (apply (same_elsewhere_untouched (row * 2 + 1)); [done | lia..]).
    split; [done | ].
    apply (occupied_holds _ (c_div v 10)); [done | | c_arith].
    rewrite (untouched_slot_digit _ _ _ Hun). by apply shows_spec.
Qed.

(** C10.  [display_value] takes any [unsigned short] value: it reduces it
    modulo 100 first, so that displaying [value] is displaying
    [value % 100], and when the store delivers the row comes out showing
    the two digits of [value % 100] (the tens slot empty instead where the
    leading zero of row 0 is blanked). *)
Theorem display_value_reduces_modulo_100 (cs : list cache_call) (st : state)
        (value row : Z) (changed : bool) :
  run_calls cs initial_state = Done tt st → store_delivers →
  0 ≤ row ≤ 1 → 0 ≤ value < 65536 →
  display_value value row changed st
  = display_value (value mod 100) row changed st
  ∧ ∃ st', display_value value row changed st = Done tt st'
           ∧ slot_digit st' (row * 2 + 1) = Some ((value mod 100) mod 10)
           ∧ (slot_digit st' (row * 2) = Some ((value mod 100) / 10)
              ∨ (slot_digit st' (row * 2) = Some EMPTY_SLOT
                 ∧ row = 0 ∧ (value mod 100) / 10 = 0
                 ∧ zero_prefix st = false)).
Proof.
  intros Hinv%reachable_inv Hstore Hrow Hvalue.
  assert (c_mod (to_ushort value) 100 = value mod 100) as Hv by c_arith.
  split.
  - rewrite !display_value_unfold.
    assert (c_mod (to_ushort (value mod 100)) 100 = value mod 100) as -> by c_arith.
    by rewrite Hv.
  - destruct (display_value_ok value row changed st Hinv Hstore Hrow)
      as (st' & Hrun & _ & Hunits & Htens & _).
    rewrite Hv in Hunits, Htens.
    assert (c_mod (value mod 100) 10 = (value mod 100) mod 10) as Hu by c_arith.
    assert (c_div (value mod 100) 10 = (value mod 100) / 10) as Ht by c_arith.
    rewrite Hu in Hunits. rewrite Ht in Htens.
    exists st'. split_and!; [done | done | ].
    unfold column_result, blanked in Htens.
    destruct (changed || negb (shows st (row * 2) ((value mod 100) / 10)));
      simpl in Htens; [ | by left].
    destruct (zero_prefix st) eqn:Hzp; simpl in Htens; [by left | ].
    destruct (Z.eqb_spec ((value mod 100) / 10) 0) as [Hz | Hnz];
      simpl in Htens; [ | by left].
    destruct (Z.eqb_spec (row * 2) 0); simpl in Htens; [ | by left].
    right. split_and!; [done | lia | done | done].
Qed.

End CacheProofs.

(** * Concrete runs *)

Lemma slot_state_matches_assets_witness :
  ∃ s, slot_digit (@state_after store_ok [DisplayTime 14 5 false true; UnloadDigit 3]) 1
       = Some s
       ∧ (s ≠ EMPTY_SLOT
          ↔ holds_bitmap (@state_after store_ok [DisplayTime 14 5 false true; UnloadDigit 3]) 1)
       ∧ (s ≠ EMPTY_SLOT
          ↔ holds_layer (@state_after store_ok [DisplayTime 14 5 false true; UnloadDigit 3]) 1).
Proof.
  apply (@slot_state_matches_assets store_ok
           [DisplayTime 14 5 false true; UnloadDigit 3]).
  - vm_compute. reflexivity.
  - unfold TOTAL_IMAGE_SLOTS. lia.
Defined.

Lemma load_faults_when_store_fails_witness :
  @load_digit_image_into_slot store_empty 1 7 initial_state = Fault
  ∧ ∀ value row changed,
      0 ≤ row ≤ 1 → 1 = row * 2 + 1 →
      c_mod (c_mod (to_ushort value) 100) 10 = 7 →
      @display_value store_empty value row changed initial_state = Fault.
Proof.
  apply (@load_faults_when_store_fails store_empty [] initial_state 1 7).
  - vm_compute. reflexivity.
  - unfold TOTAL_IMAGE_SLOTS. lia.
  - lia.
  - vm_compute. reflexivity.
  - vm_compute. reflexivity.
Defined.

Lemma load_ignores_invalid_arguments_witness :
  @load_digit_image_into_slot store_ok 4 5 initial_state = Done tt initial_state.
Proof.
  apply (@load_ignores_invalid_arguments store_ok 4 5 initial_state).
  left. unfold TOTAL_IMAGE_SLOTS. lia.
Defined.

Lemma get_display_hour_spec_witness :
  get_display_hour true 17 = 17
  ∧ get_display_hour false 17 = (if 17 mod 12 =? 0 then 12 else 17 mod 12)
  ∧ 1 ≤ get_display_hour false 17 ≤ 12
  ∧ get_display_hour false 0 = 12
  ∧ get_display_hour false 13 = 1.
Proof. apply (get_display_hour_spec 17). lia. Defined.

Lemma app_destroy_releases_everything_witness :
  app_destroy (@state_after store_ok two_ticks_and_a_load)
  = (unload_digit_image_from_slot 0 ;; unload_digit_image_from_slot 1 ;;
     unload_digit_image_from_slot 2 ;; unload_digit_image_from_slot 3)
      (@state_after store_ok two_ticks_and_a_load)
  ∧ ∃ st', app_destroy (@state_after store_ok two_ticks_and_a_load) = Done tt st'
           ∧ (∀ i, 0 ≤ i < TOTAL_IMAGE_SLOTS → slot_digit st' i = Some EMPTY_SLOT)
           ∧ live_bitmaps st' = [] ∧ live_layers st' = []
           ∧ released_bitmaps (sdk_log st') ≡ₚ acquired_bitmaps (sdk_log st')
           ∧ NoDup (released_bitmaps (sdk_log st'))
           ∧ length (released_bitmaps (sdk_log st'))
             = length (acquired_bitmaps (sdk_log st'))
           ∧ sdk_log st'
             = sdk_log (@state_after store_ok two_ticks_and_a_load)
               ++ teardown_calls (@state_after store_ok two_ticks_and_a_load)
           ∧ acquired_bitmaps (sdk_log st')
             = acquired_bitmaps (sdk_log (@state_after store_ok two_ticks_and_a_load))
           ∧ acquired_layers (sdk_log st')
             = acquired_layers (sdk_log (@state_after store_ok two_ticks_and_a_load))
           ∧ released_bitmaps (sdk_log st')
             ≡ₚ released_bitmaps (sdk_log (@state_after store_ok two_ticks_and_a_load))
                ++ live_bitmaps (@state_after store_ok two_ticks_and_a_load)
           ∧ released_layers (sdk_log st')
             ≡ₚ released_layers (sdk_log (@state_after store_ok two_ticks_and_a_load))
                ++ live_layers (@state_after store_ok two_ticks_and_a_load)
           ∧ released_layers (sdk_log st') ≡ₚ acquired_layers (sdk_log st')
           ∧ NoDup (released_layers (sdk_log st'))
           ∧ images st' = images (@state_after store_ok two_ticks_and_a_load)
           ∧ image_layers st'
             = image_layers (@state_after store_ok two_ticks_and_a_load)
           ∧ zero_prefix st' = zero_prefix (@state_after store_ok two_ticks_and_a_load)
           ∧ next_ptr st' = next_ptr (@state_after store_ok two_ticks_and_a_load).
Proof.
  apply (@app_destroy_releases_everything store_ok two_ticks_and_a_load).
  vm_compute. reflexivity.
Defined.

(** The teardown after two displays and a load, call by call: four slots
    occupied, twelve calls, three for each slot in slot order. *)
Example teardown_calls_after_two_ticks :
  teardown_calls (@state_after store_ok two_ticks_and_a_load)
  = unload_calls 14 13 ++ unload_calls 8 7 ++ unload_calls 12 11
    ++ unload_calls 10 9.
Proof. vm_compute. reflexivity. Qed.

(** On slot 1 showing 3, a load of 7 changes nothing: the slot keeps 3,
    nothing is released, nothing is acquired. *)
Lemma load_on_occupied_slot_counterexample :
  @run_calls store_ok slot_1_shows_3 initial_state
  = Done tt (@state_after store_ok slot_1_shows_3)
  ∧ slot_digit (@state_after store_ok slot_1_shows_3) 1 = Some 3
  ∧ @load_digit_image_into_slot store_ok 1 7 (@state_after store_ok slot_1_shows_3)
    = Done tt (@state_after store_ok slot_1_shows_3)
  ∧ slot_digit (@state_after store_ok slot_1_shows_3) 1 ≠ Some 7
  ∧ released_bitmaps (sdk_log (@state_after store_ok slot_1_shows_3)) = [].
Proof. vm_compute. split_and!; done. Qed.

Lemma replacement_is_unload_then_load_witness :
  @load_digit_image_into_slot store_ok 1 7 (@state_after store_ok slot_1_shows_3)
  = Done tt (@state_after store_ok slot_1_shows_3)
  ∧ ∃ l b,
      image_layers (@state_after store_ok slot_1_shows_3) !! Z.to_nat 1 = Some l
      ∧ l ∈ live_layers (@state_after store_ok slot_1_shows_3)
      ∧ images (@state_after store_ok slot_1_shows_3) !! Z.to_nat 1 = Some b
      ∧ b ∈ live_bitmaps (@state_after store_ok slot_1_shows_3)
      ∧ (unload_digit_image_from_slot 1 ;;
         @load_digit_image_into_slot store_ok 1 7)
          (@state_after store_ok slot_1_shows_3)
        = Done tt (@loaded store_ok 1 7
                     (unloaded 1 l b (@state_after store_ok slot_1_shows_3)))
      ∧ sdk_log (@loaded store_ok 1 7
                   (unloaded 1 l b (@state_after store_ok slot_1_shows_3)))
        = sdk_log (@state_after store_ok slot_1_shows_3) ++ unload_calls l b
          ++ @load_calls store_ok 1 7 (next_ptr (@state_after store_ok slot_1_shows_3))
      ∧ slot_digit (@loaded store_ok 1 7
                      (unloaded 1 l b (@state_after store_ok slot_1_shows_3))) 1
        = Some 7
      ∧ (b ∉ live_bitmaps (@loaded store_ok 1 7
                             (unloaded 1 l b (@state_after store_ok slot_1_shows_3))))
      ∧ (l ∉ live_layers (@loaded store_ok 1 7
                            (unloaded 1 l b (@state_after store_ok slot_1_shows_3))))
      ∧ ∀ row col value changed,
          row * 2 + col = 1 → c_mod value 10 = 7 →
          blanked (zero_prefix (@state_after store_ok slot_1_shows_3)) 1 7 = false →
          @display_column store_ok row changed col value
            (@state_after store_ok slot_1_shows_3)
          = Done tt (@loaded store_ok 1 7
                       (unloaded 1 l b (@state_after store_ok slot_1_shows_3))).
Proof.
  apply (@replacement_is_unload_then_load store_ok slot_1_shows_3
           (@state_after store_ok slot_1_shows_3) 1 7 3).
  - vm_compute. reflexivity.
  - intros log rid. reflexivity.
  - unfold TOTAL_IMAGE_SLOTS. lia.
  - lia.
  - vm_compute. reflexivity.
  - unfold EMPTY_SLOT. lia.
  - lia.
Defined.

(** Slot 1 shows 3; two loads of 7 in a row acquire nothing at all: the
    only bitmap ever acquired is the one of the 3, still in the slot. *)
Lemma load_twice_same_digit_counterexample :
  slot_digit (@state_after store_ok slot_1_shows_3) 1 = Some 3
  ∧ @run_calls store_ok [LoadDigit 1 7; LoadDigit 1 7]
      (@state_after store_ok slot_1_shows_3)
    = Done tt (@state_after store_ok slot_1_shows_3)
  ∧ acquired_bitmaps (sdk_log (@state_after store_ok slot_1_shows_3)) = [1]
  ∧ sdk_log (@state_after store_ok slot_1_shows_3)
    = @load_calls store_ok 1 3 1.
Proof. vm_compute. split_and!; done. Qed.

Lemma load_twice_same_digit_witness :
  (slot_digit initial_state 1 = Some EMPTY_SLOT →
   @gbitmap_available store_ok (sdk_log initial_state)
     (@IMAGE_RESOURCE_IDS store_ok 7) = true →
   ∃ st1, @load_digit_image_into_slot store_ok 1 7 initial_state = Done tt st1
          ∧ @load_digit_image_into_slot store_ok 1 7 st1 = Done tt st1
          ∧ slot_digit st1 1 = Some 7
          ∧ acquired_bitmaps (sdk_log st1)
            = acquired_bitmaps (sdk_log initial_state) ++ [next_ptr initial_state]
          ∧ released_bitmaps (sdk_log st1) = released_bitmaps (sdk_log initial_state))
  ∧ (slot_digit initial_state 1 ≠ Some EMPTY_SLOT →
     @load_digit_image_into_slot store_ok 1 7 initial_state = Done tt initial_state)
  ∧ (∀ st1, @load_digit_image_into_slot store_ok 1 7 initial_state = Done tt st1 →
            @load_digit_image_into_slot store_ok 1 7 st1 = Done tt st1).
Proof.
  apply (@load_twice_same_digit store_ok [] initial_state 1 7).
  - vm_compute. reflexivity.
  - unfold TOTAL_IMAGE_SLOTS. lia.
  - lia.
Defined.

(** Row 0 shows 1 and 2; displaying 1 with [changed] false and
    [zero_prefix] off: both columns differ.  The units column is unloaded
    and loaded; the tens column, whose digit 0 differs from the 1 on
    screen, is unloaded only, and slot 0 ends empty, not showing 0. *)
Lemma display_value_incremental_counterexample :
  slot_digit (@state_after store_ok twelve_o_clock) 0 = Some 1
  ∧ slot_digit (@state_after store_ok twelve_o_clock) 1 = Some 2
  ∧ zero_prefix (@state_after store_ok twelve_o_clock) = false
  ∧ @display_value store_ok 1 0 false (@state_after store_ok twelve_o_clock)
    = (unload_digit_image_from_slot 1 ;;
       @load_digit_image_into_slot store_ok 1 1 ;;
       unload_digit_image_from_slot 0) (@state_after store_ok twelve_o_clock)
  ∧ @display_value store_ok 1 0 false (@state_after store_ok twelve_o_clock)
    = Done tt (@state_after store_ok (twelve_o_clock ++ [DisplayValue 1 0 false]))
  ∧ slot_digit (@state_after store_ok (twelve_o_clock ++ [DisplayValue 1 0 false])) 0
    = Some EMPTY_SLOT
  ∧ sdk_log (@state_after store_ok (twelve_o_clock ++ [DisplayValue 1 0 false]))
    = sdk_log (@state_after store_ok twelve_o_clock)
      ++ unload_calls 2 1 ++ @load_calls store_ok 1 1 5 ++ unload_calls 4 3.
Proof. vm_compute. split_and!; done. Qed.

Lemma display_value_incremental_witness :
  @display_value store_ok 59 1 false (@state_after store_ok minutes_00)
  = (@column_update store_ok (@state_after store_ok minutes_00) (1 * 2 + 1)
       (c_mod (c_mod (to_ushort 59) 100) 10) ;;
     @column_update store_ok (@state_after store_ok minutes_00) (1 * 2)
       (c_div (c_mod (to_ushort 59) 100) 10))
      (@state_after store_ok minutes_00)
  ∧ ∀ st', @display_value store_ok 59 1 false (@state_after store_ok minutes_00)
           = Done tt st' →
      (shows (@state_after store_ok minutes_00) (1 * 2 + 1)
         (c_mod (c_mod (to_ushort 59) 100) 10) = true →
       untouched (1 * 2 + 1) (@state_after store_ok minutes_00) st'
       ∧ holds_bitmap st' (1 * 2 + 1) ∧ holds_layer st' (1 * 2 + 1))
      ∧ (shows (@state_after store_ok minutes_00) (1 * 2)
           (c_div (c_mod (to_ushort 59) 100) 10) = true →
         untouched (1 * 2) (@state_after store_ok minutes_00) st'
         ∧ holds_bitmap st' (1 * 2) ∧ holds_layer st' (1 * 2)).
Proof.
  apply (@display_value_incremental store_ok minutes_00
           (@state_after store_ok minutes_00) 59 1).
  - vm_compute. reflexivity.
  - lia.
Defined.

(** The spec's example for C5: slots 2 and 3 show 0; 59 on row 1 with
    [changed] false unloads and loads slot 3 (for 9), then slot 2 (for 5),
    and makes no other SDK call. *)
Example display_value_59_on_00 :
  @display_value store_ok 59 1 false (@state_after store_ok minutes_00)
  = (unload_digit_image_from_slot 3 ;; @load_digit_image_into_slot store_ok 3 9 ;;
     unload_digit_image_from_slot 2 ;; @load_digit_image_into_slot store_ok 2 5)
      (@state_after store_ok minutes_00)
  ∧ @display_value store_ok 59 1 false (@state_after store_ok minutes_00)
    = Done tt (@state_after store_ok (minutes_00 ++ [DisplayValue 59 1 false]))
  ∧ image_slot_state (@state_after store_ok (minutes_00 ++ [DisplayValue 59 1 false]))
    = [EMPTY_SLOT; EMPTY_SLOT; 5; 9]
  ∧ sdk_log (@state_after store_ok (minutes_00 ++ [DisplayValue 59 1 false]))
    = sdk_log (@state_after store_ok minutes_00)
      ++ unload_calls 2 1 ++ @load_calls store_ok 3 9 5
      ++ unload_calls 4 3 ++ @load_calls store_ok 2 5 7.
Proof. vm_compute. split_and!; done. Qed.

(** The spec's example for C6: 7 on row 0, forced.  With [zero_prefix] off
    slot 0 is empty and slot 1 shows 7; with it on, slot 0 shows 0. *)
Example display_value_7_forced :
  image_slot_state (@state_after store_ok [DisplayValue 7 0 true])
  = [EMPTY_SLOT; 7; EMPTY_SLOT; EMPTY_SLOT]
  ∧ image_slot_state (@state_after store_ok [SetZeroPrefix true; DisplayValue 7 0 true])
    = [0; 7; EMPTY_SLOT; EMPTY_SLOT]
  ∧ image_slot_state (@state_after store_ok [DisplayValue 0 1 true])
    = [EMPTY_SLOT; EMPTY_SLOT; 0; 0].
Proof. vm_compute. split_and!; done. Qed.

(** The spec's scenario: 14:05 in 12-hour style, forced, from the initial
    state, leaves the slots as empty, 2, 0, 5. *)
Example display_time_14_05 :
  @display_time store_ok 14 5 false true initial_state
  = Done tt (@state_after store_ok [DisplayTime 14 5 false true])
  ∧ image_slot_state (@state_after store_ok [DisplayTime 14 5 false true])
    = [EMPTY_SLOT; 2; 0; 5].
Proof. vm_compute. split_and!; done. Qed.

Lemma display_value_reduces_modulo_100_witness :
  @display_value store_ok 123 1 true initial_state
  = @display_value store_ok (123 mod 100) 1 true initial_state
  ∧ ∃ st', @display_value store_ok 123 1 true initial_state = Done tt st'
           ∧ slot_digit st' (1 * 2 + 1) = Some ((123 mod 100) mod 10)
           ∧ (slot_digit st' (1 * 2) = Some ((123 mod 100) / 10)
              ∨ (slot_digit st' (1 * 2) = Some EMPTY_SLOT
                 ∧ 1 = 0 ∧ (123 mod 100) / 10 = 0
                 ∧ zero_prefix initial_state = false)).
Proof.
  apply (@display_value_reduces_modulo_100 store_ok [] initial_state 123 1 true).
  - vm_compute. reflexivity.
  - intros log rid. reflexivity.
  - lia.
  - lia.
Defined.

(** 123 is displayed as 23. *)
Example display_value_123 :
  image_slot_state (@state_after store_ok [DisplayValue 123 1 true])
  = [EMPTY_SLOT; EMPTY_SLOT; 2; 3].
Proof. vm_compute. reflexivity. Qed.

(** A store that fails loses the whole row: nothing of 57 reaches the
    screen, the run ends at the first load. *)
Example display_value_store_fails :
  @display_value store_empty 57 0 true initial_state = Fault
  ∧ @display_time store_empty 14 5 false true initial_state = Fault.
Proof. vm_compute. split_and!; done. Qed.

(** Arguments out of range are dropped without a trace. *)
Example load_invalid_arguments :
  @load_digit_image_into_slot store_ok 4 5 initial_state = Done tt initial_state
  ∧ @load_digit_image_into_slot store_ok (-1) 5 initial_state = Done tt initial_state
  ∧ @load_digit_image_into_slot store_ok 0 10 initial_state = Done tt initial_state
  ∧ @load_digit_image_into_slot store_ok 0 (-1) initial_state = Done tt initial_state.
Proof. vm_compute. split_and!; done. Qed.

(** * More about the slot cache *)

Section CacheMore.
Context `{Pebble}.

Lemma four_slots (l : list Z) (a b c d : Z) :
  length l = 4%nat →
  l !! 0%nat = Some a → l !! 1%nat = Some b →
  l !! 2%nat = Some c → l !! 3%nat = Some d →
  l = [a; b; c; d].
Proof.
  destruct l as [ | a' [ | b' [ | c' [ | d' [ | e l]]]]]; try done.
  by intros _ [= ->] [= ->] [= ->] [= ->].
Qed.

Lemma slot_digit_lookup (st : state) (i : nat) (s : Z) :
  slot_digit st (Z.of_nat i) = Some s → image_slot_state st !! i = Some s.
Proof. intros [_ Hs]%slot_digit_Some. by rewrite Nat2Z.id in Hs. Qed.

(** A row that already shows what is asked for: nothing happens. *)
Lemma display_value_noop (value row : Z) (st : state) :
  cache_inv st → 0 ≤ row ≤ 1 →
  slot_digit st (row * 2 + 1) = Some (c_mod (c_mod (to_ushort value) 100) 10) →
  slot_digit st (row * 2) = Some (c_div (c_mod (to_ushort value) 100) 10)
  ∨ (slot_digit st (row * 2) = Some EMPTY_SLOT
     ∧ blanked (zero_prefix st) (row * 2)
         (c_div (c_mod (to_ushort value) 100) 10) = true) →
  display_value value row false st = Done tt st.
Proof.
  intros Hinv Hrow Hunits Htens. rewrite display_value_eq by done.
  set (v := c_mod (to_ushort value) 100) in *.
  assert (column_update st (row * 2 + 1) (c_mod v 10) st = Done tt st) as H1.
  { unfold column_update. by rewrite (proj2 (shows_spec _ _ _) Hunits). }
  rewrite (bind_Done _ _ _ _ _ H1). unfold column_update.
  destruct Htens as [Htens | [Htens Hblank]].
  - by rewrite (proj2 (shows_spec _ _ _) Htens).
  - destruct (shows st (row * 2) (c_div v 10)); [done | ].
    apply slot_digit_Some in Htens as [Hslot Htens].
    rewrite (bind_Done _ _ _ _ _ (unload_empty _ _ Hslot Htens)).
    by rewrite Hblank.
Qed.

Lemma column_result_cases (st : state) (changed : bool) (slot digit : Z) :
  column_result st changed slot digit = digit
  ∨ (column_result st changed slot digit = EMPTY_SLOT
     ∧ blanked (zero_prefix st) slot digit = true).
Proof.
  unfold column_result.
  destruct (changed || negb (shows st slot digit)); simpl; [ | by left].
  destruct (blanked (zero_prefix st) slot digit); [by right | by left].
Qed.

(** X2.  [unload_digit_image_from_slot] checks nothing: a slot number
    outside 0..3 makes it read [image_slot_state] out of bounds, where
    [load_digit_image_into_slot] with the same number returns untouched. *)
Theorem unload_out_of_range_faults (cs : list cache_call) (st : state) (slot : Z) :
  run_calls cs initial_state = Done tt st →
  ¬ (0 ≤ slot < TOTAL_IMAGE_SLOTS) →
  unload_digit_image_from_slot slot st = Fault
  ∧ ∀ digit, load_digit_image_into_slot slot digit st = Done tt st.
Proof.
  intros Hinv%reachable_inv Hslot. split.
  - apply unload_out_of_bounds. unfold slot_digit.
    destruct (Z.leb_spec 0 slot); [ | done].
    apply lookup_ge_None. rewrite (inv_len_state _ Hinv). c_arith.
  - intros digit. apply load_invalid. tauto.
Qed.

(** X3.  Unloading is idempotent: on a slot in range it always returns, a
    second unload changes nothing, and on a slot that is empty already the
    first changes nothing either. *)
Theorem unload_twice (cs : list cache_call) (st : state) (slot : Z) :
  run_calls cs initial_state = Done tt st →
  0 ≤ slot < TOTAL_IMAGE_SLOTS →
  ∃ st', unload_digit_image_from_slot slot st = Done tt st'
         ∧ unload_digit_image_from_slot slot st' = Done tt st'
         ∧ slot_digit st' slot = Some EMPTY_SLOT
         ∧ (slot_digit st slot = Some EMPTY_SLOT → st' = st).
Proof.
  intros Hinv%reachable_inv Hslot.
  destruct (unload_ok slot st Hinv Hslot) as (st' & Hu & _ & Hs & _).
  exists st'. pose proof Hs as [Hs0 Hs']%slot_digit_Some.
  split_and!; [done | by apply unload_empty | done | ].
  intros [_ Hempty]%slot_digit_Some.
  rewrite unload_empty in Hu by done. by injection Hu.
Qed.

(** X4.  [display_value] has rows 0 and 1 only: any other row number makes
    it index the slot arrays out of bounds, at the first column already. *)
Theorem display_value_row_out_of_range (cs : list cache_call) (st : state)
        (value row : Z) (changed : bool) :
  run_calls cs initial_state = Done tt st →
  2 ≤ to_ushort row →
  display_value value row changed st = Fault.
Proof.
  intros Hinv%reachable_inv Hrow. rewrite display_value_unfold.
  apply bind_Fault. rewrite display_column_eq by done.
  assert (slot_digit st (to_ushort row * 2 + 1) = None) as Hnone.
  { unfold slot_digit. destruct (Z.leb_spec 0 (to_ushort row * 2 + 1)); [ | done].
    apply lookup_ge_None. rewrite (inv_len_state _ Hinv). lia. }
  unfold shows. rewrite Hnone, bool_decide_eq_false_2 by done.
  rewrite orb_true_r. apply bind_Fault. by apply unload_out_of_bounds.
Qed.

(** X5.  Displaying again what is on screen costs nothing: after a
    [display_time], forced or not, the same time displayed with [changed]
    false makes no SDK call and leaves the state as it is. *)
Theorem display_time_again_is_free (cs : list cache_call) (st : state)
        (tm_hour tm_min : Z) (c24 changed : bool) :
  run_calls cs initial_state = Done tt st → store_delivers →
  ∃ st', display_time tm_hour tm_min c24 changed st = Done tt st'
         ∧ display_time tm_hour tm_min c24 false st' = Done tt st'.
Proof.
  intros Hinv%reachable_inv Hstore. unfold display_time.
  set (hh := get_display_hour c24 tm_hour).
  destruct (display_value_ok hh 0 changed st Hinv Hstore)
    as (st1 & H1 & Hinv1 & Hu1 & Ht1 & Hzp1 & _); [lia | ].
  destruct (display_value_ok tm_min 1 changed st1 Hinv1 Hstore)
    as (st2 & H2 & Hinv2 & Hu2 & Ht2 & Hzp2 & Hrest); [lia | ].
  exists st2. rewrite (bind_Done _ _ _ _ _ H1). split; [done | ].
  assert (display_value hh 0 false st2 = Done tt st2) as Hagain1.
  { apply display_value_noop; [done | lia | | ];
      change (0 * 2 + 1) with 1 in *; change (0 * 2) with 0 in *.
    - by rewrite (Hrest 1) by lia.
    - rewrite (Hrest 0) by lia. rewrite Ht1.
      replace (zero_prefix st2) with (zero_prefix st) by congruence.
      destruct (column_result_cases st changed 0
                  (c_div (c_mod (to_ushort hh) 100) 10)) as [-> | [-> Hb]];
        [by left | by right]. }
  rewrite (bind_Done _ _ _ _ _ Hagain1).
  apply display_value_noop; [done | lia | done | ].
  rewrite Ht2. replace (zero_prefix st2) with (zero_prefix st1) by congruence.
  destruct (column_result_cases st1 changed (1 * 2)
              (c_div (c_mod (to_ushort tm_min) 100) 10)) as [-> | [-> Hb]];
    [by left | by right].
Qed.

(** X6.  The cache never has more than four bitmaps and four layers
    allocated, whatever was displayed before. *)
Theorem at_most_four_loaded (cs : list cache_call) (st : state) :
  run_calls cs initial_state = Done tt st →
  (length (live_bitmaps st) ≤ 4)%nat ∧ (length (live_layers st) ≤ 4)%nat.
Proof.
  intros Hinv%reachable_inv. split.
  - rewrite <- (inv_len_images _ Hinv). apply submseteq_length, NoDup_submseteq.
    + eapply accounted_live_nodup, inv_bitmap_books, Hinv.
    + intros p Hp.
      destruct (owns_all _ _ _ (inv_bitmaps _ Hinv) p Hp) as (i & _ & Hi).
      by eapply list_elem_of_lookup_2.
  - rewrite <- (inv_len_layers _ Hinv). apply submseteq_length, NoDup_submseteq.
    + eapply accounted_live_nodup, inv_layer_books, Hinv.
    + intros p Hp.
      destruct (owns_all _ _ _ (inv_layers _ Hinv) p Hp) as (i & _ & Hi).
      by eapply list_elem_of_lookup_2.
Qed.

Lemma get_display_hour_range (c24 : bool) (hour : Z) :
  0 ≤ hour ≤ 23 → 0 ≤ get_display_hour c24 hour ≤ 23.
Proof.
  intros Hhour. unfold get_display_hour.
  assert (to_ushort hour = hour) as -> by c_arith.
  destruct c24; [done | ].
  destruct (Z.eqb_spec (c_mod hour 12) 0); simpl; c_arith.
Qed.

End CacheMore.

(** ** Concrete runs for the properties above *)

Lemma unload_out_of_range_faults_witness :
  unload_digit_image_from_slot 4 (@state_after store_ok two_ticks_and_a_load) = Fault
  ∧ ∀ digit, @load_digit_image_into_slot store_ok 4 digit
               (@state_after store_ok two_ticks_and_a_load)
             = Done tt (@state_after store_ok two_ticks_and_a_load).
Proof.
  apply (@unload_out_of_range_faults store_ok two_ticks_and_a_load).
  - vm_compute. reflexivity.
  - unfold TOTAL_IMAGE_SLOTS. lia.
Defined.

Lemma unload_twice_witness :
  ∃ st', unload_digit_image_from_slot 1 (@state_after store_ok two_ticks_and_a_load)
         = Done tt st'
         ∧ unload_digit_image_from_slot 1 st' = Done tt st'
         ∧ slot_digit st' 1 = Some EMPTY_SLOT
         ∧ (slot_digit (@state_after store_ok two_ticks_and_a_load) 1 = Some EMPTY_SLOT →
            st' = @state_after store_ok two_ticks_and_a_load).
Proof.
  apply (@unload_twice store_ok two_ticks_and_a_load).
  - vm_compute. reflexivity.
  - unfold TOTAL_IMAGE_SLOTS. lia.
Defined.

Lemma display_value_row_out_of_range_witness :
  @display_value store_ok 5 2 false (@state_after store_ok two_ticks_and_a_load)
  = Fault.
Proof.
  apply (@display_value_row_out_of_range store_ok two_ticks_and_a_load).
  - vm_compute. reflexivity.
  - vm_compute. discriminate.
Defined.

Lemma display_time_again_is_free_witness :
  ∃ st', @display_time store_ok 9 5 false true
           (@state_after store_ok two_ticks_and_a_load) = Done tt st'
         ∧ @display_time store_ok 9 5 false false st' = Done tt st'.
Proof.
  apply (@display_time_again_is_free store_ok two_ticks_and_a_load).
  - vm_compute. reflexivity.
  - intros log rid. reflexivity.
Defined.

Lemma at_most_four_loaded_witness :
  (length (live_bitmaps (@state_after store_ok two_ticks_and_a_load)) ≤ 4)%nat
  ∧ (length (live_layers (@state_after store_ok two_ticks_and_a_load)) ≤ 4)%nat.
Proof.
  apply (@at_most_four_loaded store_ok two_ticks_and_a_load).
  vm_compute. reflexivity.
Defined.

(** * The slot cache inside a larger heap

    The lemmas on [display_value] above rest on [cache_inv], which says
    that every bitmap and layer alive belongs to a slot.  In the whole
    watch face the indicators hold bitmaps and layers too.  What the cache
    needs is less: that its arrays have four entries, that an occupied slot
    points to live objects, and that whatever else is to be kept is kept by
    a load into an empty slot and by an unload of an occupied one. *)

Section Framed.
Context `{Pebble}.
Variable I : state → Prop.
Hypothesis I_len : ∀ st, I st →
  length (image_slot_state st) = 4%nat ∧ length (images st) = 4%nat
  ∧ length (image_layers st) = 4%nat.
Hypothesis I_live : ∀ st k s l b, I st →
  image_slot_state st !! k = Some s → s ≠ EMPTY_SLOT →
  image_layers st !! k = Some l → images st !! k = Some b →
  l ∈ live_layers st ∧ b ∈ live_bitmaps st.
Hypothesis I_loaded : ∀ st slot digit, I st →
  0 ≤ slot < TOTAL_IMAGE_SLOTS →
  image_slot_state st !! Z.to_nat slot = Some EMPTY_SLOT →
  digit ≠ EMPTY_SLOT →
  I (loaded slot digit st).
Hypothesis I_unloaded : ∀ st slot s l b, I st →
  0 ≤ slot →
  image_slot_state st !! Z.to_nat slot = Some s → s ≠ EMPTY_SLOT →
  image_layers st !! Z.to_nat slot = Some l →
  images st !! Z.to_nat slot = Some b →
  I (unloaded slot l b st).

Lemma framed_lookup (slot : Z) (st : state) :
  I st → 0 ≤ slot < TOTAL_IMAGE_SLOTS →
  ∃ s l b, image_slot_state st !! Z.to_nat slot = Some s
           ∧ image_layers st !! Z.to_nat slot = Some l
           ∧ images st !! Z.to_nat slot = Some b.
Proof.
  intros (Hs & Hi & Hl)%I_len Hslot. unfold TOTAL_IMAGE_SLOTS in Hslot.
  destruct (lookup_lt_is_Some_2 (image_slot_state st) (Z.to_nat slot)) as [s ?];
    [lia | ].
  destruct (lookup_lt_is_Some_2 (image_layers st) (Z.to_nat slot)) as [l ?];
    [lia | ].
  destruct (lookup_lt_is_Some_2 (images st) (Z.to_nat slot)) as [b ?];
    [lia | ].
  by exists s, l, b.
Qed.

Lemma framed_unload_ok (slot : Z) (st : state) :
  I st → 0 ≤ slot < TOTAL_IMAGE_SLOTS →
  ∃ st', unload_digit_image_from_slot slot st = Done tt st'
         ∧ I st'
         ∧ slot_digit st' slot = Some EMPTY_SLOT
         ∧ same_elsewhere slot st st'.
Proof.
  intros Hinv Hslot.
  destruct (framed_lookup slot st Hinv Hslot) as (s & l & b & Hs & Hl & Hb).
  destruct (decide (s = EMPTY_SLOT)) as [-> | Hne].
  - exists st. rewrite unload_empty by (done || lia).
    split_and!; [done | done | | apply same_elsewhere_refl].
    apply slot_digit_Some. split; [lia | done].
  - destruct (I_live st _ s l b Hinv Hs Hne Hl Hb) as [Hll Hlb].
    exists (unloaded slot l b st).
    rewrite (unload_occupied slot s l b st) by (done || lia).
    split_and!; [done | | | apply same_elsewhere_unloaded].
    + eapply I_unloaded; [done | lia | done..].
    + apply slot_digit_unloaded; [lia | by eapply lookup_lt_Some].
Qed.

Lemma framed_load_ok (slot digit : Z) (st : state) :
  I st → 0 ≤ slot < TOTAL_IMAGE_SLOTS → 0 ≤ digit ≤ 9 →
  slot_digit st slot = Some EMPTY_SLOT →
  gbitmap_available (sdk_log st) (IMAGE_RESOURCE_IDS digit) = true →
  load_digit_image_into_slot slot digit st = Done tt (loaded slot digit st)
  ∧ I (loaded slot digit st)
  ∧ slot_digit (loaded slot digit st) slot = Some digit
  ∧ same_elsewhere slot st (loaded slot digit st).
Proof.
  intros Hinv Hslot Hdigit [_ Hs]%slot_digit_Some Hav.
  destruct (framed_lookup slot st Hinv Hslot) as (s & l & b & Hs' & Hl & Hb).
  apply lookup_lt_Some in Hl, Hb, Hs'.
  split_and!.
  - by apply load_empty_ok.
  - apply I_loaded; [done | done | done | unfold EMPTY_SLOT; lia].
  - apply slot_digit_loaded; [lia | done].
  - apply same_elsewhere_loaded.
Qed.

Lemma framed_display_column_ok (row : Z) (changed : bool) (col value : Z)
      (st : state) :
  I st → store_delivers →
  0 ≤ row * 2 + col < TOTAL_IMAGE_SLOTS → 0 ≤ c_mod value 10 ≤ 9 →
  ∃ st', display_column row changed col value st = Done tt st'
         ∧ I st'
         ∧ slot_digit st' (row * 2 + col)
           = Some (column_result st changed (row * 2 + col) (c_mod value 10))
         ∧ same_elsewhere (row * 2 + col) st st'.
Proof.
  intros Hinv Hstore Hslot Hdigit. unfold display_column, column_result.
  set (slot := row * 2 + col) in *. set (digit := c_mod value 10) in *.
  destruct (framed_lookup slot st Hinv Hslot) as (s & l & b & Hs & _ & _).
  assert (slot_digit st slot = Some s) as Hsd
    by (apply slot_digit_Some; split; [lia | done]).
  assert ((if changed then ret true
           else s0 <- array_get image_slot_state slot ;; ret (negb (digit =? s0))) st
          = Done (changed || negb (shows st slot digit)) st) as Hrefresh.
  { destruct changed; [done | ]. simpl.
    erewrite bind_Done by (apply array_get_Done; [lia | done]).
    unfold ret, shows. rewrite Hsd. do 2 f_equal.
    destruct (Z.eqb_spec digit s) as [-> | Hne].
    - by rewrite bool_decide_eq_true_2.
    - rewrite bool_decide_eq_false_2; [done | congruence]. }
  rewrite (bind_Done _ _ _ _ _ Hrefresh).
  destruct (changed || negb (shows st slot digit)) eqn:Hr; simpl.
  - destruct (framed_unload_ok slot st Hinv Hslot) as (st1 & Hu & Hinv1 & Hs1 & Hsame1).
    rewrite (bind_Done _ _ _ _ _ Hu). unfold bind at 1, gets at 1.
    destruct Hsame1 as [Hzp Hsame1]. rewrite Hzp. unfold blanked.
    destruct (zero_prefix st || negb (digit =? 0) || negb (slot =? 0)); simpl.
    + destruct (framed_load_ok slot digit st1 Hinv1 Hslot Hdigit Hs1 (Hstore _ _))
        as (Hl & Hinv2 & Hs2 & Hsame2).
      exists (loaded slot digit st1). split_and!; [done | done | done | ].
      by eapply same_elsewhere_trans.
    + exists st1. by split_and!.
  - exists st. split_and!; [done | done | | apply same_elsewhere_refl].
    apply orb_false_iff in Hr as [_ Hshows].
    apply negb_false_iff in Hshows. by apply shows_spec.
Qed.

Lemma framed_display_value_ok (value row : Z) (changed : bool) (st : state) :
  I st → store_delivers → 0 ≤ row ≤ 1 →
  ∃ st', display_value value row changed st = Done tt st'
         ∧ I st'
         ∧ slot_digit st' (row * 2 + 1)
           = Some (c_mod (c_mod (to_ushort value) 100) 10)
         ∧ slot_digit st' (row * 2)
           = Some (column_result st changed (row * 2)
                     (c_div (c_mod (to_ushort value) 100) 10))
         ∧ zero_prefix st' = zero_prefix st
         ∧ ∀ j, 0 ≤ j → j ≠ row * 2 → j ≠ row * 2 + 1 →
                slot_digit st' j = slot_digit st j.
Proof.
  intros Hinv Hstore Hrow. rewrite display_value_unfold.
  assert (to_ushort row = row) as -> by c_arith.
  set (v := c_mod (to_ushort value) 100).
  assert (0 ≤ v < 100) as Hv by (unfold v; c_arith).
  assert (c_mod (c_div v 10) 10 = c_div v 10) as Htens by c_arith.
  destruct (framed_display_column_ok row changed 1 v st Hinv Hstore)
    as (st1 & H1 & Hinv1 & Hs1 & Hsame1); [c_arith | c_arith | ].
  destruct (framed_display_column_ok row changed 0 (c_div v 10) st1 Hinv1 Hstore)
    as (st2 & H2 & Hinv2 & Hs2 & Hsame2); [c_arith | c_arith | ].
  rewrite Z.add_0_r in *. rewrite Htens in Hs2.
  exists st2. rewrite (bind_Done _ _ _ _ _ H1). split_and!; [done | done | | | | ].
  - rewrite (same_elsewhere_slot_digit (row * 2) _ st1 st2) by (done || lia).
    rewrite Hs1. f_equal. unfold column_result, blanked.
    destruct (Z.eqb_spec (row * 2 + 1) 0); [lia | ].
    by rewrite !orb_true_r, andb_false_r.
  - rewrite Hs2. f_equal.
    apply (column_result_same (row * 2 + 1)); [done | lia..].
  - destruct Hsame1 as [Hz1 _], Hsame2 as [Hz2 _]. congruence.
  - intros j Hj Hj0 Hj1.
    rewrite (same_elsewhere_slot_digit (row * 2) _ st1 st2) by (done || lia).
    by rewrite (same_elsewhere_slot_digit (row * 2 + 1) _ st st1) by (done || lia).
Qed.

(** [display_time] for any hour and minute: it returns, and a slot 0
    that was not showing a blankable 0 does not show one afterwards. *)
Lemma framed_display_time_ok (tm_hour tm_min : Z) (c24 changed : bool)
      (st : state) :
  I st → store_delivers →
  changed = true ∨ no_leading_zero st →
  ∃ st', display_time tm_hour tm_min c24 changed st = Done tt st'
         ∧ I st' ∧ no_leading_zero st'
         ∧ zero_prefix st' = zero_prefix st.
Proof.
  intros Hinv Hstore Hpre. unfold display_time.
  destruct (framed_display_value_ok (get_display_hour c24 tm_hour) 0 changed st Hinv Hstore)
    as (st1 & H1 & Hinv1 & _ & Htens & Hzp1 & _); [lia | ].
  destruct (framed_display_value_ok tm_min 1 changed st1 Hinv1 Hstore)
    as (st2 & H2 & Hinv2 & _ & _ & Hzp2 & Hrest); [lia | ].
  exists st2. rewrite (bind_Done _ _ _ _ _ H1).
  split_and!; [done | done | | congruence].
  intros Hoff. rewrite (Hrest 0) by lia. change (0 * 2) with 0 in Htens.
  rewrite Htens. intros [= Hzero]. revert Hzero.
  assert (zero_prefix st = false) as Hoff0 by congruence.
  unfold column_result, blanked. rewrite Hoff0. simpl.
  set (tens := c_div (c_mod (to_ushort (get_display_hour c24 tm_hour)) 100) 10).
  rewrite orb_false_r, negb_involutive.
  destruct (Z.eqb_spec tens 0) as [Hz | Hnz]; [ | by rewrite andb_false_r].
  rewrite andb_true_r, Hz.
  destruct Hpre as [-> | Hpre]; [done | ].
  destruct (shows st 0 0) eqn:Hshows; [ | by rewrite orb_true_r].
  exfalso. apply (Hpre Hoff0). by apply shows_spec.
Qed.

(** The same for a time of day, with what the four slots then hold. *)
Lemma framed_display_time_shows (tm_hour tm_min : Z) (c24 changed : bool)
      (st : state) :
  I st → store_delivers →
  0 ≤ tm_hour ≤ 23 → 0 ≤ tm_min ≤ 59 →
  changed = true ∨ no_leading_zero st →
  ∀ st', display_time tm_hour tm_min c24 changed st = Done tt st' →
         image_slot_state st' = time_digits (zero_prefix st) c24 tm_hour tm_min.
Proof.
  intros Hinv Hstore Hhour Hmin Hpre st'. unfold display_time, time_digits.
  pose proof (get_display_hour_range c24 tm_hour Hhour) as Hhh.
  set (hh := get_display_hour c24 tm_hour) in *.
  destruct (framed_display_value_ok hh 0 changed st Hinv Hstore)
    as (st1 & H1 & Hinv1 & Hu1 & Ht1 & Hzp1 & _); [lia | ].
  destruct (framed_display_value_ok tm_min 1 changed st1 Hinv1 Hstore)
    as (st2 & H2 & Hinv2 & Hu2 & Ht2 & Hzp2 & Hrest); [lia | ].
  rewrite (bind_Done _ _ _ _ _ H1), H2. intros [= <-].
  change (0 * 2 + 1) with 1 in *. change (0 * 2) with 0 in *.
  change (1 * 2 + 1) with 3 in *. change (1 * 2) with 2 in *.
  assert (c_mod (c_mod (to_ushort hh) 100) 10 = hh mod 10) as Ea by c_arith.
  assert (c_div (c_mod (to_ushort hh) 100) 10 = hh / 10) as Eb by c_arith.
  assert (c_mod (c_mod (to_ushort tm_min) 100) 10 = tm_min mod 10) as Ec by c_arith.
  assert (c_div (c_mod (to_ushort tm_min) 100) 10 = tm_min / 10) as Ed by c_arith.
  rewrite Ea in Hu1. rewrite Eb in Ht1. rewrite Ec in Hu2. rewrite Ed in Ht2.
  apply four_slots.
  - apply (I_len _ Hinv2).
  - apply (slot_digit_lookup st2 0); change (Z.of_nat 0) with 0.
    rewrite (Hrest 0) by lia. rewrite Ht1.
    f_equal. unfold column_result, blanked. simpl.
    rewrite orb_false_r, negb_orb, negb_involutive.
    destruct (Z.eqb_spec (hh / 10) 0) as [Hz | Hnz];
      [ | by rewrite andb_false_r, andb_false_r].
    rewrite Hz. destruct (zero_prefix st) eqn:Hzp; simpl;
      [by rewrite andb_false_r | ].
    rewrite andb_true_r.
    destruct Hpre as [-> | Hpre]; [done | ].
    destruct (shows st 0 0) eqn:Hshows; [ | by rewrite orb_true_r].
    exfalso. apply (Hpre Hzp). by apply shows_spec.
  - apply (slot_digit_lookup st2 1); change (Z.of_nat 1) with 1.
    by rewrite (Hrest 1) by lia.
  - apply (slot_digit_lookup st2 2); change (Z.of_nat 2) with 2.
    rewrite Ht2. f_equal. unfold column_result, blanked. simpl.
    by rewrite !orb_true_r, andb_false_r.
  - by apply (slot_digit_lookup st2 3).
Qed.

Lemma framed_app_destroy_ok (st : state) :
  I st →
  ∃ st', app_destroy st = Done tt st'
         ∧ I st'
         ∧ zero_prefix st' = zero_prefix st
         ∧ ∀ i, 0 ≤ i < TOTAL_IMAGE_SLOTS → slot_digit st' i = Some EMPTY_SLOT.
Proof.
  intros Hinv. rewrite app_destroy_unfold.
  destruct (framed_unload_ok 0 st Hinv) as (st1 & Hu1 & Hinv1 & Hs1 & Hsame1); [c_arith | ].
  destruct (framed_unload_ok 1 st1 Hinv1) as (st2 & Hu2 & Hinv2 & Hs2 & Hsame2); [c_arith | ].
  destruct (framed_unload_ok 2 st2 Hinv2) as (st3 & Hu3 & Hinv3 & Hs3 & Hsame3); [c_arith | ].
  destruct (framed_unload_ok 3 st3 Hinv3) as (st4 & Hu4 & Hinv4 & Hs4 & Hsame4); [c_arith | ].
  exists st4.
  rewrite (bind_Done _ _ _ _ _ Hu1), (bind_Done _ _ _ _ _ Hu2), (bind_Done _ _ _ _ _ Hu3).
  split_and!; [done | done | | ].
  { destruct Hsame1 as [? _], Hsame2 as [? _], Hsame3 as [? _], Hsame4 as [? _].
    congruence. }
  intros i Hi.
  assert (i = 0 ∨ i = 1 ∨ i = 2 ∨ i = 3) as [-> | [-> | [-> | ->]]] by c_arith.
  - rewrite (same_elsewhere_slot_digit 3 0 st3 st4) by (done || lia).
    rewrite (same_elsewhere_slot_digit 2 0 st2 st3) by (done || lia).
    by rewrite (same_elsewhere_slot_digit 1 0 st1 st2) by (done || lia).
  - rewrite (same_elsewhere_slot_digit 3 1 st3 st4) by (done || lia).
    by rewrite (same_elsewhere_slot_digit 2 1 st2 st3) by (done || lia).
  - by rewrite (same_elsewhere_slot_digit 3 2 st3 st4) by (done || lia).
  - done.
Qed.
End Framed.

(** * The whole watch face *)

Module FaceFacts.
(* The slot loop of [app_destroy], before [Face.app_destroy] takes the name. *)
Local Abbreviation unload_all_slots := app_destroy.
Import Face.
Local Open Scope face_scope.

(** ** The monad *)

Lemma fbind_Ok {A B} (m : F A) (k : A → F B) (a a' : face) (x : A) :
  m a = Ok x a' → fbind m k a = k x a'.
Proof. intros Hm. unfold fbind. by rewrite Hm. Qed.

Lemma fbind_Crash {A B} (m : F A) (k : A → F B) (a : face) :
  m a = Crash → fbind m k a = Crash.
Proof. intros Hm. unfold fbind. by rewrite Hm. Qed.

Lemma lift_Done {A} (m : M A) (a : face) (x : A) (st : state) :
  m (cache a) = Done x st → lift m a = Ok x (set_cache st a).
Proof. intros Hm. unfold lift. by rewrite Hm. Qed.

(** ** The pointers of the occupied slots *)

Lemma occ_elem (states arr : list Z) (k : nat) (s b : Z) :
  states !! k = Some s → s ≠ EMPTY_SLOT → arr !! k = Some b →
  b ∈ occ states arr.
Proof.
  intros Hs Hne Hb. unfold occ. apply list_elem_of_omap.
  exists (s, b). split.
  - apply list_elem_of_lookup. exists k. by apply lookup_zip_with_Some; eauto.
  - simpl. by destruct (decide (s = EMPTY_SLOT)).
Qed.

Lemma occ_load (states arr : list Z) (k : nat) (d p : Z) :
  states !! k = Some EMPTY_SLOT → (k < length arr)%nat → d ≠ EMPTY_SLOT →
  occ (<[k:=d]> states) (<[k:=p]> arr) ≡ₚ p :: occ states arr.
Proof.
  revert arr k. induction states as [ | s states IH]; intros arr k Hs Hk Hd;
    [done | ].
  destruct arr as [ | b arr]; [simpl in Hk; lia | ].
  destruct k as [ | k]; simpl in *.
  - injection Hs as ->. unfold occ. simpl.
    destruct (decide (d = EMPTY_SLOT)); [done | ].
    by destruct (decide (EMPTY_SLOT = EMPTY_SLOT)).
  - specialize (IH arr k Hs ltac:(lia) Hd). unfold occ in *. simpl.
    destruct (decide (s = EMPTY_SLOT)); [done | ].
    rewrite IH. apply Permutation_swap.
Qed.

Lemma occ_unload (states arr : list Z) (k : nat) (s b : Z) :
  states !! k = Some s → s ≠ EMPTY_SLOT → arr !! k = Some b →
  occ states arr ≡ₚ b :: occ (<[k:=EMPTY_SLOT]> states) arr.
Proof.
  revert arr k. induction states as [ | s' states IH]; intros arr k Hs Hne Hb;
    [done | ].
  destruct arr as [ | b' arr]; [done | ].
  destruct k as [ | k]; simpl in *.
  - injection Hs as ->. injection Hb as ->. unfold occ. simpl.
    destruct (decide (s = EMPTY_SLOT)); [done | ].
    by destruct (decide (EMPTY_SLOT = EMPTY_SLOT)).
  - specialize (IH arr k Hs Hne Hb). unfold occ in *. simpl.
    destruct (decide (s' = EMPTY_SLOT)); [done | ].
    rewrite IH. apply Permutation_swap.
Qed.

(** Taking one owned pointer out of the live ones. *)
Lemma owned_release (owned owned' live : list Z) (b : Z) :
  owned ≡ₚ b :: owned' → NoDup owned →
  (∀ p, p ∈ owned → p ∈ live) →
  NoDup owned' ∧ ∀ p, p ∈ owned' → p ∈ filter (λ q, q ≠ b) live.
Proof.
  intros Hperm Hnd Hlive. rewrite Hperm in Hnd.
  apply NoDup_cons in Hnd as [Hb Hnd]. split; [done | ].
  intros p Hp. apply list_elem_of_filter. split; [by intros -> | ].
  apply Hlive. rewrite Hperm. by right.
Qed.

(** Adding a new pointer to the owned ones. *)
Lemma owned_acquire (owned owned' live : list Z) (p : Z) :
  owned' ≡ₚ p :: owned → NoDup owned →
  (∀ q, q ∈ owned → q ∈ live) → p ∉ live →
  NoDup owned' ∧ ∀ q, q ∈ owned' → q ∈ p :: live.
Proof.
  intros Hperm Hnd Hlive Hp. split.
  - rewrite Hperm. apply NoDup_cons. split; [ | done]. by intros ?%Hlive.
  - intros q. rewrite Hperm, !elem_of_cons. naive_solver.
Qed.

Section Handlers.
Context `{Pebble} `{Resources}.

Lemma set_cache_id (a : face) : set_cache (cache a) a = a.
Proof. by destruct a. Qed.

(** ** The invariant under the slot cache's own steps *)

Lemma face_inv_loaded (a : face) (st : state) (slot digit : Z) :
  face_inv (set_cache st a) →
  image_slot_state st !! Z.to_nat slot = Some EMPTY_SLOT →
  digit ≠ EMPTY_SLOT →
  face_inv (set_cache (loaded slot digit st) a).
Proof.
  intros [Hls Hli Hll Hld Hdays Hnext Hlb Hlyl Hlt Hob Hobl Hol Holl
            Hbp Hbv Hpp Hpv] Hs Hd.
  unfold owned_bitmaps, owned_layers in *. simpl in *.
  assert (Z.to_nat slot < 4)%nat as Hk by (rewrite <- Hls; by eapply lookup_lt_Some).
  destruct (owned_acquire
              (occ (image_slot_state st) (images st)
               ++ some_ptr (bluetooth_image a) ++ some_ptr (power_image a))
              (occ (<[Z.to_nat slot:=digit]> (image_slot_state st))
                   (<[Z.to_nat slot:=next_ptr st]> (images st))
               ++ some_ptr (bluetooth_image a) ++ some_ptr (power_image a))
              (live_bitmaps st) (next_ptr st)) as [Hob' Hobl']; [ | done | done | | ].
  { rewrite occ_load by (done || lia). done. }
  { intros Hp%Hlb. lia. }
  destruct (owned_acquire
              (occ (image_slot_state st) (image_layers st)
               ++ some_ptr (bluetooth_layer a) ++ some_ptr (power_layer a))
              (occ (<[Z.to_nat slot:=digit]> (image_slot_state st))
                   (<[Z.to_nat slot:=next_ptr st + 1]> (image_layers st))
               ++ some_ptr (bluetooth_layer a) ++ some_ptr (power_layer a))
              (live_layers st) (next_ptr st + 1)) as [Hol' Holl']; [ | done | done | | ].
  { rewrite occ_load by (done || lia). done. }
  { intros Hp%Hlyl. lia. }
  split; unfold owned_bitmaps, owned_layers; simpl; try done.
  - by rewrite length_insert.
  - by rewrite length_insert.
  - by rewrite length_insert.
  - lia.
  - intros p [-> | Hp%Hlb]%elem_of_cons; lia.
  - intros p [-> | Hp%Hlyl]%elem_of_cons; lia.
  - intros p Hp%Hlt. lia.
Qed.

Lemma face_inv_unloaded (a : face) (st : state) (slot s l b : Z) :
  face_inv (set_cache st a) →
  image_slot_state st !! Z.to_nat slot = Some s → s ≠ EMPTY_SLOT →
  image_layers st !! Z.to_nat slot = Some l →
  images st !! Z.to_nat slot = Some b →
  face_inv (set_cache (unloaded slot l b st) a).
Proof.
  intros [Hls Hli Hll Hld Hdays Hnext Hlb Hlyl Hlt Hob Hobl Hol Holl
            Hbp Hbv Hpp Hpv] Hs Hne Hl Hb.
  unfold owned_bitmaps, owned_layers in *. simpl in *.
  destruct (owned_release
              (occ (image_slot_state st) (images st)
               ++ some_ptr (bluetooth_image a) ++ some_ptr (power_image a))
              (occ (<[Z.to_nat slot:=EMPTY_SLOT]> (image_slot_state st)) (images st)
               ++ some_ptr (bluetooth_image a) ++ some_ptr (power_image a))
              (live_bitmaps st) b) as [Hob' Hobl']; [ | done | done | ].
  { by rewrite (occ_unload _ _ _ _ _ Hs Hne Hb). }
  destruct (owned_release
              (occ (image_slot_state st) (image_layers st)
               ++ some_ptr (bluetooth_layer a) ++ some_ptr (power_layer a))
              (occ (<[Z.to_nat slot:=EMPTY_SLOT]> (image_slot_state st)) (image_layers st)
               ++ some_ptr (bluetooth_layer a) ++ some_ptr (power_layer a))
              (live_layers st) l) as [Hol' Holl']; [ | done | done | ].
  { by rewrite (occ_unload _ _ _ _ _ Hs Hne Hl). }
  split; unfold owned_bitmaps, owned_layers; simpl; try done.
  - by rewrite length_insert.
  - intros p [_ Hp%Hlb]%list_elem_of_filter. done.
  - intros p [_ Hp%Hlyl]%list_elem_of_filter. done.
Qed.
(** ** The slot cache inside the watch face *)

Lemma face_inv_len (a : face) (st : state) :
  face_inv (set_cache st a) →
  length (image_slot_state st) = 4%nat ∧ length (images st) = 4%nat
  ∧ length (image_layers st) = 4%nat.
Proof. by intros [Hs Hi Hl _ _ _ _ _ _ _ _ _ _ _ _ _ _]. Qed.

Lemma face_inv_slot_live (a : face) (st : state) (k : nat) (s l b : Z) :
  face_inv (set_cache st a) →
  image_slot_state st !! k = Some s → s ≠ EMPTY_SLOT →
  image_layers st !! k = Some l → images st !! k = Some b →
  l ∈ live_layers st ∧ b ∈ live_bitmaps st.
Proof.
  intros Hst Hs Hne Hl Hb. split.
  - apply (fi_owned_l_live _ Hst). unfold owned_layers. simpl.
    apply elem_of_app. left. by eapply occ_elem.
  - apply (fi_owned_b_live _ Hst). unfold owned_bitmaps. simpl.
    apply elem_of_app. left. by eapply occ_elem.
Qed.

Lemma face_display_time_ok (tm_hour tm_min : Z) (c24 changed : bool) (a : face) :
  face_inv a → store_delivers →
  changed = true ∨ no_leading_zero (cache a) →
  ∃ st', display_time tm_hour tm_min c24 changed (cache a) = Done tt st'
         ∧ face_inv (set_cache st' a) ∧ no_leading_zero st'
         ∧ zero_prefix st' = zero_prefix (cache a).
Proof.
  intros Hinv Hstore Hpre.
  apply (framed_display_time_ok (λ st, face_inv (set_cache st a))); try done.
  - apply face_inv_len.
  - intros st k s l b. apply face_inv_slot_live.
  - intros st slot digit Hst _ Hs Hd. by apply face_inv_loaded.
  - intros st slot s l b Hst _ Hs Hne Hl Hb. by eapply face_inv_unloaded.
  - by rewrite set_cache_id.
Qed.

Lemma face_display_time_shows (tm_hour tm_min : Z) (c24 changed : bool)
      (a : face) (st' : state) :
  face_inv a → store_delivers →
  0 ≤ tm_hour ≤ 23 → 0 ≤ tm_min ≤ 59 →
  changed = true ∨ no_leading_zero (cache a) →
  display_time tm_hour tm_min c24 changed (cache a) = Done tt st' →
  image_slot_state st' = time_digits (zero_prefix (cache a)) c24 tm_hour tm_min.
Proof.
  intros Hinv Hstore Hhour Hmin Hpre.
  apply (framed_display_time_shows (λ st, face_inv (set_cache st a))); try done.
  - apply face_inv_len.
  - intros st k s l b. apply face_inv_slot_live.
  - intros st slot digit Hst _ Hs Hd. by apply face_inv_loaded.
  - intros st slot s l b Hst _ Hs Hne Hl Hb. by eapply face_inv_unloaded.
  - by rewrite set_cache_id.
Qed.

Lemma face_app_destroy_ok (a : face) :
  face_inv a →
  ∃ st', unload_all_slots (cache a) = Done tt st'
         ∧ face_inv (set_cache st' a)
         ∧ zero_prefix st' = zero_prefix (cache a)
         ∧ ∀ i, 0 ≤ i < TOTAL_IMAGE_SLOTS → slot_digit st' i = Some EMPTY_SLOT.
Proof.
  intros Hinv.
  apply (framed_app_destroy_ok (λ st, face_inv (set_cache st a))); try done.
  - apply face_inv_len.
  - intros st k s l b. apply face_inv_slot_live.
  - intros st slot s l b Hst _ Hs Hne Hl Hb. by eapply face_inv_unloaded.
  - by rewrite set_cache_id.
Qed.

(** ** The indicators *)

(** Running a handler on a state given field by field. *)
Ltac face_run :=
  cbv beta iota zeta delta
    [fbind fgets fmodify fret lift crash
     gbitmap_create_with_resource gbitmap_bounds_size bitmap_layer_create
     bitmap_layer_set_bitmap layer_add_child layer_remove_from_parent
     bitmap_layer_destroy gbitmap_destroy text_layer_set_text sprintf_date
     persist_write_bool persist_write_string
     set_cache set_bluetooth_image set_bluetooth_layer set_power_image
     set_power_layer set_text_layer set_live_text_layers
     set_text_layer_shows_date set_prev_bluetooth set_prev_power set_prev_day
     set_date set_show_power set_show_bluetooth set_month_first set_day_text
     set_persist log_call set_next_ptr set_live_layers set_live_bitmaps
     set_zero_prefix
     cache bluetooth_image bluetooth_layer power_image power_layer text_layer
     live_text_layers text_layer_shows_date prev_bluetooth prev_power prev_day
     date show_power show_bluetooth month_first day_text persist
     image_slot_state images image_layers zero_prefix live_bitmaps live_layers
     next_ptr sdk_log];
  cbn [negb eqb andb orb].

Ltac same_state :=
  rewrite <- ?Z.add_assoc, <- ?app_assoc; reflexivity.

Ltac fstep := cbv beta iota; cbn [negb eqb andb orb].

Lemma some_ptr_NULL : some_ptr NULL = [].
Proof. done. Qed.

Lemma some_ptr_ne (p : Z) : p ≠ NULL → some_ptr p = [p].
Proof. intros Hp. unfold some_ptr. by destruct (decide (p = NULL)). Qed.

Lemma hide_bluetooth_ok (a : face) :
  bluetooth_layer a ∈ live_layers (cache a) →
  bluetooth_image a ∈ live_bitmaps (cache a) →
  hide_bluetooth a
  = Ok tt (set_bluetooth_image NULL
             (set_bluetooth_layer NULL
                (set_cache (hidden (bluetooth_layer a) (bluetooth_image a) (cache a)) a))).
Proof.
  intros Hl Hb.
  destruct a as [[ss im il zp lb ll np lg] bi bl pi pl tl ltl tsd pb pp pd dt sp sb
                   mf days ps].
  simpl in Hl, Hb. unfold hide_bluetooth, hidden, unload_calls. face_run.
  rewrite (bool_decide_eq_true_2 _ Hl). face_run.
  rewrite (bool_decide_eq_true_2 _ Hl). face_run.
  rewrite (bool_decide_eq_true_2 _ Hb). face_run.
  same_state.
Qed.

(** An indicator that is shown has a live bitmap on a live layer. *)
Lemma face_inv_bluetooth_live (a : face) :
  face_inv a → bluetooth_image a ≠ NULL →
  bluetooth_layer a ∈ live_layers (cache a)
  ∧ bluetooth_image a ∈ live_bitmaps (cache a).
Proof.
  intros Hinv Hb.
  assert (bluetooth_layer a ≠ NULL) as Hl by (by rewrite <- (fi_bt_pair _ Hinv)).
  split.
  - apply (fi_owned_l_live _ Hinv). unfold owned_layers.
    rewrite (some_ptr_ne _ Hl), !elem_of_app, elem_of_cons. auto.
  - apply (fi_owned_b_live _ Hinv). unfold owned_bitmaps.
    rewrite (some_ptr_ne _ Hb), !elem_of_app, elem_of_cons. auto.
Qed.

Lemma face_inv_power_live (a : face) :
  face_inv a → power_image a ≠ NULL →
  power_layer a ∈ live_layers (cache a)
  ∧ power_image a ∈ live_bitmaps (cache a).
Proof.
  intros Hinv Hb.
  assert (power_layer a ≠ NULL) as Hl by (by rewrite <- (fi_pw_pair _ Hinv)).
  split.
  - apply (fi_owned_l_live _ Hinv). unfold owned_layers.
    rewrite (some_ptr_ne _ Hl), !elem_of_app, elem_of_cons. auto.
  - apply (fi_owned_b_live _ Hinv). unfold owned_bitmaps.
    rewrite (some_ptr_ne _ Hb), !elem_of_app, elem_of_cons. auto.
Qed.

Lemma show_bluetooth_ok (a : face) :
  store_delivers → face_inv a →
  show_bluetooth a = true → prev_bluetooth a = false →
  handle_connection true a = Ok tt (bluetooth_shown a).
Proof.
  intros Hstore Hinv Hsb Hpb.
  assert (bluetooth_image a = NULL) as Hb.
  { destruct (decide (bluetooth_image a = NULL)) as [ | Hne]; [done | ].
    apply (fi_bt_prev _ Hinv) in Hne. congruence. }
  assert (bluetooth_layer a = NULL) as Hl by (by rewrite <- (fi_bt_pair _ Hinv)).
  clear Hinv.
  destruct a as [[ss im il zp lb ll np lg] bi bl pi pl tl ltl tsd pb pp pd dt sp sb
                   mf days ps].
  simpl in *. subst bi bl sb pb.
  unfold handle_connection, bluetooth_shown, shown_on_new_layer. face_run.
  rewrite Z.eqb_refl, Hstore. face_run.
  repeat (rewrite bool_decide_eq_true_2 by (rewrite !elem_of_cons; auto); face_run).
  rewrite Z.eqb_refl. face_run.
  repeat (rewrite bool_decide_eq_true_2 by (rewrite !elem_of_cons; auto); face_run).
  same_state.
Qed.

Lemma face_inv_bluetooth_shown (a : face) :
  face_inv a → bluetooth_image a = NULL → face_inv (bluetooth_shown a).
Proof.
  intros Hinv Hb.
  assert (bluetooth_layer a = NULL) as Hl by (by rewrite <- (fi_bt_pair _ Hinv)).
  destruct Hinv as [Hls Hli Hll Hld Hdays Hnext Hlb Hlyl Hlt Hob Hobl Hol Holl
                      Hbp Hbv Hpp Hpv].
  unfold owned_bitmaps, owned_layers in *. rewrite Hb in Hob, Hobl.
  rewrite Hl in Hol, Holl. rewrite some_ptr_NULL in *.
  split; unfold owned_bitmaps, owned_layers; simpl; try done;
    rewrite ?some_ptr_ne by (unfold NULL; lia).
  - lia.
  - intros p [-> | Hp%Hlb]%elem_of_cons; lia.
  - intros p [-> | Hp%Hlyl]%elem_of_cons; lia.
  - intros p Hp%Hlt. lia.
  - eapply owned_acquire; [ | exact Hob | exact Hobl | ].
    + simpl. by rewrite <- Permutation_middle.
    + intros Hp%Hlb. lia.
  - eapply owned_acquire; [ | exact Hob | exact Hobl | ].
    + simpl. by rewrite <- Permutation_middle.
    + intros Hp%Hlb. lia.
  - eapply owned_acquire; [ | exact Hol | exact Holl | ].
    + simpl. by rewrite <- Permutation_middle.
    + intros Hp%Hlyl. lia.
  - eapply owned_acquire; [ | exact Hol | exact Holl | ].
    + simpl. by rewrite <- Permutation_middle.
    + intros Hp%Hlyl. lia.
  - unfold NULL. lia.
  - split; [done | ]. unfold NULL. lia.
Qed.

Lemma face_inv_bluetooth_hidden (a : face) :
  face_inv a → bluetooth_image a ≠ NULL → face_inv (bluetooth_hidden a).
Proof.
  intros Hinv Hb.
  assert (bluetooth_layer a ≠ NULL) as Hl by (by rewrite <- (fi_bt_pair _ Hinv)).
  destruct Hinv as [Hls Hli Hll Hld Hdays Hnext Hlb Hlyl Hlt Hob Hobl Hol Holl
                      Hbp Hbv Hpp Hpv].
  unfold owned_bitmaps, owned_layers in *.
  rewrite (some_ptr_ne _ Hb) in Hob, Hobl. rewrite (some_ptr_ne _ Hl) in Hol, Holl.
  split; unfold owned_bitmaps, owned_layers; simpl; try done;
    rewrite ?some_ptr_NULL.
  - intros p [_ Hp%Hlb]%list_elem_of_filter. done.
  - intros p [_ Hp%Hlyl]%list_elem_of_filter. done.
  - eapply owned_release; [ | exact Hob | exact Hobl].
    simpl. by rewrite <- Permutation_middle.
  - eapply owned_release; [ | exact Hob | exact Hobl].
    simpl. by rewrite <- Permutation_middle.
  - eapply owned_release; [ | exact Hol | exact Holl].
    simpl. by rewrite <- Permutation_middle.
  - eapply owned_release; [ | exact Hol | exact Holl].
    simpl. by rewrite <- Permutation_middle.
Qed.

Lemma handle_connection_ok (is_connected : bool) (a : face) :
  store_delivers → face_inv a →
  handle_connection is_connected a = Ok tt (connection_handled is_connected a)
  ∧ face_inv (connection_handled is_connected a).
Proof.
  intros Hstore Hinv. unfold connection_handled.
  destruct (show_bluetooth a) eqn:Hsb.
  - destruct (eqb is_connected (prev_bluetooth a)) eqn:Heq.
    + split; [ | done]. unfold handle_connection, fbind, fgets, fret. fstep.
      by rewrite Hsb, Heq.
    + destruct is_connected.
      * destruct (prev_bluetooth a) eqn:Hpb; [done | ].
        split; [by apply show_bluetooth_ok | ].
        apply face_inv_bluetooth_shown; [done | ].
        destruct (decide (bluetooth_image a = NULL)) as [ | Hne]; [done | ].
        apply (fi_bt_prev _ Hinv) in Hne. congruence.
      * destruct (prev_bluetooth a) eqn:Hpb; [ | done].
        assert (bluetooth_image a ≠ NULL) as Hb by (by apply (fi_bt_prev _ Hinv)).
        destruct (face_inv_bluetooth_live a Hinv Hb) as [Hl Hi].
        split; [ | by apply face_inv_bluetooth_hidden].
        unfold handle_connection, fbind, fgets, fret, fmodify. fstep.
        rewrite Hsb, Hpb. fstep.
        apply Z.eqb_neq in Hb. rewrite Hb. fstep.
        by rewrite (hide_bluetooth_ok a Hl Hi).
  - destruct (bluetooth_image a =? NULL) eqn:Hb.
    + split; [ | done]. unfold handle_connection, fbind, fgets, fret. fstep.
      by rewrite Hsb, Hb.
    + pose proof Hb as Hb'. apply Z.eqb_neq in Hb'.
      destruct (face_inv_bluetooth_live a Hinv Hb') as [Hl Hi].
      split; [ | by apply face_inv_bluetooth_hidden].
      unfold handle_connection, fbind, fgets, fret, fmodify. fstep.
      rewrite Hsb, Hb. fstep.
      by rewrite (hide_bluetooth_ok a Hl Hi).
Qed.

(** ** The power indicator *)

Lemma power_level_range (charge_state : BatteryChargeState) :
  battery_ok charge_state → 0 ≤ power_level_of charge_state ≤ 5.
Proof.
  unfold battery_ok, power_level_of. intros Hc.
  destruct (is_charging charge_state); [lia | c_arith].
Qed.

Lemma show_power_ok (charge_state : BatteryChargeState) (a : face) :
  store_delivers → face_inv a →
  0 ≤ power_level_of charge_state < NUMBER_OF_POWER_IMAGES →
  show_power a = true → power_level_of charge_state ≠ prev_power a →
  handle_power_level charge_state a
  = Ok tt (power_shown (power_level_of charge_state) a).
Proof.
  intros Hstore Hinv Hlv Hsp Hne.
  assert (power_layer a ≠ NULL → power_layer a ∈ live_layers (cache a)) as Hlive.
  { intros Hl. apply face_inv_power_live; [done | ].
    by rewrite (fi_pw_pair _ Hinv). }
  clear Hinv. unfold handle_power_level.
  change (if is_charging charge_state then 5
          else c_div (charge_percent charge_state - 1) 20)
    with (power_level_of charge_state).
  remember (power_level_of charge_state) as lv eqn:Hlveq. clear Hlveq.
  apply Z.eqb_neq in Hne.
  assert ((0 <=? lv) && (lv <? NUMBER_OF_POWER_IMAGES) = true) as Hidx.
  { apply andb_true_iff. split; [apply Z.leb_le | apply Z.ltb_lt]; lia. }
  unfold power_shown, shown_on_new_layer, shown_on_layer.
  destruct a as [[ss im il zp lb ll np lg] bi bl pi pl tl ltl tsd pb pp pd dt sp sb
                   mf days ps].
  simpl in *. subst sp. face_run. rewrite Hne, Hidx. face_run.
  rewrite Hstore. face_run.
  rewrite bool_decide_eq_true_2 by (rewrite !elem_of_cons; auto). face_run.
  destruct (pl =? NULL) eqn:Hpl; face_run.
  - repeat (rewrite bool_decide_eq_true_2 by (rewrite !elem_of_cons; auto);
            face_run).
    same_state.
  - apply Z.eqb_neq in Hpl. specialize (Hlive Hpl).
    repeat (rewrite bool_decide_eq_true_2 by (rewrite ?elem_of_cons; auto);
            face_run).
    same_state.
Qed.

Lemma hide_power_ok (charge_state : BatteryChargeState) (a : face) :
  face_inv a → show_power a = false → power_image a ≠ NULL →
  handle_power_level charge_state a = Ok tt (power_hidden a).
Proof.
  intros Hinv Hsp Hb.
  destruct (face_inv_power_live a Hinv Hb) as [Hl Hi]. clear Hinv.
  apply Z.eqb_neq in Hb.
  destruct a as [[ss im il zp lb ll np lg] bi bl pi pl tl ltl tsd pb pp pd dt sp sb
                   mf days ps].
  simpl in *. subst sp.
  unfold handle_power_level, power_hidden, hidden, unload_calls. face_run.
  rewrite Hb. face_run.
  rewrite (bool_decide_eq_true_2 _ Hl). face_run.
  rewrite (bool_decide_eq_true_2 _ Hl). face_run.
  rewrite (bool_decide_eq_true_2 _ Hi). face_run.
  same_state.
Qed.

(** Putting a new pointer in the place of an owned one, which stays
    live. *)
Lemma owned_replace (owned old live : list Z) (p : Z) :
  NoDup (owned ++ old) → (∀ q, q ∈ owned ++ old → q ∈ live) → p ∉ live →
  NoDup (owned ++ [p]) ∧ ∀ q, q ∈ owned ++ [p] → q ∈ p :: live.
Proof.
  intros Hnd Hlive Hp. split.
  - apply NoDup_app in Hnd as (Hnd & _ & _).
    apply NoDup_app. split_and!; [done | | apply NoDup_singleton].
    intros q Hq ->%list_elem_of_singleton. apply Hp, Hlive, elem_of_app. auto.
  - intros q [Hq | ->%list_elem_of_singleton]%elem_of_app; [ | by left].
    right. apply Hlive, elem_of_app. auto.
Qed.


Lemma face_inv_power_shown (level : Z) (a : face) :
  face_inv a → 0 ≤ level → face_inv (power_shown level a).
Proof.
  intros Hinv Hlevel.
  pose proof (fi_pw_pair _ Hinv) as Hpair.
  destruct Hinv as [Hls Hli Hll Hld Hdays Hnext Hlb Hlyl Hlt Hob Hobl Hol Holl
                      Hbp Hbv Hpp Hpv].
  unfold owned_bitmaps, owned_layers in *.
  rewrite app_assoc in Hob, Hobl.
  destruct (owned_replace _ _ _ (next_ptr (cache a)) Hob Hobl) as [Hob' Hobl'].
  { intros Hp%Hlb. lia. }
  unfold power_shown. destruct (power_layer a =? NULL) eqn:Hpl.
  - apply Z.eqb_eq in Hpl. rewrite Hpl in Hol, Holl. rewrite some_ptr_NULL in *.
    split; unfold owned_bitmaps, owned_layers; simpl; try done;
      rewrite ?(some_ptr_ne (next_ptr (cache a))),
        ?(some_ptr_ne (next_ptr (cache a) + 1)) by (unfold NULL; lia);
      rewrite ?app_assoc.
    + lia.
    + intros p [-> | Hp%Hlb]%elem_of_cons; lia.
    + intros p [-> | Hp%Hlyl]%elem_of_cons; lia.
    + intros p Hp%Hlt. lia.
    + done.
    + done.
    + eapply owned_acquire; [ | exact Hol | exact Holl | ].
      * rewrite app_nil_r. symmetry. apply Permutation_cons_append.
      * intros Hp%Hlyl. lia.
    + eapply owned_acquire; [ | exact Hol | exact Holl | ].
      * rewrite app_nil_r. symmetry. apply Permutation_cons_append.
      * intros Hp%Hlyl. lia.
    + unfold NULL. lia.
    + split; intros _; unfold NULL; lia.
  - apply Z.eqb_neq in Hpl.
    split; unfold owned_bitmaps, owned_layers; simpl; try done;
      rewrite ?(some_ptr_ne (next_ptr (cache a))),
        ?(some_ptr_ne (next_ptr (cache a) + 1)) by (unfold NULL; lia);
      rewrite ?app_assoc.
    + lia.
    + intros p [-> | Hp%Hlb]%elem_of_cons; lia.
    + intros p Hp%Hlyl. lia.
    + intros p Hp%Hlt. lia.
    + done.
    + intros p Hp%Hobl'. apply elem_of_cons in Hp as [-> | Hp]; [by left | ].
      right. done.
    + unfold NULL. split; [lia | done].
    + split; intros _; unfold NULL; lia.
Qed.

Lemma face_inv_power_hidden (a : face) :
  face_inv a → power_image a ≠ NULL → face_inv (power_hidden a).
Proof.
  intros Hinv Hb.
  assert (power_layer a ≠ NULL) as Hl by (by rewrite <- (fi_pw_pair _ Hinv)).
  destruct Hinv as [Hls Hli Hll Hld Hdays Hnext Hlb Hlyl Hlt Hob Hobl Hol Holl
                      Hbp Hbv Hpp Hpv].
  unfold owned_bitmaps, owned_layers in *.
  rewrite (some_ptr_ne _ Hb) in Hob, Hobl. rewrite (some_ptr_ne _ Hl) in Hol, Holl.
  rewrite app_assoc in Hob, Hobl, Hol, Holl.
  split; unfold owned_bitmaps, owned_layers; simpl; try done;
    rewrite ?some_ptr_NULL, ?app_nil_r.
  - intros p [_ Hp%Hlb]%list_elem_of_filter. done.
  - intros p [_ Hp%Hlyl]%list_elem_of_filter. done.
  - eapply owned_release; [ | exact Hob | exact Hobl].
    symmetry. apply Permutation_cons_append.
  - eapply owned_release; [ | exact Hob | exact Hobl].
    symmetry. apply Permutation_cons_append.
  - eapply owned_release; [ | exact Hol | exact Holl].
    symmetry. apply Permutation_cons_append.
  - eapply owned_release; [ | exact Hol | exact Holl].
    symmetry. apply Permutation_cons_append.
Qed.

Lemma handle_power_level_ok (charge_state : BatteryChargeState) (a : face) :
  store_delivers → face_inv a → battery_ok charge_state →
  handle_power_level charge_state a = Ok tt (power_handled charge_state a)
  ∧ face_inv (power_handled charge_state a).
Proof.
  intros Hstore Hinv Hc. unfold power_handled.
  pose proof (power_level_range _ Hc) as Hlv.
  destruct (show_power a) eqn:Hsp.
  - destruct (power_level_of charge_state =? prev_power a) eqn:Heq.
    + split; [ | done]. unfold handle_power_level.
      change (if is_charging charge_state then 5
              else c_div (charge_percent charge_state - 1) 20)
        with (power_level_of charge_state).
      unfold fbind, fgets, fret. fstep. by rewrite Hsp, Heq.
    + apply Z.eqb_neq in Heq. split.
      * apply show_power_ok; try done. unfold NUMBER_OF_POWER_IMAGES. lia.
      * apply face_inv_power_shown; [done | lia].
  - destruct (power_image a =? NULL) eqn:Hb.
    + split; [ | done]. unfold handle_power_level, fbind, fgets, fret. fstep.
      by rewrite Hsp, Hb.
    + apply Z.eqb_neq in Hb. split; [by apply hide_power_ok | ].
      by apply face_inv_power_hidden.
Qed.




(** ** The date line *)

Lemma string_length_app (s1 s2 : string) :
  String.length (s1 +:+ s2) = (String.length s1 + String.length s2)%nat.
Proof. induction s1 as [ | c s1 IH]; simpl; [done | by rewrite IH]. Qed.

(** Numbers below 100 print in at most two characters. *)
Lemma pretty_two_digits (n : Z) :
  0 ≤ n ≤ 99 → (String.length (pretty n) ≤ 2)%nat.
Proof.
  intros Hn.
  assert (∃ k : nat, n = Z.of_nat k ∧ (k < 100)%nat) as (k & -> & Hk).
  { exists (Z.to_nat n). lia. }
  clear Hn. do 100 (destruct k as [ | k]; [vm_compute; lia | ]). lia.
Qed.

Lemma date_text_fits (tick_time : tm) (a : face) :
  face_inv a → tm_ok tick_time →
  Z.of_nat (String.length (date_text tick_time a)) < DATE_SIZE.
Proof.
  intros Hinv (Hwday & Hmon & Hmday). unfold date_text, DATE_SIZE.
  assert (String.length (default "" (day_text a !! Z.to_nat (tm_wday tick_time))) ≤ 9)%nat
    as Hday.
  { destruct (day_text a !! Z.to_nat (tm_wday tick_time)) as [s | ] eqn:Hs;
      simpl; [ | lia].
    apply (fi_days _ Hinv). by eapply list_elem_of_lookup_2. }
  rewrite !string_length_app. simpl.
  assert (String.length (pretty (tm_mon tick_time)) ≤ 2)%nat
    by (apply pretty_two_digits; lia).
  assert (String.length (pretty (tm_mday tick_time)) ≤ 2)%nat
    by (apply pretty_two_digits; lia).
  destruct (month_first a); lia.
Qed.

Lemma face_inv_date_displayed (tick_time : tm) (a : face) :
  face_inv a → face_inv (date_displayed tick_time a).
Proof. by intros []; split. Qed.

Lemma face_inv_set_prev_day (day : Z) (a : face) :
  face_inv a → face_inv (set_prev_day day a).
Proof. by intros []; split. Qed.

Lemma display_date_ok (tick_time : tm) (a : face) :
  face_inv a → tm_ok tick_time → text_layer a ∈ live_text_layers a →
  display_date tick_time a = Ok tt (date_displayed tick_time a).
Proof.
  intros Hinv Htm Hlayer.
  pose proof (date_text_fits tick_time a Hinv Htm) as Hfits.
  destruct Htm as ([Hwday Hwday6] & _).
  destruct (lookup_lt_is_Some_2 (day_text a) (Z.to_nat (tm_wday tick_time)))
    as [s Hs]; [rewrite (fi_len_days _ Hinv); lia | ].
  clear Hinv. unfold date_displayed. unfold date_text in *. rewrite Hs in *.
  simpl in Hfits. apply Z.ltb_lt in Hfits. apply Z.leb_le in Hwday.
  destruct a as [st bi bl pi pl tl ltl tsd pb pp pd dt sp sb mf days ps].
  simpl in *. unfold display_date. face_run.
  rewrite Hwday, Hs. face_run. rewrite Hfits. face_run.
  by rewrite (bool_decide_eq_true_2 _ Hlayer).
Qed.


(** ** The minute tick *)

Lemma face_ok_inv (a : face) : face_ok a → face_inv a.
Proof. by intros (? & _). Qed.

Lemma handle_minute_tick_ok (tick_time : tm) (c24 : bool) (a : face) :
  store_delivers → face_ok a → tm_ok tick_time →
  ∃ st', display_time (tm_hour tick_time) (tm_min tick_time) c24 false (cache a)
         = Done tt st'
         ∧ handle_minute_tick tick_time c24 a = Ok tt (tick_handled tick_time st' a)
         ∧ face_ok (tick_handled tick_time st' a)
         ∧ zero_prefix st' = zero_prefix (cache a).
Proof.
  intros Hstore (Hinv & Hnlz & Htl) Htm.
  destruct (face_display_time_ok (tm_hour tick_time) (tm_min tick_time) c24 false a)
    as (st' & Hdt & Hinv' & Hnlz' & Hzp); [done | done | by right | ].
  exists st'. split; [done | ].
  unfold handle_minute_tick, tick_handled.
  rewrite (fbind_Ok _ _ _ _ _ (lift_Done _ _ _ _ Hdt)).
  unfold fbind at 1, fgets. cbv beta iota.
  change (prev_day (set_cache st' a)) with (prev_day a).
  destruct (prev_day a =? tm_wday tick_time) eqn:Hday; cbn [negb]; cbv iota.
  - split; [done | ]. split; [ | done]. split_and!; done.
  - assert (text_layer (set_cache st' a) ∈ live_text_layers (set_cache st' a)) as Htl'
      by done.
    rewrite (fbind_Ok _ _ _ _ _ (display_date_ok tick_time _ Hinv' Htm Htl')).
    split; [done | ]. split; [ | done]. split_and!.
    + by apply face_inv_set_prev_day, face_inv_date_displayed.
    + done.
    + done.
Qed.


(** ** The settings callback *)

Lemma elem_of_list_insert_inv {A} (l : list A) (i : nat) (x y : A) :
  y ∈ <[i:=x]> l → y = x ∨ y ∈ l.
Proof.
  intros (j & Hj)%list_elem_of_lookup.
  apply list_lookup_insert_Some in Hj as [(_ & -> & _) | (_ & Hj)]; [by left | ].
  right. by eapply list_elem_of_lookup_2.
Qed.

Lemma face_inv_set_day_text (k : nat) (s : string) (a : face) :
  face_inv a → (String.length s ≤ 9)%nat →
  face_inv (set_day_text (<[k:=s]> (day_text a)) a).
Proof.
  intros [] Hs. split; simpl; try done.
  - by rewrite length_insert.
  - intros s' [-> | Hs']%elem_of_list_insert_inv; auto.
Qed.

Lemma face_inv_set_persist (store : gmap Z persisted) (a : face) :
  face_inv a → face_inv (set_persist store a).
Proof. by intros []; split. Qed.

Lemma face_inv_set_show_power (b : bool) (a : face) :
  face_inv a → face_inv (set_show_power b a).
Proof. by intros []; split. Qed.

Lemma face_inv_set_show_bluetooth (b : bool) (a : face) :
  face_inv a → face_inv (set_show_bluetooth b a).
Proof. by intros []; split. Qed.

Lemma face_inv_set_month_first (b : bool) (a : face) :
  face_inv a → face_inv (set_month_first b a).
Proof. by intros []; split. Qed.

Lemma face_inv_set_zero_prefix (b : bool) (a : face) :
  face_inv a → face_inv (set_cache (set_zero_prefix b (cache a)) a).
Proof. by intros []; split. Qed.

(** The cache and the text layer of [connection_handled] and
    [power_handled]. *)
Lemma connection_handled_frame (is_connected : bool) (a : face) :
  let a' := connection_handled is_connected a in
  image_slot_state (cache a') = image_slot_state (cache a)
  ∧ zero_prefix (cache a') = zero_prefix (cache a)
  ∧ text_layer a' = text_layer a
  ∧ live_text_layers a' = live_text_layers a
  ∧ persist a' = persist a
  ∧ show_bluetooth a' = show_bluetooth a
  ∧ show_power a' = show_power a
  ∧ month_first a' = month_first a
  ∧ day_text a' = day_text a.
Proof.
  unfold connection_handled, bluetooth_shown, bluetooth_hidden.
  by repeat case_match.
Qed.

Lemma power_handled_frame (charge_state : BatteryChargeState) (a : face) :
  let a' := power_handled charge_state a in
  image_slot_state (cache a') = image_slot_state (cache a)
  ∧ zero_prefix (cache a') = zero_prefix (cache a)
  ∧ text_layer a' = text_layer a
  ∧ live_text_layers a' = live_text_layers a
  ∧ persist a' = persist a
  ∧ show_bluetooth a' = show_bluetooth a
  ∧ show_power a' = show_power a
  ∧ month_first a' = month_first a
  ∧ day_text a' = day_text a.
Proof.
  unfold power_handled, power_shown, power_hidden.
  by repeat case_match.
Qed.

Lemma no_leading_zero_same (st st' : state) :
  image_slot_state st' = image_slot_state st → zero_prefix st' = zero_prefix st →
  no_leading_zero st → no_leading_zero st'.
Proof.
  unfold no_leading_zero, slot_digit. intros -> ->. done.
Qed.

Lemma face_ok_connection_handled (is_connected : bool) (a : face) :
  store_delivers → face_ok a →
  handle_connection is_connected a = Ok tt (connection_handled is_connected a)
  ∧ face_ok (connection_handled is_connected a).
Proof.
  intros Hstore (Hinv & Hnlz & Htl).
  destruct (handle_connection_ok is_connected a Hstore Hinv) as [Heq Hinv'].
  split; [done | ].
  destruct (connection_handled_frame is_connected a)
    as (Hs & Hz & Ht & Hlt & _).
  split_and!; [done | by eapply no_leading_zero_same | ].
  by rewrite Ht, Hlt.
Qed.

Lemma face_ok_power_handled (charge_state : BatteryChargeState) (a : face) :
  store_delivers → face_ok a → battery_ok charge_state →
  handle_power_level charge_state a = Ok tt (power_handled charge_state a)
  ∧ face_ok (power_handled charge_state a).
Proof.
  intros Hstore (Hinv & Hnlz & Htl) Hc.
  destruct (handle_power_level_ok charge_state a Hstore Hinv Hc) as [Heq Hinv'].
  split; [done | ].
  destruct (power_handled_frame charge_state a)
    as (Hs & Hz & Ht & Hlt & _).
  split_and!; [done | by eapply no_leading_zero_same | ].
  by rewrite Ht, Hlt.
Qed.

Lemma sync_zero_prefix_ok (new_tuple : Tuple) (e : env) (a : face) :
  store_delivers → face_ok a →
  ∃ a', sync_tuple_changed_callback ZERO_PREFIX new_tuple e a = Ok tt a'
        ∧ face_ok a'
        ∧ persist a' = saved ZERO_PREFIX new_tuple (persist a)
        ∧ zero_prefix (cache a') = get_tuple_bool_value new_tuple.
Proof.
  intros Hstore (Hinv & Hnlz & Htl).
  set (b := get_tuple_bool_value new_tuple).
  set (a1 := set_cache (set_zero_prefix b (cache a)) a).
  destruct (face_display_time_ok (tm_hour (now e)) (tm_min (now e))
              (clock_is_24h_style e) true a1)
    as (st' & Hdt & Hinv' & Hnlz' & Hzp);
    [by apply face_inv_set_zero_prefix | done | by left | ].
  exists (set_persist (<[ZERO_PREFIX := PBool b]> (persist a)) (set_cache st' a)).
  split.
  { unfold sync_tuple_changed_callback.
    change (ZERO_PREFIX =? ZERO_PREFIX) with true. cbv iota.
    unfold fbind at 1. unfold lift at 1, modify. cbv beta iota.
    fold b. fold a1. unfold update_time.
    rewrite (fbind_Ok _ _ _ _ _ (lift_Done _ _ _ _ Hdt)).
    unfold fbind, fgets, persist_write_bool, fmodify. cbv beta iota.
    change (zero_prefix (cache (set_cache st' a1))) with (zero_prefix st').
    rewrite Hzp. done. }
  split.
  { split_and!; [by apply face_inv_set_persist | done | done]. }
  split; [done | ]. simpl. by rewrite Hzp.
Qed.


Lemma face_ok_set_show_power (b : bool) (a : face) :
  face_ok a → face_ok (set_show_power b a).
Proof. intros (Hinv & ? & ?). split_and!; [by apply face_inv_set_show_power | done ..]. Qed.

Lemma face_ok_set_show_bluetooth (b : bool) (a : face) :
  face_ok a → face_ok (set_show_bluetooth b a).
Proof.
  intros (Hinv & ? & ?). split_and!; [by apply face_inv_set_show_bluetooth | done ..].
Qed.

Lemma face_ok_set_persist (store : gmap Z persisted) (a : face) :
  face_ok a → face_ok (set_persist store a).
Proof. intros (Hinv & ? & ?). split_and!; [by apply face_inv_set_persist | done ..]. Qed.

Lemma face_ok_date_displayed (tick_time : tm) (a : face) :
  face_ok a → face_ok (date_displayed tick_time a).
Proof.
  intros (Hinv & ? & ?). split_and!; [by apply face_inv_date_displayed | done ..].
Qed.

Lemma sync_show_power_ok (new_tuple : Tuple) (e : env) (a : face) :
  store_delivers → face_ok a → battery_ok (battery e) →
  ∃ a', sync_tuple_changed_callback SHOW_POWER new_tuple e a = Ok tt a'
        ∧ face_ok a'
        ∧ persist a' = saved SHOW_POWER new_tuple (persist a)
        ∧ show_power a' = get_tuple_bool_value new_tuple.
Proof.
  intros Hstore Hok Hc.
  set (b := get_tuple_bool_value new_tuple).
  set (a1 := set_show_power b a).
  destruct (face_ok_power_handled (battery e) a1 Hstore) as [Heq Hok'];
    [by apply face_ok_set_show_power | done | ].
  destruct (power_handled_frame (battery e) a1) as (_ & _ & _ & _ & Hp & _ & Hsp & _).
  exists (set_persist (<[SHOW_POWER := PBool b]> (persist a))
            (power_handled (battery e) a1)).
  split_and!.
  - unfold sync_tuple_changed_callback. simpl (SHOW_POWER =? ZERO_PREFIX).
    simpl (SHOW_POWER =? SHOW_POWER). cbv iota.
    unfold fbind at 1. unfold fmodify at 1. cbv beta iota. fold b. fold a1.
    rewrite (fbind_Ok _ _ _ _ _ Heq).
    unfold fbind, fgets, persist_write_bool, fmodify. cbv beta iota.
    by rewrite Hsp, Hp.
  - by apply face_ok_set_persist.
  - done.
  - simpl. by rewrite Hsp.
Qed.

Lemma sync_show_bluetooth_ok (new_tuple : Tuple) (e : env) (a : face) :
  store_delivers → face_ok a →
  ∃ a', sync_tuple_changed_callback SHOW_BTOOTH new_tuple e a = Ok tt a'
        ∧ face_ok a'
        ∧ persist a' = saved SHOW_BTOOTH new_tuple (persist a)
        ∧ show_bluetooth a' = get_tuple_bool_value new_tuple.
Proof.
  intros Hstore Hok.
  set (b := get_tuple_bool_value new_tuple).
  set (a1 := set_show_bluetooth b a).
  destruct (face_ok_connection_handled (connected e) a1 Hstore) as [Heq Hok'];
    [by apply face_ok_set_show_bluetooth | ].
  destruct (connection_handled_frame (connected e) a1)
    as (_ & _ & _ & _ & Hp & Hsb & _).
  exists (set_persist (<[SHOW_POWER := PBool b]> (persist a))
            (connection_handled (connected e) a1)).
  split_and!.
  - unfold sync_tuple_changed_callback. simpl (SHOW_BTOOTH =? ZERO_PREFIX).
    simpl (SHOW_BTOOTH =? SHOW_POWER). simpl (SHOW_BTOOTH =? SHOW_BTOOTH). cbv iota.
    unfold fbind at 1. unfold fmodify at 1. cbv beta iota. fold b. fold a1.
    rewrite (fbind_Ok _ _ _ _ _ Heq).
    unfold fbind, fgets, persist_write_bool, fmodify. cbv beta iota.
    by rewrite Hsb, Hp.
  - by apply face_ok_set_persist.
  - done.
  - simpl. by rewrite Hsb.
Qed.

Lemma sync_month_first_ok (new_tuple : Tuple) (e : env) (a : face) :
  face_ok a → tm_ok (now e) →
  ∃ a', sync_tuple_changed_callback MONTH_FIRST new_tuple e a = Ok tt a'
        ∧ face_ok a'
        ∧ persist a' = saved MONTH_FIRST new_tuple (persist a)
        ∧ month_first a' = get_tuple_bool_value new_tuple.
Proof.
  intros Hok Htm.
  set (b := get_tuple_bool_value new_tuple).
  set (a1 := set_month_first b a).
  assert (face_ok a1) as Hok1.
  { destruct Hok as (Hinv & ? & ?).
    split_and!; [by apply face_inv_set_month_first | done ..]. }
  pose proof (display_date_ok (now e) a1 (face_ok_inv _ Hok1) Htm
                (proj2 (proj2 Hok1))) as Heq.
  exists (set_persist (<[MONTH_FIRST := PBool b]> (persist a))
            (date_displayed (now e) a1)).
  split_and!.
  - unfold sync_tuple_changed_callback. simpl (MONTH_FIRST =? ZERO_PREFIX).
    simpl (MONTH_FIRST =? SHOW_POWER). simpl (MONTH_FIRST =? SHOW_BTOOTH).
    simpl (MONTH_FIRST =? MONTH_FIRST). cbv iota.
    unfold fbind at 1. unfold fmodify at 1. cbv beta iota. fold b. fold a1.
    unfold update_date. rewrite (fbind_Ok _ _ _ _ _ Heq).
    unfold fbind, fgets, persist_write_bool, fmodify. cbv beta iota. done.
  - by apply face_ok_set_persist, face_ok_date_displayed.
  - done.
  - done.
Qed.

Lemma sync_day_text_ok (new_tuple : Tuple) (key day : Z) (e : env) (a : face) :
  face_ok a → tm_ok (now e) → 0 ≤ day ≤ 6 →
  Z.of_nat (String.length (value_cstring new_tuple)) < tuple_length new_tuple →
  (String.length (value_cstring new_tuple) ≤ 9)%nat →
  ∃ a', sync_day_text new_tuple key day e a = Ok tt a'
        ∧ face_ok a'
        ∧ persist a' = <[key := PString (value_cstring new_tuple)]> (persist a)
        ∧ day_text a' !! Z.to_nat day = Some (value_cstring new_tuple).
Proof.
  intros Hok Htm Hday Hfit Hshort.
  set (s := value_cstring new_tuple) in *.
  set (a1 := set_day_text (<[Z.to_nat day := s]> (day_text a)) a).
  assert (face_ok a1) as Hok1.
  { destruct Hok as (Hinv & ? & ?).
    split_and!; [by apply face_inv_set_day_text | done ..]. }
  assert (day_text a1 !! Z.to_nat day = Some s) as Hlook.
  { simpl. apply list_lookup_insert_eq.
    rewrite (fi_len_days _ (face_ok_inv _ Hok)). lia. }
  pose proof (display_date_ok (now e) a1 (face_ok_inv _ Hok1) Htm
                (proj2 (proj2 Hok1))) as Heq.
  apply Z.ltb_lt in Hfit.
  unfold sync_day_text. unfold fbind at 1. cbv beta iota. fold s. rewrite Hfit.
  cbv iota. fold a1. unfold fbind at 1, fgets at 1. cbv beta iota.
  destruct (prev_day a1 =? day) eqn:Hpd.
  - unfold update_date. rewrite (fbind_Ok _ _ _ _ _ Heq).
    unfold fbind, persist_write_string, fmodify. cbv beta iota.
    assert (day_text (date_displayed (now e) a1) !! Z.to_nat day = Some s) as ->
      by done.
    eexists. split; [done | ].
    split_and!; [by apply face_ok_set_persist, face_ok_date_displayed | done ..].
  - unfold fbind, fret, persist_write_string, fmodify. cbv beta iota.
    rewrite Hlook.
    eexists. split; [done | ].
    split_and!; [by apply face_ok_set_persist | done ..].
Qed.


Lemma saved_day_key (key : Z) (new_tuple : Tuple) (store : gmap Z persisted) :
  SUN_TEXT ≤ key ≤ SAT_TEXT →
  saved key new_tuple store = <[key := PString (value_cstring new_tuple)]> store.
Proof.
  unfold saved, ZERO_PREFIX, SHOW_POWER, SHOW_BTOOTH, MONTH_FIRST, SUN_TEXT, SAT_TEXT.
  intros Hkey.
  destruct (Z.eqb_spec key 0); [lia | ].
  destruct (Z.eqb_spec key 1); [lia | ].
  destruct (Z.eqb_spec key 2); [lia | ].
  destruct (Z.eqb_spec key 3); [lia | ].
  destruct (Z.leb_spec 4 key); [ | lia].
  destruct (Z.leb_spec key 10); [ | lia]. done.
Qed.

Lemma sync_ok (key : Z) (new_tuple : Tuple) (e : env) (a : face) :
  store_delivers → face_ok a → env_ok e → tuple_ok key new_tuple →
  ∃ a', sync_tuple_changed_callback key new_tuple e a = Ok tt a'
        ∧ face_ok a'
        ∧ persist a' = saved key new_tuple (persist a).
Proof.
  intros Hstore Hok [Htm Hc] Ht.
  assert (∀ day, 0 ≤ day ≤ 6 → SUN_TEXT ≤ key ≤ SAT_TEXT →
            ∃ a', sync_day_text new_tuple key day e a = Ok tt a'
                  ∧ face_ok a'
                  ∧ persist a' = saved key new_tuple (persist a)) as Hday.
  { intros day Hd Hkey. destruct (Ht Hkey) as [Hfit Hshort].
    destruct (sync_day_text_ok new_tuple key day e a) as (a' & ? & ? & ? & _);
      try done.
    exists a'. by rewrite saved_day_key. }
  destruct (Z.eq_dec key ZERO_PREFIX) as [-> | Hk0].
  { destruct (sync_zero_prefix_ok new_tuple e a) as (a' & ? & ? & ? & _); eauto. }
  destruct (Z.eq_dec key SHOW_POWER) as [-> | Hk1].
  { destruct (sync_show_power_ok new_tuple e a) as (a' & ? & ? & ? & _); eauto. }
  destruct (Z.eq_dec key SHOW_BTOOTH) as [-> | Hk2].
  { destruct (sync_show_bluetooth_ok new_tuple e a) as (a' & ? & ? & ? & _); eauto. }
  destruct (Z.eq_dec key MONTH_FIRST) as [-> | Hk3].
  { destruct (sync_month_first_ok new_tuple e a) as (a' & ? & ? & ? & _); eauto. }
  destruct (Z.eq_dec key SUN_TEXT) as [-> | Hk4]; [by apply (Hday 0) | ].
  destruct (Z.eq_dec key MON_TEXT) as [-> | Hk5]; [by apply (Hday 1) | ].
  destruct (Z.eq_dec key TUE_TEXT) as [-> | Hk6]; [by apply (Hday 2) | ].
  destruct (Z.eq_dec key WED_TEXT) as [-> | Hk7]; [by apply (Hday 3) | ].
  destruct (Z.eq_dec key THU_TEXT) as [-> | Hk8]; [by apply (Hday 4) | ].
  destruct (Z.eq_dec key FRI_TEXT) as [-> | Hk9]; [by apply (Hday 5) | ].
  destruct (Z.eq_dec key SAT_TEXT) as [-> | Hk10]; [by apply (Hday 6) | ].
  exists a. unfold sync_tuple_changed_callback, saved.
  apply Z.eqb_neq in Hk0, Hk1, Hk2, Hk3, Hk4, Hk5, Hk6, Hk7, Hk8, Hk9, Hk10.
  rewrite Hk0, Hk1, Hk2, Hk3, Hk4, Hk5, Hk6, Hk7, Hk8, Hk9, Hk10. simpl orb. cbv iota.
  split_and!; [done | done | ].
  destruct (Z.leb_spec SUN_TEXT key); [ | done].
  destruct (Z.leb_spec key SAT_TEXT); [ | done].
  apply Z.eqb_neq in Hk4, Hk5, Hk6, Hk7, Hk8, Hk9, Hk10.
  unfold SUN_TEXT, MON_TEXT, TUE_TEXT, WED_TEXT, THU_TEXT, FRI_TEXT, SAT_TEXT in *.
  lia.
Qed.

(** ** Start *)

Lemma if_Ok {A} (c : bool) (x y : A) (a : face) :
  (if c then (λ a', Ok x a') else (λ a', Ok y a')) a = Ok (if c then x else y) a.
Proof. by destruct c. Qed.

Lemma app_init_unfold (e : env) (store : gmap Z persisted) :
  app_init e (initial_face store)
  = (lift (display_time (tm_hour (now e)) (tm_min (now e)) (clock_is_24h_style e) true) ;;
     handle_power_level (battery e) ;;
     handle_connection (connected e) ;;
     layer <- text_layer_create ;;
     fmodify (set_text_layer layer) ;;
     display_date (now e) ;;
     fmodify (set_prev_day (tm_wday (now e)))) (settings_retrieved store).
Proof.
  unfold app_init, retrieve_bool, retrieve_day, persist_get_string,
    settings_retrieved, retrieved_days, retrieved_string, initial_face,
    initial_state, modify.
  do 7 (face_run; rewrite if_Ok). face_run. reflexivity.
Qed.

Lemma retrieved_string_short (store : gmap Z persisted) (key : Z) (def : string) :
  store_short store → (String.length def ≤ 9)%nat →
  (String.length (retrieved_string store key def) ≤ 9)%nat.
Proof.
  intros Hstore Hdef. unfold retrieved_string, persist_read_string.
  destruct (persist_exists store key); [ | done].
  destruct (store !! key) as [[b | s] | ] eqn:Hs; simpl; try lia.
  by eapply Hstore.
Qed.

Lemma face_inv_settings_retrieved (store : gmap Z persisted) :
  store_short store → face_inv (settings_retrieved store).
Proof.
  intros Hstore.
  split; simpl; try done;
    try (intros p Hp; by apply elem_of_nil in Hp);
    try (vm_compute; apply NoDup_nil_2).
  intros s Hs. unfold retrieved_days in Hs.
  repeat (apply elem_of_cons in Hs as [-> | Hs];
          [apply retrieved_string_short; [done | simpl; lia] | ]).
  by apply elem_of_nil in Hs.
Qed.

Lemma face_inv_text_layer_created (a : face) :
  face_inv a → face_inv (text_layer_created a).
Proof.
  intros [Hls Hli Hll Hld Hdays Hnext Hlb Hlyl Hlt Hob Hobl Hol Holl
            Hbp Hbv Hpp Hpv].
  split; simpl; try done.
  - lia.
  - intros p Hp%Hlb. lia.
  - intros p Hp%Hlyl. lia.
  - intros p [-> | Hp%Hlt]%elem_of_cons; lia.
Qed.

(** What the indicators remember once their handler is through. *)
Lemma connection_handled_prev (is_connected : bool) (a : face) :
  face_inv a →
  prev_bluetooth (connection_handled is_connected a)
  = show_bluetooth a && is_connected.
Proof.
  intros Hinv. unfold connection_handled.
  destruct (show_bluetooth a); simpl.
  - destruct (eqb is_connected (prev_bluetooth a)) eqn:Heq.
    + by apply eqb_prop in Heq.
    + by destruct is_connected.
  - destruct (bluetooth_image a =? NULL) eqn:Hb; [ | done].
    apply Z.eqb_eq in Hb.
    destruct (prev_bluetooth a) eqn:Hpb; [ | done].
    by apply (fi_bt_prev _ Hinv) in Hpb.
Qed.

Lemma power_handled_prev (charge_state : BatteryChargeState) (a : face) :
  face_inv a →
  prev_power (power_handled charge_state a)
  = if show_power a then power_level_of charge_state else -1.
Proof.
  intros Hinv. unfold power_handled, power_shown.
  destruct (show_power a); simpl.
  - destruct (power_level_of charge_state =? prev_power a) eqn:Heq.
    + by apply Z.eqb_eq in Heq.
    + by destruct (power_layer a =? NULL).
  - destruct (power_image a =? NULL) eqn:Hb; [ | done].
    apply Z.eqb_eq in Hb.
    destruct (decide (prev_power a = -1)) as [ | Hp]; [done | ].
    by apply (fi_pw_prev _ Hinv) in Hp.
Qed.

Lemma connection_handled_power (is_connected : bool) (a : face) :
  prev_power (connection_handled is_connected a) = prev_power a
  ∧ power_image (connection_handled is_connected a) = power_image a
  ∧ power_layer (connection_handled is_connected a) = power_layer a.
Proof.
  unfold connection_handled, bluetooth_shown, bluetooth_hidden.
  by repeat case_match.
Qed.

Lemma app_init_ok (e : env) (store : gmap Z persisted) :
  store_delivers → store_short store → env_ok e →
  ∃ st a,
    display_time (tm_hour (now e)) (tm_min (now e)) (clock_is_24h_style e) true
      (cache (settings_retrieved store)) = Done tt st
    ∧ app_init e (initial_face store) = Ok tt a
    ∧ face_ok a
    ∧ image_slot_state (cache a) = image_slot_state st
    ∧ zero_prefix (cache a) = retrieved_bool store ZERO_PREFIX false
    ∧ show_power a = retrieved_bool store SHOW_POWER true
    ∧ show_bluetooth a = retrieved_bool store SHOW_BTOOTH true
    ∧ month_first a = retrieved_bool store MONTH_FIRST true
    ∧ day_text a = retrieved_days store
    ∧ persist a = store
    ∧ date a = date_text (now e) (settings_retrieved store)
    ∧ prev_day a = tm_wday (now e)
    ∧ prev_power a = (if retrieved_bool store SHOW_POWER true
                      then power_level_of (battery e) else -1)
    ∧ prev_bluetooth a = retrieved_bool store SHOW_BTOOTH true && connected e.
Proof.
  intros Hstore Hshort [Htm Hc].
  set (a1 := settings_retrieved store).
  pose proof (face_inv_settings_retrieved store Hshort) as Hinv1. fold a1 in Hinv1.
  destruct (face_display_time_ok (tm_hour (now e)) (tm_min (now e))
              (clock_is_24h_style e) true a1)
    as (st & Hdt & Hinv2 & Hnlz & Hzp); [done | done | by left | ].
  set (a2 := set_cache st a1) in *.
  destruct (handle_power_level_ok (battery e) a2 Hstore Hinv2 Hc) as [Heq3 Hinv3].
  destruct (power_handled_frame (battery e) a2)
    as (Hs3 & Hz3 & Ht3 & Hlt3 & Hp3 & Hsb3 & Hsp3 & Hmf3 & Hd3).
  set (a3 := power_handled (battery e) a2) in *.
  destruct (handle_connection_ok (connected e) a3 Hstore Hinv3) as [Heq4 Hinv4].
  destruct (connection_handled_frame (connected e) a3)
    as (Hs4 & Hz4 & Ht4 & Hlt4 & Hp4 & Hsb4 & Hsp4 & Hmf4 & Hd4).
  set (a4 := connection_handled (connected e) a3) in *.
  assert (prev_power a4 = (if retrieved_bool store SHOW_POWER true
                           then power_level_of (battery e) else -1)) as Hpp4.
  { unfold a4. destruct (connection_handled_power (connected e) a3) as (-> & _).
    unfold a3. by rewrite (power_handled_prev _ _ Hinv2). }
  assert (prev_bluetooth a4 = retrieved_bool store SHOW_BTOOTH true && connected e)
    as Hpb4.
  { unfold a4. by rewrite (connection_handled_prev _ _ Hinv3), Hsb3. }
  pose proof (face_inv_text_layer_created a4 Hinv4) as Hinv5.
  set (a5 := text_layer_created a4) in *.
  assert (text_layer a5 ∈ live_text_layers a5) as Htl5 by (simpl; by left).
  pose proof (display_date_ok (now e) a5 Hinv5 Htm Htl5) as Heq6.
  exists st, (set_prev_day (tm_wday (now e)) (date_displayed (now e) a5)).
  split; [done | ]. split.
  { rewrite app_init_unfold. fold a1.
    rewrite (fbind_Ok _ _ _ _ _ (lift_Done _ _ _ _ Hdt)). fold a2.
    rewrite (fbind_Ok _ _ _ _ _ Heq3).
    rewrite (fbind_Ok _ _ _ _ _ Heq4).
    unfold fbind at 1. unfold text_layer_create. cbv beta iota zeta.
    unfold fbind at 1. unfold fmodify at 1. cbv beta iota.
    change (set_text_layer _ _) with a5.
    by rewrite (fbind_Ok _ _ _ _ _ Heq6). }
  split.
  { split_and!.
    - by apply face_inv_set_prev_day, face_inv_date_displayed.
    - apply (no_leading_zero_same st); [ | | done].
      + simpl. by rewrite Hs4, Hs3.
      + simpl. by rewrite Hz4, Hz3.
    - done. }
  split_and!; simpl;
    rewrite ?Hs4, ?Hs3, ?Hz4, ?Hz3, ?Hsp4, ?Hsp3, ?Hsb4, ?Hsb3, ?Hmf4, ?Hmf3,
      ?Hd4, ?Hd3, ?Hp4, ?Hp3, ?Hpp4, ?Hpb4;
    unfold a2, a1; simpl; rewrite ?Hzp; try done.
  unfold date_text. simpl. by rewrite Hd4, Hd3, Hmf4, Hmf3.
Qed.


(** ** Whole runs *)

Lemma tick_handled_frame (tick_time : tm) (st : state) (a : face) :
  let a' := tick_handled tick_time st a in
  cache a' = st
  ∧ persist a' = persist a
  ∧ prev_day a' = tm_wday tick_time
  ∧ date a' = (if prev_day a =? tm_wday tick_time then date a
               else date_text tick_time a).
Proof.
  unfold tick_handled. destruct (prev_day a =? tm_wday tick_time) eqn:Hd; simpl.
  - apply Z.eqb_eq in Hd. done.
  - done.
Qed.

Lemma handle_saves (ev : event) (a : face) :
  store_delivers → face_ok a → event_ok ev →
  ∃ a', handle ev a = Ok tt a' ∧ face_ok a' ∧ persist a' = saved_by ev (persist a).
Proof.
  intros Hstore Hok Hev. destruct ev as [t c24 | c | b | key t e]; simpl in *.
  - destruct (handle_minute_tick_ok t c24 a) as (st' & _ & ? & ? & _); try done.
    destruct (tick_handled_frame t st' a) as (_ & ? & _). eauto.
  - destruct (face_ok_power_handled c a); try done.
    destruct (power_handled_frame c a) as (_ & _ & _ & _ & ? & _). eauto.
  - destruct (face_ok_connection_handled b a); try done.
    destruct (connection_handled_frame b a) as (_ & _ & _ & _ & ? & _). eauto.
  - destruct Hev as [He Ht]. by apply sync_ok.
Qed.

Lemma handle_all_saves (evs : list event) (a : face) :
  store_delivers → face_ok a → Forall event_ok evs →
  ∃ a', handle_all evs a = Ok tt a' ∧ face_ok a'
        ∧ persist a' = saved_by_all evs (persist a).
Proof.
  intros Hstore Hok Hevs. revert a Hok.
  induction Hevs as [ | ev evs Hev _ IH]; intros a Hok; simpl.
  - by exists a.
  - destruct (handle_saves ev a) as (a1 & Heq & Hok1 & Hp1); [done .. | ].
    rewrite (fbind_Ok _ _ _ _ _ Heq).
    destruct (IH a1 Hok1) as (a' & ? & ? & Hp). exists a'.
    split_and!; [done | done | ]. by rewrite Hp, Hp1.
Qed.

Lemma run_ok (store : gmap Z persisted) (e : env) (evs : list event) :
  store_delivers → store_short store → env_ok e → Forall event_ok evs →
  ∃ a, run e evs (initial_face store) = Ok tt a ∧ face_ok a
       ∧ persist a = saved_by_all evs store.
Proof.
  intros Hstore Hshort He Hevs.
  destruct (app_init_ok e store Hstore Hshort He)
    as (st & a0 & _ & Heq & Hok & _ & _ & _ & _ & _ & _ & Hp & _).
  destruct (handle_all_saves evs a0 Hstore Hok Hevs) as (a & ? & ? & Hpa).
  exists a. unfold run. rewrite (fbind_Ok _ _ _ _ _ Heq).
  split_and!; [done | done | ]. by rewrite Hpa, Hp.
Qed.

Lemma reachable_ok (store : gmap Z persisted) (e : env) (evs : list event)
      (a : face) :
  store_delivers → store_short store → env_ok e → Forall event_ok evs →
  run e evs (initial_face store) = Ok tt a →
  face_ok a ∧ persist a = saved_by_all evs store.
Proof.
  intros Hstore Hshort He Hevs Hrun.
  destruct (run_ok store e evs) as (a' & Hrun' & ? & ?); [done .. | ].
  rewrite Hrun in Hrun'. by injection Hrun' as ->.
Qed.

Lemma saved_other_key (key k : Z) (new_tuple : Tuple) (store : gmap Z persisted) :
  k = SHOW_BTOOTH → saved key new_tuple store !! k = store !! k.
Proof.
  intros ->. unfold saved.
  destruct (Z.eqb_spec key ZERO_PREFIX); [by rewrite lookup_insert_ne | ].
  destruct ((key =? SHOW_POWER) || (key =? SHOW_BTOOTH));
    [by rewrite lookup_insert_ne | ].
  destruct (Z.eqb_spec key MONTH_FIRST); [by rewrite lookup_insert_ne | ].
  destruct ((SUN_TEXT <=? key) && (key <=? SAT_TEXT)) eqn:Hr; [ | done].
  apply andb_true_iff in Hr as [Hlo%Z.leb_le Hhi%Z.leb_le].
  rewrite lookup_insert_ne; [done | ]. unfold SUN_TEXT, SHOW_BTOOTH in *. lia.
Qed.

Lemma saved_by_all_bluetooth (evs : list event) (store : gmap Z persisted) :
  saved_by_all evs store !! SHOW_BTOOTH = store !! SHOW_BTOOTH.
Proof.
  unfold saved_by_all. revert store.
  induction evs as [ | ev evs IH]; intros store; simpl; [done | ].
  rewrite IH. destruct ev; simpl; try done. by apply saved_other_key.
Qed.

Lemma saved_short (key : Z) (new_tuple : Tuple) (store : gmap Z persisted) :
  store_short store → tuple_ok key new_tuple →
  store_short (saved key new_tuple store).
Proof.
  intros Hshort Ht k s. unfold saved.
  destruct (Z.eqb_spec key ZERO_PREFIX).
  { intros [(_ & [=]) | (_ & Hs)]%lookup_insert_Some. by eapply Hshort. }
  destruct ((key =? SHOW_POWER) || (key =? SHOW_BTOOTH)).
  { intros [(_ & [=]) | (_ & Hs)]%lookup_insert_Some. by eapply Hshort. }
  destruct (Z.eqb_spec key MONTH_FIRST).
  { intros [(_ & [=]) | (_ & Hs)]%lookup_insert_Some. by eapply Hshort. }
  destruct ((SUN_TEXT <=? key) && (key <=? SAT_TEXT)) eqn:Hr;
    [ | by apply Hshort].
  apply andb_true_iff in Hr as [Hlo%Z.leb_le Hhi%Z.leb_le].
  intros [(_ & [= <-]) | (_ & Hs)]%lookup_insert_Some; [ | by eapply Hshort].
  by apply Ht.
Qed.

Lemma saved_by_all_short (evs : list event) (store : gmap Z persisted) :
  store_short store → Forall event_ok evs → store_short (saved_by_all evs store).
Proof.
  unfold saved_by_all. intros Hshort Hevs. revert store Hshort.
  induction Hevs as [ | ev evs Hev _ IH]; intros store Hshort; simpl; [done | ].
  apply IH. destruct ev as [ | | | key t e]; simpl; try done.
  destruct Hev as [_ Ht]. by apply saved_short.
Qed.


(** ** What the watch face does *)

(** X8.  Started on a store whose day names have at most nine characters,
    with bitmaps that load, times that are times and a charge of 0..100
    percent, and sent only day names of at most nine characters that fit
    their tuple, the watch face runs through any sequence of ticks,
    battery and connection events and settings without undefined
    behaviour: no null or dangling pointer is used, nothing is destroyed
    twice, no array is indexed out of bounds and [date] never overflows.
    The state it reaches satisfies the invariant, and its text layer
    exists. *)
Theorem watch_face_never_crashes (store : gmap Z persisted) (e : env)
        (evs : list event) :
  store_delivers → store_short store → env_ok e → Forall event_ok evs →
  run e evs (initial_face store) = Ok tt (face_after store e evs)
  ∧ face_inv (face_after store e evs)
  ∧ no_leading_zero (cache (face_after store e evs))
  ∧ text_layer (face_after store e evs) ∈ live_text_layers (face_after store e evs).
Proof.
  intros Hstore Hshort He Hevs.
  destruct (run_ok store e evs) as (a & Hrun & Hok & _); [done .. | ].
  unfold face_after. rewrite Hrun. split; [done | ]. exact Hok.
Qed.

(** X9.  After [handle_connection] the bluetooth icon is on screen exactly
    when the indicator is switched on and the phone is connected, whatever
    happened before; and when it is on screen its bitmap and its layer
    are live. *)
Theorem bluetooth_icon_follows_connection (store : gmap Z persisted) (e : env)
        (evs : list event) (a : face) (is_connected : bool) :
  store_delivers → store_short store → env_ok e → Forall event_ok evs →
  run e evs (initial_face store) = Ok tt a →
  ∃ a', handle_connection is_connected a = Ok tt a'
        ∧ (bluetooth_image a' ≠ NULL
           ↔ show_bluetooth a = true ∧ is_connected = true)
        ∧ (bluetooth_image a' ≠ NULL →
           bluetooth_image a' ∈ live_bitmaps (cache a')
           ∧ bluetooth_layer a' ∈ live_layers (cache a')).
Proof.
  intros Hstore Hshort He Hevs Hrun.
  destruct (reachable_ok store e evs a) as [(Hinv & _ & _) _]; [done .. | ].
  destruct (handle_connection_ok is_connected a Hstore Hinv) as [Heq Hinv'].
  exists (connection_handled is_connected a). split; [done | ]. split.
  - rewrite (fi_bt_prev _ Hinv'), (connection_handled_prev _ _ Hinv).
    apply andb_true_iff.
  - intros Hb. by destruct (face_inv_bluetooth_live _ Hinv' Hb).
Qed.

(** X10.  When the power level changes while the indicator is shown,
    [handle_power_level] loads the new bitmap over the pointer to the old
    one: the old bitmap stays allocated, and nothing in the program points
    to it any more. *)
Theorem power_level_change_leaks_bitmap (store : gmap Z persisted) (e : env)
        (evs : list event) (a : face) (charge_state : BatteryChargeState) :
  store_delivers → store_short store → env_ok e → Forall event_ok evs →
  run e evs (initial_face store) = Ok tt a →
  battery_ok charge_state →
  show_power a = true → power_image a ≠ NULL →
  power_level_of charge_state ≠ prev_power a →
  ∃ a', handle_power_level charge_state a = Ok tt a'
        ∧ power_image a' ≠ NULL
        ∧ power_image a' ≠ power_image a
        ∧ power_layer a' = power_layer a
        ∧ power_image a ∈ live_bitmaps (cache a')
        ∧ (power_image a ∉ owned_bitmaps a').
Proof.
  intros Hstore Hshort He Hevs Hrun Hc Hsp Hb Hne.
  destruct (reachable_ok store e evs a) as [(Hinv & _ & _) _]; [done .. | ].
  destruct (handle_power_level_ok charge_state a Hstore Hinv Hc) as [Heq _].
  destruct (face_inv_power_live a Hinv Hb) as [_ Hlive].
  assert (power_layer a ≠ NULL) as Hl by (by rewrite <- (fi_pw_pair _ Hinv)).
  pose proof (fi_live_b _ Hinv _ Hlive) as Hold.
  pose proof (fi_owned_b _ Hinv) as Hnd.
  exists (power_handled charge_state a). split; [done | ].
  unfold power_handled, power_shown. rewrite Hsp.
  apply Z.eqb_neq in Hne, Hl. rewrite Hne, Hl.
  unfold owned_bitmaps in *. simpl.
  split_and!.
  - unfold NULL. lia.
  - lia.
  - done.
  - by right.
  - rewrite (some_ptr_ne _ Hb), app_assoc in Hnd.
    apply NoDup_app in Hnd as (_ & Hapart & _).
    rewrite app_assoc. intros [Hin | Hin]%elem_of_app.
    + apply (Hapart _ Hin). by left.
    + rewrite some_ptr_ne in Hin by (unfold NULL; lia).
      apply list_elem_of_singleton in Hin. lia.
Qed.

(** X11.  Nothing the watch face does writes the [SHOW_BTOOTH] key of the
    persistent store: after any run it holds what it held before the
    start. *)
Theorem bluetooth_setting_is_never_saved (store : gmap Z persisted) (e : env)
        (evs : list event) (a : face) :
  store_delivers → store_short store → env_ok e → Forall event_ok evs →
  run e evs (initial_face store) = Ok tt a →
  persist a !! SHOW_BTOOTH = store !! SHOW_BTOOTH.
Proof.
  intros Hstore Hshort He Hevs Hrun.
  destruct (reachable_ok store e evs a) as [_ ->]; [done .. | ].
  apply saved_by_all_bluetooth.
Qed.


(** ** Settings across a restart *)

Lemma retrieved_bool_insert (store : gmap Z persisted) (key : Z) (b def : bool) :
  retrieved_bool (<[key := PBool b]> store) key def = b.
Proof.
  unfold retrieved_bool, persist_exists, persist_read_bool.
  rewrite lookup_insert_eq. by rewrite bool_decide_eq_true_2.
Qed.

Lemma retrieved_string_insert (store : gmap Z persisted) (key : Z) (s def : string) :
  retrieved_string (<[key := PString s]> store) key def = s.
Proof.
  unfold retrieved_string, persist_exists, persist_read_string.
  rewrite lookup_insert_eq. by rewrite bool_decide_eq_true_2.
Qed.

Lemma retrieved_bool_same (store store' : gmap Z persisted) (key : Z) (def : bool) :
  store' !! key = store !! key →
  retrieved_bool store' key def = retrieved_bool store key def.
Proof.
  intros Heq. unfold retrieved_bool, persist_exists, persist_read_bool.
  by rewrite Heq.
Qed.

Lemma retrieved_days_lookup (store : gmap Z persisted) (key : Z) :
  SUN_TEXT ≤ key ≤ SAT_TEXT →
  ∃ def, retrieved_days store !! Z.to_nat (key - SUN_TEXT)
         = Some (retrieved_string store key def).
Proof.
  unfold SUN_TEXT, SAT_TEXT. intros Hkey.
  assert (key = 4 ∨ key = 5 ∨ key = 6 ∨ key = 7 ∨ key = 8 ∨ key = 9 ∨ key = 10)
    as Hcases by lia.
  destruct Hcases as [-> | [-> | [-> | [-> | [-> | [-> | ->]]]]]];
    eexists; reflexivity.
Qed.

(** X12.  A setting sent by the phone is in force again after a restart:
    what [sync_tuple_changed_callback] saves for [ZERO_PREFIX],
    [SHOW_POWER], [MONTH_FIRST] and the seven day names is what [app_init]
    reads back from the store. *)
Theorem settings_survive_restart (store : gmap Z persisted) (e : env)
        (evs : list event) (a : face) (key : Z) (new_tuple : Tuple)
        (e1 e2 : env) :
  store_delivers → store_short store → env_ok e → Forall event_ok evs →
  run e evs (initial_face store) = Ok tt a →
  env_ok e1 → tuple_ok key new_tuple → env_ok e2 →
  ∃ a' b, sync_tuple_changed_callback key new_tuple e1 a = Ok tt a'
          ∧ app_init e2 (initial_face (persist a')) = Ok tt b
          ∧ (key = ZERO_PREFIX →
             zero_prefix (cache b) = get_tuple_bool_value new_tuple)
          ∧ (key = SHOW_POWER → show_power b = get_tuple_bool_value new_tuple)
          ∧ (key = MONTH_FIRST → month_first b = get_tuple_bool_value new_tuple)
          ∧ (SUN_TEXT ≤ key ≤ SAT_TEXT →
             day_text b !! Z.to_nat (key - SUN_TEXT)
             = Some (value_cstring new_tuple)).
Proof.
  intros Hstore Hshort He Hevs Hrun He1 Ht He2.
  destruct (reachable_ok store e evs a) as [Hok Hp]; [done .. | ].
  destruct (sync_ok key new_tuple e1 a) as (a' & Heq & _ & Hp'); [done .. | ].
  assert (store_short (persist a')) as Hshort'.
  { rewrite Hp', Hp. apply saved_short; [by apply saved_by_all_short | done]. }
  destruct (app_init_ok e2 (persist a') Hstore Hshort' He2)
    as (st & b & _ & Hinit & _ & _ & Hzp & Hsp & _ & Hmf & Hdays & _).
  exists a', b. split; [done | ]. split; [done | ].
  rewrite Hzp, Hsp, Hmf, Hdays, Hp'. split_and!.
  - intros ->. apply retrieved_bool_insert.
  - intros ->. apply retrieved_bool_insert.
  - intros ->. apply retrieved_bool_insert.
  - intros Hkey. rewrite (saved_day_key _ _ _ Hkey).
    destruct (retrieved_days_lookup
                (<[key := PString (value_cstring new_tuple)]> (persist a)) key Hkey)
      as (def & ->).
    by rewrite retrieved_string_insert.
Qed.

(** X13.  The bluetooth setting is the exception.  The [SHOW_BTOOTH] case
    of [sync_tuple_changed_callback] switches the indicator as told but
    saves the value under [SHOW_POWER]: after a restart the bluetooth
    indicator is as it was at the first start, and the power indicator
    has taken the value that was meant for the bluetooth one. *)
Theorem bluetooth_setting_lost_on_restart (store : gmap Z persisted) (e : env)
        (evs : list event) (a : face) (new_tuple : Tuple) (e1 e2 : env) :
  store_delivers → store_short store → env_ok e → Forall event_ok evs →
  run e evs (initial_face store) = Ok tt a →
  env_ok e1 → env_ok e2 →
  ∃ a' b, sync_tuple_changed_callback SHOW_BTOOTH new_tuple e1 a = Ok tt a'
          ∧ show_bluetooth a' = get_tuple_bool_value new_tuple
          ∧ show_power a' = show_power a
          ∧ app_init e2 (initial_face (persist a')) = Ok tt b
          ∧ show_bluetooth b = retrieved_bool store SHOW_BTOOTH true
          ∧ show_power b = get_tuple_bool_value new_tuple.
Proof.
  intros Hstore Hshort He Hevs Hrun He1 He2.
  destruct (reachable_ok store e evs a) as [Hok Hp]; [done .. | ].
  destruct (sync_show_bluetooth_ok new_tuple e1 a Hstore Hok)
    as (a' & Heq & _ & Hp' & Hsb).
  assert (show_power a' = show_power a) as Hsp'.
  { unfold sync_tuple_changed_callback in Heq.
    change (SHOW_BTOOTH =? ZERO_PREFIX) with false in Heq.
    change (SHOW_BTOOTH =? SHOW_POWER) with false in Heq.
    change (SHOW_BTOOTH =? SHOW_BTOOTH) with true in Heq. cbv iota in Heq.
    unfold fbind at 1 in Heq. unfold fmodify at 1 in Heq. cbv beta iota in Heq.
    destruct (face_ok_connection_handled (connected e1)
                (set_show_bluetooth (get_tuple_bool_value new_tuple) a) Hstore)
      as [Hc _]; [by apply face_ok_set_show_bluetooth | ].
    rewrite (fbind_Ok _ _ _ _ _ Hc) in Heq.
    unfold fbind, fgets, persist_write_bool, fmodify in Heq.
    injection Heq as <-.
    destruct (connection_handled_frame (connected e1)
                (set_show_bluetooth (get_tuple_bool_value new_tuple) a))
      as (_ & _ & _ & _ & _ & _ & Hsp & _).
    simpl. by rewrite Hsp. }
  assert (store_short (persist a')) as Hshort'.
  { rewrite Hp', Hp. apply saved_short; [by apply saved_by_all_short | ].
    unfold tuple_ok, SUN_TEXT, SAT_TEXT, SHOW_BTOOTH. lia. }
  destruct (app_init_ok e2 (persist a') Hstore Hshort' He2)
    as (st & b & _ & Hinit & _ & _ & _ & Hspb & Hsbb & _).
  exists a', b. split_and!; try done.
  - rewrite Hsbb. apply retrieved_bool_same.
    rewrite Hp', Hp, saved_other_key by done. apply saved_by_all_bluetooth.
  - rewrite Hspb, Hp'. apply retrieved_bool_insert.
Qed.


(** ** The end, the tick and the start *)

(** X14.  [app_destroy] empties the four slots and destroys the text
    layer, and that is all it releases: the bitmap and the layer of a
    power or bluetooth indicator that is on screen are still allocated
    when it returns. *)
Theorem app_destroy_leaves_indicators (store : gmap Z persisted) (e : env)
        (evs : list event) (a : face) :
  store_delivers → store_short store → env_ok e → Forall event_ok evs →
  run e evs (initial_face store) = Ok tt a →
  ∃ a', app_destroy a = Ok tt a'
        ∧ (∀ i, 0 ≤ i < TOTAL_IMAGE_SLOTS →
                slot_digit (cache a') i = Some EMPTY_SLOT)
        ∧ (text_layer a ∉ live_text_layers a')
        ∧ (power_image a ≠ NULL →
           power_image a ∈ live_bitmaps (cache a')
           ∧ power_layer a ∈ live_layers (cache a'))
        ∧ (bluetooth_image a ≠ NULL →
           bluetooth_image a ∈ live_bitmaps (cache a')
           ∧ bluetooth_layer a ∈ live_layers (cache a')).
Proof.
  intros Hstore Hshort He Hevs Hrun.
  destruct (reachable_ok store e evs a) as [(Hinv & _ & Htl) _]; [done .. | ].
  destruct (face_app_destroy_ok a Hinv) as (st' & Heq & Hinv' & _ & Hslots).
  exists (set_live_text_layers
            (filter (λ q, q ≠ text_layer a) (live_text_layers a))
            (set_cache st' a)).
  split.
  { unfold app_destroy.
    rewrite (fbind_Ok _ _ _ _ _ (lift_Done _ _ _ _ Heq)).
    unfold fbind, fgets, text_layer_destroy. cbv beta iota.
    change (text_layer (set_cache st' a)) with (text_layer a).
    change (live_text_layers (set_cache st' a)) with (live_text_layers a).
    by rewrite (bool_decide_eq_true_2 _ Htl). }
  split; [exact Hslots | ]. split.
  { simpl. intros [Hne _]%list_elem_of_filter. done. }
  split.
  - intros Hb. by destruct (face_inv_power_live _ Hinv' Hb).
  - intros Hb. by destruct (face_inv_bluetooth_live _ Hinv' Hb).
Qed.

(** X15.  A minute tick puts the time on screen: afterwards the four
    slots hold the digits of the hour as displayed and of the minute.
    The date line is printed anew when the day of the week differs from
    the one last printed, and left as it is otherwise. *)
Theorem tick_shows_time_and_date (store : gmap Z persisted) (e : env)
        (evs : list event) (a : face) (tick_time : tm) (c24 : bool) :
  store_delivers → store_short store → env_ok e → Forall event_ok evs →
  run e evs (initial_face store) = Ok tt a →
  tm_ok tick_time → 0 ≤ tm_hour tick_time ≤ 23 → 0 ≤ tm_min tick_time ≤ 59 →
  ∃ a', handle_minute_tick tick_time c24 a = Ok tt a'
        ∧ image_slot_state (cache a')
          = time_digits (zero_prefix (cache a)) c24
                        (tm_hour tick_time) (tm_min tick_time)
        ∧ date a' = (if prev_day a =? tm_wday tick_time then date a
                     else date_text tick_time a)
        ∧ prev_day a' = tm_wday tick_time.
Proof.
  intros Hstore Hshort He Hevs Hrun Htm Hhour Hmin.
  destruct (reachable_ok store e evs a) as [Hok _]; [done .. | ].
  destruct (handle_minute_tick_ok tick_time c24 a Hstore Hok Htm)
    as (st' & Hdt & Heq & _ & _).
  destruct Hok as (Hinv & Hnlz & _).
  pose proof (face_display_time_shows _ _ c24 false a st' Hinv Hstore Hhour Hmin
                (or_intror Hnlz) Hdt) as Hshows.
  destruct (tick_handled_frame tick_time st' a) as (Hc & _ & Hpd & Hdate).
  exists (tick_handled tick_time st' a).
  split_and!; [done | by rewrite Hc | done | done].
Qed.

(** X16.  [app_init] leaves the time on screen with the stored
    [zero_prefix], the date line printed with the stored day names and
    order, the power icon shown exactly when [SHOW_POWER] is on and the
    bluetooth icon exactly when [SHOW_BTOOTH] is on and the phone is
    connected; keys the store lacks count as off for [ZERO_PREFIX] and
    as on for the other three. *)
Theorem app_init_shows_time_date_and_icons (store : gmap Z persisted) (e : env) :
  store_delivers → store_short store → env_ok e →
  0 ≤ tm_hour (now e) ≤ 23 → 0 ≤ tm_min (now e) ≤ 59 →
  ∃ a, app_init e (initial_face store) = Ok tt a
       ∧ image_slot_state (cache a)
         = time_digits (retrieved_bool store ZERO_PREFIX false)
                       (clock_is_24h_style e) (tm_hour (now e)) (tm_min (now e))
       ∧ date a = date_text (now e) (settings_retrieved store)
       ∧ (power_image a ≠ NULL ↔ retrieved_bool store SHOW_POWER true = true)
       ∧ (bluetooth_image a ≠ NULL
          ↔ retrieved_bool store SHOW_BTOOTH true = true ∧ connected e = true).
Proof.
  intros Hstore Hshort He Hhour Hmin.
  destruct (app_init_ok e store Hstore Hshort He)
    as (st & a & Hdt & Hinit & (Hinv & _) & Hslots & _ & _ & _ & _ & _ & _
        & Hdate & _ & Hpp & Hpb).
  pose proof (face_display_time_shows _ _ (clock_is_24h_style e) true
                (settings_retrieved store) st
                (face_inv_settings_retrieved store Hshort) Hstore Hhour Hmin
                (or_introl eq_refl) Hdt) as Hshows.
  exists a. split_and!; [done | by rewrite Hslots, Hshows | done | | ].
  - rewrite (fi_pw_prev _ Hinv), Hpp.
    destruct He as [_ Hc]. pose proof (power_level_range _ Hc).
    destruct (retrieved_bool store SHOW_POWER true); split; try done; lia.
  - rewrite (fi_bt_prev _ Hinv), Hpb. apply andb_true_iff.
Qed.


(** ** A day name that does not fit *)

Lemma pretty_nonempty (n : Z) :
  0 ≤ n ≤ 99 → (1 ≤ String.length (pretty n))%nat.
Proof.
  intros Hn.
  assert (∃ k : nat, n = Z.of_nat k ∧ (k < 100)%nat) as (k & -> & Hk).
  { exists (Z.to_nat n). lia. }
  clear Hn. do 100 (destruct k as [ | k]; [vm_compute; lia | ]). lia.
Qed.

Lemma display_date_overflow (tick_time : tm) (a : face) (s : string) :
  tm_ok tick_time →
  day_text a !! Z.to_nat (tm_wday tick_time) = Some s →
  (12 ≤ String.length s)%nat →
  display_date tick_time a = Crash.
Proof.
  intros ([Hwday _] & Hmon & Hmday) Hs Hlen.
  assert (1 ≤ String.length (pretty (tm_mon tick_time)))%nat
    by (apply pretty_nonempty; lia).
  assert (1 ≤ String.length (pretty (tm_mday tick_time)))%nat
    by (apply pretty_nonempty; lia).
  apply Z.leb_le in Hwday.
  destruct a as [st bi bl pi pl tl ltl tsd pb pp pd dt sp sb mf days ps].
  simpl in *. unfold display_date. face_run. rewrite Hwday, Hs. face_run.
  match goal with
  | |- context [?x <? DATE_SIZE] => assert ((x <? DATE_SIZE) = false) as ->
  end; [ | done].
  apply Z.ltb_ge. unfold DATE_SIZE. rewrite !string_length_app. simpl.
  destruct mf; lia.
Qed.

Lemma sync_day_text_overflow (new_tuple : Tuple) (key day : Z) (e : env) (a : face) :
  face_ok a → tm_ok (now e) → 0 ≤ day ≤ 6 →
  Z.of_nat (String.length (value_cstring new_tuple)) < tuple_length new_tuple →
  (12 ≤ String.length (value_cstring new_tuple))%nat →
  prev_day a = day → tm_wday (now e) = day →
  sync_day_text new_tuple key day e a = Crash.
Proof.
  intros Hok Htm Hday Hfit Hlen Hpd Hwd.
  set (s := value_cstring new_tuple) in *.
  set (a1 := set_day_text (<[Z.to_nat day := s]> (day_text a)) a).
  assert (day_text a1 !! Z.to_nat (tm_wday (now e)) = Some s) as Hlook.
  { rewrite Hwd. simpl. apply list_lookup_insert_eq.
    rewrite (fi_len_days _ (face_ok_inv _ Hok)). lia. }
  apply Z.ltb_lt in Hfit.
  unfold sync_day_text. unfold fbind at 1. cbv beta iota. fold s. rewrite Hfit.
  cbv iota. fold a1. unfold fbind at 1, fgets at 1. cbv beta iota.
  change (prev_day a1) with (prev_day a). rewrite Hpd, Z.eqb_refl.
  unfold update_date.
  rewrite (fbind_Crash _ _ _ (display_date_overflow _ _ _ Htm Hlook Hlen)).
  done.
Qed.

(** X17.  A day name of twelve characters or more, sent for the day of
    the week that is on screen, crashes the watch face: the name is
    accepted and stored, and the date line printed with it overflows the
    sixteen bytes of [date]. *)
Theorem long_day_name_crashes (store : gmap Z persisted) (e : env)
        (evs : list event) (a : face) (new_tuple : Tuple) (e1 : env) :
  store_delivers → store_short store → env_ok e → Forall event_ok evs →
  run e evs (initial_face store) = Ok tt a →
  tm_ok (now e1) →
  Z.of_nat (String.length (value_cstring new_tuple)) < tuple_length new_tuple →
  (12 ≤ String.length (value_cstring new_tuple))%nat →
  prev_day a = tm_wday (now e1) →
  sync_tuple_changed_callback (SUN_TEXT + tm_wday (now e1)) new_tuple e1 a = Crash.
Proof.
  intros Hstore Hshort He Hevs Hrun Htm Hfit Hlen Hpd.
  destruct (reachable_ok store e evs a) as [Hok _]; [done .. | ].
  pose proof Htm as ([Hw0 Hw6] & _).
  assert (∀ day, tm_wday (now e1) = day → 0 ≤ day ≤ 6 →
            sync_day_text new_tuple (SUN_TEXT + day) day e1 a = Crash) as Hcrash.
  { intros day Hd Hrange. apply sync_day_text_overflow; try done. congruence. }
  assert (tm_wday (now e1) = 0 ∨ tm_wday (now e1) = 1 ∨ tm_wday (now e1) = 2
          ∨ tm_wday (now e1) = 3 ∨ tm_wday (now e1) = 4 ∨ tm_wday (now e1) = 5
          ∨ tm_wday (now e1) = 6) as Hcases by lia.
  destruct Hcases as [Hd | [Hd | [Hd | [Hd | [Hd | [Hd | Hd]]]]]];
    rewrite Hd; (apply (Hcrash _ Hd); lia).
Qed.


(** X18.  After [handle_power_level] the power icon is on screen exactly
    when the indicator is switched on, and the level remembered is the
    one of the charge state: 5 when charging, else a fifth of the
    percentage less one, which is 0 for an empty battery. *)
Theorem power_icon_follows_setting (store : gmap Z persisted) (e : env)
        (evs : list event) (a : face) (charge_state : BatteryChargeState) :
  store_delivers → store_short store → env_ok e → Forall event_ok evs →
  run e evs (initial_face store) = Ok tt a →
  battery_ok charge_state →
  ∃ a', handle_power_level charge_state a = Ok tt a'
        ∧ (power_image a' ≠ NULL ↔ show_power a = true)
        ∧ prev_power a' = (if show_power a then power_level_of charge_state else -1)
        ∧ 0 ≤ power_level_of charge_state ≤ 5
        ∧ (power_image a' ≠ NULL →
           power_image a' ∈ live_bitmaps (cache a')
           ∧ power_layer a' ∈ live_layers (cache a')).
Proof.
  intros Hstore Hshort He Hevs Hrun Hc.
  destruct (reachable_ok store e evs a) as [(Hinv & _ & _) _]; [done .. | ].
  destruct (handle_power_level_ok charge_state a Hstore Hinv Hc) as [Heq Hinv'].
  pose proof (power_level_range _ Hc) as Hlv.
  exists (power_handled charge_state a).
  split; [done | ]. split; [ | split; [ | split; [done | ]]].
  - rewrite (fi_pw_prev _ Hinv'), (power_handled_prev _ _ Hinv).
    destruct (show_power a); split; try done; lia.
  - by apply power_handled_prev.
  - intros Hb. by destruct (face_inv_power_live _ Hinv' Hb).
Qed.


(** ** Runs that return, whatever the environment

    [face_inv] asks for day names of at most nine characters, which only
    a store and a phone that behave provide.  The heap and the slots do
    not depend on them: [heap_inv] is [face_inv] with the day names put
    aside, and it holds, with [no_leading_zero], after every run that
    returns.  Handlers that never look at the day names are run on the
    state without them; [display_date] and [sync_day_text], when they
    return, have changed nothing that [heap_inv] speaks of. *)

Lemma fbind_inv {A B} (m : F A) (k : A → F B) (a a' : face) (y : B) :
  fbind m k a = Ok y a' → ∃ x a1, m a = Ok x a1 ∧ k x a1 = Ok y a'.
Proof. unfold fbind. destruct (m a) as [x a1 | ]; [eauto | done]. Qed.

Lemma lift_inv {A} (m : M A) (a a' : face) (x : A) :
  lift m a = Ok x a' → ∃ st, m (cache a) = Done x st ∧ a' = set_cache st a.
Proof.
  unfold lift. destruct (m (cache a)) as [y st | ]; [ | done].
  intros [= <- <-]. by exists st.
Qed.

(** Handlers built from steps that ignore the day names ignore them. *)
Lemma ignores_fbind {A B} (m : F A) (k : A → F B) :
  ignores_day_text m → (∀ x, ignores_day_text (k x)) →
  ignores_day_text (fbind m k).
Proof.
  intros Hm Hk days a. unfold fbind. rewrite Hm.
  destruct (m a) as [x a1 | ]; simpl; [apply Hk | done].
Qed.

Lemma ignores_fret {A} (x : A) : ignores_day_text (fret x).
Proof. done. Qed.

Lemma ignores_crash {A} : ignores_day_text (@crash A).
Proof. done. Qed.

Lemma ignores_fgets {A} (f : face → A) :
  (∀ days a, f (set_day_text days a) = f a) → ignores_day_text (fgets f).
Proof. intros Hf days a. unfold fgets. simpl. by rewrite Hf. Qed.

Lemma ignores_fmodify (f : face → face) :
  (∀ days a, f (set_day_text days a) = set_day_text days (f a)) →
  ignores_day_text (fmodify f).
Proof. intros Hf days a. unfold fmodify. simpl. by rewrite Hf. Qed.

Lemma ignores_lift {A} (m : M A) : ignores_day_text (lift m).
Proof.
  intros days a. unfold lift.
  change (cache (set_day_text days a)) with (cache a).
  by destruct (m (cache a)).
Qed.

Ltac ignores_step :=
  first
    [ apply ignores_fbind
    | apply ignores_lift
    | apply ignores_fret
    | apply ignores_crash
    | apply ignores_fgets; reflexivity
    | apply ignores_fmodify; reflexivity
    | match goal with
      | |- ∀ _, _ => intros ?
      | |- ignores_day_text (if ?c then _ else _) => destruct c
      end ].

Lemma ignores_hide_bluetooth : ignores_day_text hide_bluetooth.
Proof. unfold hide_bluetooth. repeat ignores_step. Qed.

Lemma ignores_handle_connection (is_connected : bool) :
  ignores_day_text (handle_connection is_connected).
Proof.
  unfold handle_connection.
  repeat first [apply ignores_hide_bluetooth | ignores_step].
Qed.

Lemma ignores_handle_power_level (charge_state : BatteryChargeState) :
  ignores_day_text (handle_power_level charge_state).
Proof. unfold handle_power_level. repeat ignores_step. Qed.
(** The slot cache, on a state whose day names are anything. *)
Lemma heap_display_time_ok (tm_hour tm_min : Z) (c24 changed : bool) (a : face) :
  heap_inv a → store_delivers →
  changed = true ∨ no_leading_zero (cache a) →
  ∃ st', display_time tm_hour tm_min c24 changed (cache a) = Done tt st'
         ∧ heap_inv (set_cache st' a) ∧ no_leading_zero st'
         ∧ zero_prefix st' = zero_prefix (cache a).
Proof.
  intros Hinv Hstore Hpre.
  exact (face_display_time_ok tm_hour tm_min c24 changed (without_day_names a)
           Hinv Hstore Hpre).
Qed.

Lemma heap_handle_connection (is_connected : bool) (a : face) :
  store_delivers → heap_inv a →
  ∃ a', handle_connection is_connected a = Ok tt a'
        ∧ heap_inv a'
        ∧ image_slot_state (cache a') = image_slot_state (cache a)
        ∧ zero_prefix (cache a') = zero_prefix (cache a).
Proof.
  intros Hstore Hinv.
  destruct (handle_connection_ok is_connected _ Hstore Hinv) as [Heq Hinv'].
  destruct (connection_handled_frame is_connected (without_day_names a))
    as (Hs & Hz & _).
  unfold without_day_names in Heq at 1. rewrite ignores_handle_connection in Heq.
  destruct (handle_connection is_connected a) as [[] a' | ]; [ | done].
  unfold on_face in Heq. injection Heq as Heq.
  assert (without_day_names a'
          = connection_handled is_connected (without_day_names a)) as Heq'
    by exact Heq.
  exists a'. unfold heap_inv.
  change (cache a') with (cache (without_day_names a')).
  by rewrite Heq'.
Qed.

Lemma handle_power_level_crashes (charge_state : BatteryChargeState) (a : face) :
  show_power a = true → power_level_of charge_state ≠ prev_power a →
  ¬ 0 ≤ power_level_of charge_state < NUMBER_OF_POWER_IMAGES →
  handle_power_level charge_state a = Crash.
Proof.
  intros Hsp Hne Hrange. unfold handle_power_level.
  change (if is_charging charge_state then 5
          else c_div (charge_percent charge_state - 1) 20)
    with (power_level_of charge_state).
  apply Z.eqb_neq in Hne.
  assert ((0 <=? power_level_of charge_state)
          && (power_level_of charge_state <? NUMBER_OF_POWER_IMAGES) = false) as Hr.
  { apply andb_false_iff.
    destruct (Z.leb_spec 0 (power_level_of charge_state)); [ | by left].
    destruct (Z.ltb_spec (power_level_of charge_state) NUMBER_OF_POWER_IMAGES);
      [lia | by right]. }
  unfold fbind, fgets. fstep. rewrite Hsp, Hne. fstep. by rewrite Hr.
Qed.

Lemma handle_power_level_returns (charge_state : BatteryChargeState) (a a' : face) :
  store_delivers → face_inv a →
  handle_power_level charge_state a = Ok tt a' →
  a' = power_handled charge_state a ∧ face_inv a'.
Proof.
  intros Hstore Hinv Hrun.
  assert (handle_power_level charge_state a = Ok tt (power_handled charge_state a)
          ∧ face_inv (power_handled charge_state a)) as [Heq Hinv'].
  { unfold power_handled.
    destruct (show_power a) eqn:Hsp.
    - destruct (power_level_of charge_state =? prev_power a) eqn:Heq.
      + split; [ | done]. unfold handle_power_level.
        change (if is_charging charge_state then 5
                else c_div (charge_percent charge_state - 1) 20)
          with (power_level_of charge_state).
        unfold fbind, fgets, fret. fstep. by rewrite Hsp, Heq.
      + apply Z.eqb_neq in Heq.
        destruct (decide (0 ≤ power_level_of charge_state < NUMBER_OF_POWER_IMAGES))
          as [Hlv | Hlv].
        * split; [by apply show_power_ok | ].
          apply face_inv_power_shown; [done | ].
          unfold NUMBER_OF_POWER_IMAGES in Hlv. lia.
        * by rewrite handle_power_level_crashes in Hrun.
    - destruct (power_image a =? NULL) eqn:Hb.
      + split; [ | done]. unfold handle_power_level, fbind, fgets, fret. fstep.
        by rewrite Hsp, Hb.
      + apply Z.eqb_neq in Hb. split; [by apply hide_power_ok | ].
        by apply face_inv_power_hidden. }
  rewrite Heq in Hrun. by injection Hrun as <-.
Qed.

Lemma heap_handle_power_level (charge_state : BatteryChargeState) (a a' : face) :
  store_delivers → heap_inv a →
  handle_power_level charge_state a = Ok tt a' →
  heap_inv a'
  ∧ image_slot_state (cache a') = image_slot_state (cache a)
  ∧ zero_prefix (cache a') = zero_prefix (cache a).
Proof.
  intros Hstore Hinv Hrun.
  pose proof (ignores_handle_power_level charge_state (replicate 7 EmptyString) a)
    as Hsame.
  rewrite Hrun in Hsame. unfold on_face in Hsame.
  destruct (handle_power_level_returns _ _ _ Hstore Hinv Hsame) as [Heq Hinv'].
  destruct (power_handled_frame charge_state (without_day_names a))
    as (Hs & Hz & _).
  assert (without_day_names a'
          = power_handled charge_state (without_day_names a)) as Heq'
    by exact Heq.
  split; [done | ].
  change (cache a') with (cache (without_day_names a')).
  by rewrite Heq'.
Qed.

(** What does not touch the heap keeps [heap_inv]. *)
Lemma heap_inv_date_set (s : string) (a : face) :
  heap_inv a → heap_inv (set_text_layer_shows_date true (set_date s a)).
Proof. unfold heap_inv. by intros []; split. Qed.

Lemma heap_inv_set_prev_day (day : Z) (a : face) :
  heap_inv a → heap_inv (set_prev_day day a).
Proof. unfold heap_inv. by intros []; split. Qed.

Lemma heap_inv_set_persist (store : gmap Z persisted) (a : face) :
  heap_inv a → heap_inv (set_persist store a).
Proof. unfold heap_inv. by intros []; split. Qed.

Lemma heap_inv_set_show_power (b : bool) (a : face) :
  heap_inv a → heap_inv (set_show_power b a).
Proof. unfold heap_inv. by intros []; split. Qed.

Lemma heap_inv_set_show_bluetooth (b : bool) (a : face) :
  heap_inv a → heap_inv (set_show_bluetooth b a).
Proof. unfold heap_inv. by intros []; split. Qed.

Lemma heap_inv_set_month_first (b : bool) (a : face) :
  heap_inv a → heap_inv (set_month_first b a).
Proof. unfold heap_inv. by intros []; split. Qed.

Lemma heap_inv_set_zero_prefix (b : bool) (a : face) :
  heap_inv a → heap_inv (set_cache (set_zero_prefix b (cache a)) a).
Proof. unfold heap_inv. by intros []; split. Qed.

Lemma heap_inv_set_day_text (days : list string) (a : face) :
  heap_inv a → heap_inv (set_day_text days a).
Proof. unfold heap_inv. by intros []; split. Qed.

Lemma heap_inv_text_layer_created (a : face) :
  heap_inv a → heap_inv (text_layer_created a).
Proof. intros Hinv. exact (face_inv_text_layer_created _ Hinv). Qed.

(** [display_date], when it returns, has written [date] and nothing else
    but the layer's text. *)
Lemma display_date_returns (tick_time : tm) (a a' : face) :
  display_date tick_time a = Ok tt a' →
  ∃ s, a' = set_text_layer_shows_date true (set_date s a).
Proof.
  destruct a as [st bi bl pi pl tl ltl tsd pb pp pd dt sp sb mf days ps].
  unfold display_date. face_run.
  destruct (0 <=? tm_wday tick_time); [ | done].
  destruct (days !! Z.to_nat (tm_wday tick_time)) as [s | ]; [ | done]. face_run.
  match goal with |- context [ Z.of_nat (String.length ?t) <? DATE_SIZE ] =>
    destruct (Z.of_nat (String.length t) <? DATE_SIZE); [ | done];
    face_run; destruct (bool_decide (tl ∈ ltl)); [ | done];
    intros [= <-]; by exists t
  end.
Qed.

Lemma heap_display_date (tick_time : tm) (a a' : face) :
  heap_inv a → display_date tick_time a = Ok tt a' →
  heap_inv a' ∧ cache a' = cache a.
Proof.
  intros Hinv (s & ->)%display_date_returns.
  split; [by apply heap_inv_date_set | done].
Qed.

Lemma heap_handle_minute_tick (tick_time : tm) (c24 : bool) (a a' : face) :
  store_delivers → heap_inv a → no_leading_zero (cache a) →
  handle_minute_tick tick_time c24 a = Ok tt a' →
  heap_inv a' ∧ no_leading_zero (cache a').
Proof.
  intros Hstore Hinv Hnlz Hrun. unfold handle_minute_tick in Hrun.
  apply fbind_inv in Hrun as ([] & a1 & Hdt & Hrun).
  apply lift_inv in Hdt as (st' & Hdt & ->).
  destruct (heap_display_time_ok (tm_hour tick_time) (tm_min tick_time) c24 false a)
    as (st'' & Hdt' & Hinv' & Hnlz' & _); [done | done | by right | ].
  rewrite Hdt in Hdt'. injection Hdt' as <-.
  apply fbind_inv in Hrun as (pd & a2 & Hpd & Hrun).
  unfold fgets in Hpd. injection Hpd as <- <-.
  match type of Hrun with (if ?c then _ else _) _ = _ => destruct c end.
  - apply fbind_inv in Hrun as ([] & a3 & Hdd & Hrun).
    destruct (heap_display_date _ _ _ Hinv' Hdd) as [Hinv3 Hc3].
    unfold fmodify in Hrun. injection Hrun as <-.
    split; [by apply heap_inv_set_prev_day | ].
    change (cache (set_prev_day (tm_wday tick_time) a3)) with (cache a3).
    by rewrite Hc3.
  - unfold fret in Hrun. by injection Hrun as <-.
Qed.

Lemma heap_sync_day_text (new_tuple : Tuple) (key day : Z) (e : env) (a a' : face) :
  heap_inv a → no_leading_zero (cache a) →
  sync_day_text new_tuple key day e a = Ok tt a' →
  heap_inv a' ∧ no_leading_zero (cache a').
Proof.
  intros Hinv Hnlz Hrun. unfold sync_day_text in Hrun.
  apply fbind_inv in Hrun as ([] & a1 & Hset & Hrun).
  destruct (Z.of_nat (String.length (value_cstring new_tuple)) <? tuple_length new_tuple);
    [ | done].
  injection Hset as <-.
  apply fbind_inv in Hrun as (pd & a2 & Hpd & Hrun).
  unfold fgets in Hpd. injection Hpd as <- <-.
  apply fbind_inv in Hrun as ([] & a3 & Hdate & Hrun).
  apply fbind_inv in Hrun as (text & a4 & Htext & Hrun).
  destruct (day_text a3 !! Z.to_nat day) as [s | ]; [ | done].
  injection Htext as <- <-.
  unfold persist_write_string, fmodify in Hrun. injection Hrun as <-.
  assert (heap_inv a3 ∧ cache a3 = cache a) as [Hinv3 Hc3].
  { match type of Hdate with (if ?c then _ else _) _ = _ => destruct c end.
    - unfold update_date in Hdate.
      by apply heap_display_date in Hdate; [ | apply heap_inv_set_day_text].
    - unfold fret in Hdate. injection Hdate as <-.
      split; [by apply heap_inv_set_day_text | done]. }
  split; [by apply heap_inv_set_persist | ].
  change (cache (set_persist (<[key:=PString s]> (persist a3)) a3)) with (cache a3).
  by rewrite Hc3.
Qed.

Lemma heap_sync (key : Z) (new_tuple : Tuple) (e : env) (a a' : face) :
  store_delivers → heap_inv a → no_leading_zero (cache a) →
  sync_tuple_changed_callback key new_tuple e a = Ok tt a' →
  heap_inv a' ∧ no_leading_zero (cache a').
Proof.
  intros Hstore Hinv Hnlz Hrun. unfold sync_tuple_changed_callback in Hrun.
  destruct (key =? ZERO_PREFIX).
  { apply fbind_inv in Hrun as ([] & a1 & Hzp & Hrun).
    apply lift_inv in Hzp as (st1 & Hzp & ->).
    unfold modify in Hzp. injection Hzp as <-.
    apply fbind_inv in Hrun as ([] & a2 & Hdt & Hrun).
    unfold update_time in Hdt. apply lift_inv in Hdt as (st2 & Hdt & ->).
    destruct (heap_display_time_ok (tm_hour (now e)) (tm_min (now e))
                (clock_is_24h_style e) true
                (set_cache (set_zero_prefix (get_tuple_bool_value new_tuple) (cache a)) a))
      as (st'' & Hdt' & Hinv' & Hnlz' & _);
      [by apply heap_inv_set_zero_prefix | done | by left | ].
    change (cache (set_cache (set_zero_prefix (get_tuple_bool_value new_tuple) (cache a)) a))
      with (set_zero_prefix (get_tuple_bool_value new_tuple) (cache a)) in Hdt, Hdt'.
    rewrite Hdt in Hdt'. injection Hdt' as <-.
    apply fbind_inv in Hrun as (zp & a3 & Hg & Hrun).
    unfold fgets in Hg. injection Hg as <- <-.
    unfold persist_write_bool, fmodify in Hrun. injection Hrun as <-.
    split; [by apply heap_inv_set_persist | done]. }
  destruct (key =? SHOW_POWER).
  { apply fbind_inv in Hrun as ([] & a1 & Hset & Hrun).
    unfold fmodify in Hset. injection Hset as <-.
    apply fbind_inv in Hrun as ([] & a2 & Hpl & Hrun).
    apply heap_handle_power_level in Hpl as (Hinv2 & Hs2 & Hz2);
      [ | done | by apply heap_inv_set_show_power].
    apply fbind_inv in Hrun as (sp & a3 & Hg & Hrun).
    unfold fgets in Hg. injection Hg as <- <-.
    unfold persist_write_bool, fmodify in Hrun. injection Hrun as <-.
    split; [by apply heap_inv_set_persist | ].
    by apply (no_leading_zero_same (cache a)). }
  destruct (key =? SHOW_BTOOTH).
  { apply fbind_inv in Hrun as ([] & a1 & Hset & Hrun).
    unfold fmodify in Hset. injection Hset as <-.
    apply fbind_inv in Hrun as ([] & a2 & Hc & Hrun).
    destruct (heap_handle_connection (connected e)
                (set_show_bluetooth (get_tuple_bool_value new_tuple) a))
      as (a2' & Hc' & Hinv2 & Hs2 & Hz2);
      [done | by apply heap_inv_set_show_bluetooth | ].
    rewrite Hc in Hc'. injection Hc' as <-.
    apply fbind_inv in Hrun as (sb & a3 & Hg & Hrun).
    unfold fgets in Hg. injection Hg as <- <-.
    unfold persist_write_bool, fmodify in Hrun. injection Hrun as <-.
    split; [by apply heap_inv_set_persist | ].
    by apply (no_leading_zero_same (cache a)). }
  destruct (key =? MONTH_FIRST).
  { apply fbind_inv in Hrun as ([] & a1 & Hset & Hrun).
    unfold fmodify in Hset. injection Hset as <-.
    apply fbind_inv in Hrun as ([] & a2 & Hd & Hrun).
    unfold update_date in Hd.
    apply heap_display_date in Hd as [Hinv2 Hc2];
      [ | by apply heap_inv_set_month_first].
    apply fbind_inv in Hrun as (mf & a3 & Hg & Hrun).
    unfold fgets in Hg. injection Hg as <- <-.
    unfold persist_write_bool, fmodify in Hrun. injection Hrun as <-.
    split; [by apply heap_inv_set_persist | ].
    change (cache (set_persist (<[MONTH_FIRST:=PBool (month_first a2)]> (persist a2)) a2))
      with (cache a2).
    by rewrite Hc2. }
  repeat (match type of Hrun with (if ?c then _ else _) _ = _ => destruct c end;
          [by eapply heap_sync_day_text | ]).
  unfold fret in Hrun. by injection Hrun as <-.
Qed.

Lemma heap_handle (ev : event) (a a' : face) :
  store_delivers → heap_inv a → no_leading_zero (cache a) →
  handle ev a = Ok tt a' →
  heap_inv a' ∧ no_leading_zero (cache a').
Proof.
  intros Hstore Hinv Hnlz Hrun. destruct ev as [t c24 | c | b | key t e]; simpl in Hrun.
  - by eapply heap_handle_minute_tick.
  - destruct (heap_handle_power_level _ _ _ Hstore Hinv Hrun) as (? & ? & ?).
    split; [done | by apply (no_leading_zero_same (cache a))].
  - destruct (heap_handle_connection b a Hstore Hinv) as (a2 & Hc & ? & ? & ?).
    rewrite Hrun in Hc. injection Hc as <-.
    split; [done | by apply (no_leading_zero_same (cache a))].
  - by eapply heap_sync.
Qed.

Lemma heap_handle_all (evs : list event) (a a' : face) :
  store_delivers → heap_inv a → no_leading_zero (cache a) →
  handle_all evs a = Ok tt a' →
  heap_inv a' ∧ no_leading_zero (cache a').
Proof.
  intros Hstore. revert a.
  induction evs as [ | ev evs IH]; intros a Hinv Hnlz Hrun; simpl in Hrun.
  - unfold fret in Hrun. by injection Hrun as <-.
  - apply fbind_inv in Hrun as ([] & a1 & Hev & Hrun).
    destruct (heap_handle _ _ _ Hstore Hinv Hnlz Hev) as [Hinv1 Hnlz1].
    by apply (IH a1).
Qed.

Lemma heap_inv_settings_retrieved (store : gmap Z persisted) :
  heap_inv (settings_retrieved store).
Proof.
  split; simpl; try done;
    try (intros p Hp; by apply elem_of_nil in Hp);
    try (vm_compute; apply NoDup_nil_2).
  intros s Hs.
  repeat (apply elem_of_cons in Hs as [-> | Hs]; [simpl; lia | ]).
  by apply elem_of_nil in Hs.
Qed.

Lemma heap_app_init (e : env) (store : gmap Z persisted) (a : face) :
  store_delivers → app_init e (initial_face store) = Ok tt a →
  heap_inv a ∧ no_leading_zero (cache a).
Proof.
  intros Hstore Hrun. rewrite app_init_unfold in Hrun.
  apply fbind_inv in Hrun as ([] & a1 & Hdt & Hrun).
  apply lift_inv in Hdt as (st1 & Hdt & ->).
  destruct (heap_display_time_ok (tm_hour (now e)) (tm_min (now e))
              (clock_is_24h_style e) true (settings_retrieved store))
    as (st' & Hdt' & Hinv1 & Hnlz1 & _);
    [apply heap_inv_settings_retrieved | done | by left | ].
  rewrite Hdt in Hdt'. injection Hdt' as <-.
  apply fbind_inv in Hrun as ([] & a2 & Hpl & Hrun).
  apply heap_handle_power_level in Hpl as (Hinv2 & Hs2 & Hz2); [ | done | done].
  apply fbind_inv in Hrun as ([] & a3 & Hc & Hrun).
  destruct (heap_handle_connection (connected e) a2 Hstore Hinv2)
    as (a3' & Hc' & Hinv3 & Hs3 & Hz3).
  rewrite Hc in Hc'. injection Hc' as <-.
  apply fbind_inv in Hrun as (layer & a4 & Hcreate & Hrun).
  unfold text_layer_create in Hcreate. injection Hcreate as <- <-.
  apply fbind_inv in Hrun as ([] & a5 & Hset & Hrun).
  unfold fmodify in Hset. injection Hset as <-.
  apply fbind_inv in Hrun as ([] & a6 & Hd & Hrun).
  apply heap_display_date in Hd as [Hinv6 Hc6];
    [ | exact (heap_inv_text_layer_created a3 Hinv3)].
  unfold fmodify in Hrun. injection Hrun as <-.
  split; [by apply heap_inv_set_prev_day | ].
  change (cache (set_prev_day (tm_wday (now e)) a6)) with (cache a6).
  rewrite Hc6.
  apply (no_leading_zero_same st1); [ | | done].
  - simpl. by rewrite Hs3, Hs2.
  - simpl. by rewrite Hz3, Hz2.
Qed.

(** Every run that returns leaves the heap in order and no zero in
    slot 0 that should be blank. *)
Lemma run_returns_heap (store : gmap Z persisted) (e : env) (evs : list event)
      (a : face) :
  store_delivers → run e evs (initial_face store) = Ok tt a →
  heap_inv a ∧ no_leading_zero (cache a).
Proof.
  intros Hstore Hrun. unfold run in Hrun.
  apply fbind_inv in Hrun as ([] & a1 & Hinit & Hrun).
  destruct (heap_app_init _ _ _ Hstore Hinit) as [Hinv1 Hnlz1].
  by eapply heap_handle_all.
Qed.



(** X1.  Every run of the watch face that returns -- [app_init], then
    any minute ticks, battery and connection events and settings
    callbacks, whatever the store, the clock and the phone hold, with
    bitmaps that load -- ends in a state whose slot 0 does not show 0
    while [zero_prefix] is off, and in which the bitmaps and layers the
    program points to are allocated, each once. *)
Theorem app_blanks_leading_zero (store : gmap Z persisted) (e : env)
        (evs : list event) (a : face) :
  store_delivers →
  run e evs (initial_face store) = Ok tt a →
  (zero_prefix (cache a) = false → slot_digit (cache a) 0 ≠ Some 0)
  ∧ NoDup (owned_bitmaps a)
  ∧ NoDup (owned_layers a)
  ∧ (∀ p, p ∈ owned_bitmaps a → p ∈ live_bitmaps (cache a))
  ∧ (∀ p, p ∈ owned_layers a → p ∈ live_layers (cache a))
  ∧ length (image_slot_state (cache a)) = 4%nat.
Proof.
  intros Hstore Hrun.
  destruct (run_returns_heap _ _ _ _ Hstore Hrun) as [Hinv Hnlz].
  split; [done | ].
  split_and!.
  - exact (fi_owned_b _ Hinv).
  - exact (fi_owned_l _ Hinv).
  - exact (fi_owned_b_live _ Hinv).
  - exact (fi_owned_l_live _ Hinv).
  - exact (fi_len_state _ Hinv).
Qed.

(** X7.  The watch face shows the time.  In every state a returning run
    reaches, a [display_time] of any hour 0..23 and minute 0..59, forced
    or not, in 12- or 24-hour style, returns and leaves the four slots
    holding the two digits of the displayed hour, the first one blank
    when it is 0 and [zero_prefix] is off, and the two digits of the
    minute; [zero_prefix] is as it was. *)
Theorem app_shows_the_time (store : gmap Z persisted) (e : env)
        (evs : list event) (a : face) (tm_hour tm_min : Z) (c24 changed : bool) :
  store_delivers →
  run e evs (initial_face store) = Ok tt a →
  0 ≤ tm_hour ≤ 23 → 0 ≤ tm_min ≤ 59 →
  ∃ st', display_time tm_hour tm_min c24 changed (cache a) = Done tt st'
         ∧ image_slot_state st'
           = time_digits (zero_prefix (cache a)) c24 tm_hour tm_min
         ∧ zero_prefix st' = zero_prefix (cache a).
Proof.
  intros Hstore Hrun Hhour Hmin.
  destruct (run_returns_heap _ _ _ _ Hstore Hrun) as [Hinv Hnlz].
  destruct (heap_display_time_ok tm_hour tm_min c24 changed a)
    as (st' & Hdt & _ & _ & Hzp); [done | done | by right | ].
  exists st'. split_and!; [done | | done].
  by apply (face_display_time_shows tm_hour tm_min c24 changed
              (without_day_names a) st' Hinv Hstore Hhour Hmin (or_intror Hnlz)).
Qed.

(** X19.  A new [ZERO_PREFIX] setting is shown at once.  In every state a
    returning run reaches, the callback for [ZERO_PREFIX] returns; it
    sets [zero_prefix] to the flag sent, displays the time of the
    environment anew, forced, so that the four slots hold its digits
    under the new setting, and saves the flag under [ZERO_PREFIX]. *)
Theorem zero_prefix_setting_redisplays (store : gmap Z persisted) (e e' : env)
        (evs : list event) (a : face) (new_tuple : Tuple) :
  store_delivers →
  run e evs (initial_face store) = Ok tt a →
  0 ≤ tm_hour (now e') ≤ 23 → 0 ≤ tm_min (now e') ≤ 59 →
  ∃ a', sync_tuple_changed_callback ZERO_PREFIX new_tuple e' a = Ok tt a'
        ∧ zero_prefix (cache a') = get_tuple_bool_value new_tuple
        ∧ image_slot_state (cache a')
          = time_digits (get_tuple_bool_value new_tuple) (clock_is_24h_style e')
              (tm_hour (now e')) (tm_min (now e'))
        ∧ persist a'
          = <[ZERO_PREFIX := PBool (get_tuple_bool_value new_tuple)]> (persist a).
Proof.
  intros Hstore Hrun Hhour Hmin.
  destruct (run_returns_heap _ _ _ _ Hstore Hrun) as [Hinv _].
  set (b := get_tuple_bool_value new_tuple).
  set (a1 := set_cache (set_zero_prefix b (cache a)) a).
  assert (heap_inv a1) as Hinv1 by (by apply heap_inv_set_zero_prefix).
  destruct (heap_display_time_ok (tm_hour (now e')) (tm_min (now e'))
              (clock_is_24h_style e') true a1)
    as (st' & Hdt & _ & _ & Hzp); [done | done | by left | ].
  pose proof (face_display_time_shows (tm_hour (now e')) (tm_min (now e'))
                (clock_is_24h_style e') true (without_day_names a1) st'
                Hinv1 Hstore Hhour Hmin (or_introl eq_refl) Hdt) as Hshows.
  exists (set_persist (<[ZERO_PREFIX := PBool b]> (persist a)) (set_cache st' a)).
  split.
  { unfold sync_tuple_changed_callback.
    change (ZERO_PREFIX =? ZERO_PREFIX) with true. cbv iota.
    unfold fbind at 1. unfold lift at 1, modify. cbv beta iota.
    fold b. fold a1. unfold update_time.
    rewrite (fbind_Ok _ _ _ _ _ (lift_Done _ _ _ _ Hdt)).
    unfold fbind, fgets, persist_write_bool, fmodify. cbv beta iota.
    change (zero_prefix (cache (set_cache st' a1))) with (zero_prefix st').
    rewrite Hzp. done. }
  split; [exact Hzp | ]. split; [exact Hshows | done].
Qed.

End Handlers.

(** ** Concrete runs of the whole watch face *)

(** The hypotheses about the build, the store and the day of the concrete
    runs, by evaluation. *)
Ltac by_evaluation :=
  lazymatch goal with
  | |- store_delivers => intros ? ?; reflexivity
  | |- store_short _ => intros ? ? Hs; by rewrite lookup_empty in Hs
  | |- Forall event_ok _ =>
      repeat (apply List.Forall_cons); try apply List.Forall_nil;
      unfold event_ok, env_ok, tm_ok, battery_ok, tuple_ok, SUN_TEXT, SAT_TEXT,
        SHOW_BTOOTH, ZERO_PREFIX;
      simpl; lia
  | |- _ =>
      unfold env_ok, tm_ok, battery_ok, tuple_ok, SUN_TEXT, SAT_TEXT, SHOW_BTOOTH,
        ZERO_PREFIX;
      simpl; lia
  end.

Lemma watch_face_never_crashes_witness :
  @run store_ok icons monday_afternoon a_day (initial_face ∅)
  = Ok tt (@face_after store_ok icons ∅ monday_afternoon a_day)
  ∧ face_inv (@face_after store_ok icons ∅ monday_afternoon a_day)
  ∧ no_leading_zero (cache (@face_after store_ok icons ∅ monday_afternoon a_day))
  ∧ text_layer (@face_after store_ok icons ∅ monday_afternoon a_day)
    ∈ live_text_layers (@face_after store_ok icons ∅ monday_afternoon a_day).
Proof.
  apply (@watch_face_never_crashes store_ok icons ∅ monday_afternoon a_day);
    by_evaluation.
Defined.

Lemma bluetooth_icon_follows_connection_witness :
  ∃ a', @handle_connection store_ok icons true after_a_day = Ok tt a'
        ∧ (bluetooth_image a' ≠ NULL
           ↔ show_bluetooth after_a_day = true ∧ true = true)
        ∧ (bluetooth_image a' ≠ NULL →
           bluetooth_image a' ∈ live_bitmaps (cache a')
           ∧ bluetooth_layer a' ∈ live_layers (cache a')).
Proof.
  apply (@bluetooth_icon_follows_connection store_ok icons ∅ monday_afternoon a_day
           after_a_day true); try by_evaluation.
  vm_compute. reflexivity.
Defined.

Lemma power_level_change_leaks_bitmap_witness :
  ∃ a', @handle_power_level store_ok icons
          {| charge_percent := 100; is_charging := false |} after_a_day = Ok tt a'
        ∧ power_image a' ≠ NULL
        ∧ power_image a' ≠ power_image after_a_day
        ∧ power_layer a' = power_layer after_a_day
        ∧ power_image after_a_day ∈ live_bitmaps (cache a')
        ∧ (power_image after_a_day ∉ owned_bitmaps a').
Proof.
  apply (@power_level_change_leaks_bitmap store_ok icons ∅ monday_afternoon a_day
           after_a_day {| charge_percent := 100; is_charging := false |});
    try by_evaluation.
  - vm_compute. reflexivity.
  - vm_compute. reflexivity.
  - vm_compute. discriminate.
  - vm_compute. discriminate.
Defined.

Lemma bluetooth_setting_is_never_saved_witness :
  persist after_a_day !! SHOW_BTOOTH = (∅ : gmap Z persisted) !! SHOW_BTOOTH.
Proof.
  apply (@bluetooth_setting_is_never_saved store_ok icons ∅ monday_afternoon a_day
           after_a_day); try by_evaluation.
  vm_compute. reflexivity.
Defined.

Lemma settings_survive_restart_witness :
  ∃ a' b, @sync_tuple_changed_callback store_ok icons ZERO_PREFIX flag_on
            tuesday_morning after_a_day = Ok tt a'
          ∧ @app_init store_ok icons tuesday_morning (initial_face (persist a'))
            = Ok tt b
          ∧ (ZERO_PREFIX = ZERO_PREFIX →
             zero_prefix (cache b) = get_tuple_bool_value flag_on)
          ∧ (ZERO_PREFIX = SHOW_POWER → show_power b = get_tuple_bool_value flag_on)
          ∧ (ZERO_PREFIX = MONTH_FIRST → month_first b = get_tuple_bool_value flag_on)
          ∧ (SUN_TEXT ≤ ZERO_PREFIX ≤ SAT_TEXT →
             day_text b !! Z.to_nat (ZERO_PREFIX - SUN_TEXT)
             = Some (value_cstring flag_on)).
Proof.
  apply (@settings_survive_restart store_ok icons ∅ monday_afternoon a_day
           after_a_day ZERO_PREFIX flag_on tuesday_morning tuesday_morning);
    try by_evaluation.
  vm_compute. reflexivity.
Defined.

Lemma bluetooth_setting_lost_on_restart_witness :
  ∃ a' b, @sync_tuple_changed_callback store_ok icons SHOW_BTOOTH flag_off
            tuesday_morning after_a_day = Ok tt a'
          ∧ show_bluetooth a' = get_tuple_bool_value flag_off
          ∧ show_power a' = show_power after_a_day
          ∧ @app_init store_ok icons tuesday_morning (initial_face (persist a'))
            = Ok tt b
          ∧ show_bluetooth b = retrieved_bool ∅ SHOW_BTOOTH true
          ∧ show_power b = get_tuple_bool_value flag_off.
Proof.
  apply (@bluetooth_setting_lost_on_restart store_ok icons ∅ monday_afternoon a_day
           after_a_day flag_off tuesday_morning tuesday_morning);
    try by_evaluation.
  vm_compute. reflexivity.
Defined.

Lemma app_destroy_leaves_indicators_witness :
  ∃ a', app_destroy after_a_day = Ok tt a'
        ∧ (∀ i, 0 ≤ i < TOTAL_IMAGE_SLOTS →
                slot_digit (cache a') i = Some EMPTY_SLOT)
        ∧ (text_layer after_a_day ∉ live_text_layers a')
        ∧ (power_image after_a_day ≠ NULL →
           power_image after_a_day ∈ live_bitmaps (cache a')
           ∧ power_layer after_a_day ∈ live_layers (cache a'))
        ∧ (bluetooth_image after_a_day ≠ NULL →
           bluetooth_image after_a_day ∈ live_bitmaps (cache a')
           ∧ bluetooth_layer after_a_day ∈ live_layers (cache a')).
Proof.
  apply (@app_destroy_leaves_indicators store_ok icons ∅ monday_afternoon a_day
           after_a_day); try by_evaluation.
  vm_compute. reflexivity.
Defined.

Lemma tick_shows_time_and_date_witness :
  ∃ a', @handle_minute_tick store_ok (now tuesday_morning) false after_a_day
        = Ok tt a'
        ∧ image_slot_state (cache a')
          = time_digits (zero_prefix (cache after_a_day)) false
                        (tm_hour (now tuesday_morning)) (tm_min (now tuesday_morning))
        ∧ date a' = (if prev_day after_a_day =? tm_wday (now tuesday_morning)
                     then date after_a_day
                     else date_text (now tuesday_morning) after_a_day)
        ∧ prev_day a' = tm_wday (now tuesday_morning).
Proof.
  apply (@tick_shows_time_and_date store_ok icons ∅ monday_afternoon a_day
           after_a_day (now tuesday_morning) false); try by_evaluation.
  vm_compute. reflexivity.
Defined.

Lemma app_init_shows_time_date_and_icons_witness :
  ∃ a, @app_init store_ok icons monday_afternoon (initial_face ∅) = Ok tt a
       ∧ image_slot_state (cache a)
         = time_digits (retrieved_bool ∅ ZERO_PREFIX false)
                       (clock_is_24h_style monday_afternoon)
                       (tm_hour (now monday_afternoon))
                       (tm_min (now monday_afternoon))
       ∧ date a = date_text (now monday_afternoon) (settings_retrieved ∅)
       ∧ (power_image a ≠ NULL ↔ retrieved_bool ∅ SHOW_POWER true = true)
       ∧ (bluetooth_image a ≠ NULL
          ↔ retrieved_bool ∅ SHOW_BTOOTH true = true
            ∧ connected monday_afternoon = true).
Proof.
  apply (@app_init_shows_time_date_and_icons store_ok icons ∅ monday_afternoon);
    by_evaluation.
Defined.

Lemma long_day_name_crashes_witness :
  @sync_tuple_changed_callback store_ok icons
    (SUN_TEXT + tm_wday (now tuesday_morning)) long_name tuesday_morning after_a_day
  = Crash.
Proof.
  apply (@long_day_name_crashes store_ok icons ∅ monday_afternoon a_day
           after_a_day long_name tuesday_morning); try by_evaluation.
  - vm_compute. reflexivity.
  - vm_compute. reflexivity.
Defined.

Lemma power_icon_follows_setting_witness :
  ∃ a', @handle_power_level store_ok icons
          {| charge_percent := 0; is_charging := false |} after_a_day = Ok tt a'
        ∧ (power_image a' ≠ NULL ↔ show_power after_a_day = true)
        ∧ prev_power a'
          = (if show_power after_a_day
             then power_level_of {| charge_percent := 0; is_charging := false |}
             else -1)
        ∧ 0 ≤ power_level_of {| charge_percent := 0; is_charging := false |} ≤ 5
        ∧ (power_image a' ≠ NULL →
           power_image a' ∈ live_bitmaps (cache a')
           ∧ power_layer a' ∈ live_layers (cache a')).
Proof.
  apply (@power_icon_follows_setting store_ok icons ∅ monday_afternoon a_day
           after_a_day {| charge_percent := 0; is_charging := false |});
    try by_evaluation.
  vm_compute. reflexivity.
Defined.


(** The spec's example for C6 on the watch: 7 on row 0, while the minutes
    stay.  With [zero_prefix] off slot 0 is empty and slot 1 shows 7,
    forced or not; with it on, slot 0 shows 0. *)
Example display_value_7_on_the_watch :
  (∃ st', @display_value store_ok 7 0 true (cache after_a_day) = Done tt st'
          ∧ zero_prefix st' = false
          ∧ image_slot_state st' = [EMPTY_SLOT; 7; 0; 0])
  ∧ (∃ st', @display_value store_ok 7 0 false (cache after_a_day) = Done tt st'
            ∧ image_slot_state st' = [EMPTY_SLOT; 7; 0; 0])
  ∧ (∃ st', @display_value store_ok 7 0 true (cache after_a_long_name) = Done tt st'
            ∧ zero_prefix st' = true
            ∧ image_slot_state st' = [0; 7; 3; 0])
  ∧ (∃ st', @display_value store_ok 7 0 false (cache after_a_long_name) = Done tt st'
            ∧ image_slot_state st' = [0; 7; 3; 0]).
Proof. vm_compute. split_and!; eexists; split_and!; reflexivity. Qed.

Lemma app_blanks_leading_zero_witness :
  (zero_prefix (cache after_a_long_name) = false
   → slot_digit (cache after_a_long_name) 0 ≠ Some 0)
  ∧ NoDup (owned_bitmaps after_a_long_name)
  ∧ NoDup (owned_layers after_a_long_name)
  ∧ (∀ p, p ∈ owned_bitmaps after_a_long_name
          → p ∈ live_bitmaps (cache after_a_long_name))
  ∧ (∀ p, p ∈ owned_layers after_a_long_name
          → p ∈ live_layers (cache after_a_long_name))
  ∧ length (image_slot_state (cache after_a_long_name)) = 4%nat.
Proof.
  apply (@app_blanks_leading_zero store_ok icons ∅ monday_afternoon a_long_name
           after_a_long_name); try by_evaluation.
  vm_compute. reflexivity.
Defined.

(** That run is not one of a well-behaved phone: the name it leaves for
    Wednesday does not fit the date line. *)
Example after_a_long_name_day_text :
  day_text after_a_long_name = ["Su"; "Mo"; "Tu"; "Mittwochabend"; "Th"; "Fr"; "Sa"]
  ∧ zero_prefix (cache after_a_long_name) = true
  ∧ image_slot_state (cache after_a_long_name) = [0; 9; 3; 0].
Proof. vm_compute. split_and!; reflexivity. Qed.

Lemma app_shows_the_time_witness :
  ∃ st', @display_time store_ok 9 31 false false (cache after_a_long_name)
         = Done tt st'
         ∧ image_slot_state st'
           = time_digits (zero_prefix (cache after_a_long_name)) false 9 31
         ∧ zero_prefix st' = zero_prefix (cache after_a_long_name).
Proof.
  apply (@app_shows_the_time store_ok icons ∅ monday_afternoon a_long_name
           after_a_long_name 9 31 false false); try by_evaluation.
  vm_compute. reflexivity.
Defined.

Lemma zero_prefix_setting_redisplays_witness :
  ∃ a', @sync_tuple_changed_callback store_ok icons ZERO_PREFIX flag_on
          tuesday_morning after_a_day = Ok tt a'
        ∧ zero_prefix (cache a') = get_tuple_bool_value flag_on
        ∧ image_slot_state (cache a')
          = time_digits (get_tuple_bool_value flag_on)
              (clock_is_24h_style tuesday_morning)
              (tm_hour (now tuesday_morning)) (tm_min (now tuesday_morning))
        ∧ persist a'
          = <[ZERO_PREFIX := PBool (get_tuple_bool_value flag_on)]>
              (persist after_a_day).
Proof.
  apply (@zero_prefix_setting_redisplays store_ok icons ∅ monday_afternoon
           tuesday_morning a_day after_a_day flag_on); try by_evaluation.
  vm_compute. reflexivity.
Defined.

End FaceFacts.
